(** * SDNist [sdnist/utils.py]: discretisation, its inverse and the row filter

    A shallow embedding of [create_bins], [discretize], [undo_discretize] and
    [df_filter].  The pandas and numpy primitives these functions call are
    written out as list functions next to them.

    Conventions of the model.
    - A number is an integer or one of the IEEE specials (type [num]); the
      bin specifications and schema bounds are JSON integers, so every cut
      point is integer valued.  Fractional floats and 64-bit overflow are
      outside the model.
    - A Python exception is a value [Raise e] of the [result] type.
    - A [dict] whose iteration order is observed is an association list in
      insertion order; the schema, which is only looked up, is a [gmap].
    - A [DataFrame] is the ordered list of its labelled columns; the row
      index is never consulted by the functions below and is left out, and
      the [copy] flag, which only decides whose object is updated, has no
      counterpart in a model that returns the new table. *)

From Stdlib Require Import ZArith Lia Ascii.
From stdpp Require Import base option list strings gmap pretty sorting.

Local Open Scope Z_scope.

(** ** Exceptions *)

Inductive exn : Set :=
  | KeyError
  | IndexError
  | ValueError
  | TypeError
  | ZeroDivisionError.

Inductive result (A : Type) : Type :=
  | Ok (a : A)
  | Raise (e : exn).

Arguments Ok {A} a.
Arguments Raise {A} e.

#[global] Instance exn_eq_dec : EqDecision exn.
Proof. solve_decision. Defined.

#[global] Instance result_ret : MRet result := fun A a => Ok a.

#[global] Instance result_bind : MBind result := fun A B f m =>
  match m with
  | Ok a => f a
  | Raise e => Raise e
  end.

#[global] Instance result_fmap : FMap result := fun A B f m =>
  match m with
  | Ok a => Ok (f a)
  | Raise e => Raise e
  end.

(** [d[k]] on a key that may be missing. *)
Definition getitem {A} (o : option A) : result A :=
  match o with
  | Some a => Ok a
  | None => Raise KeyError
  end.

(** ** Numbers and cells *)

Inductive num : Set :=
  | NegInf
  | Fin (z : Z)
  | PosInf
  | NaN.

Inductive cell : Set :=
  | Num (x : num)
  | Str (s : string).

#[global] Instance num_eq_dec : EqDecision num.
Proof. solve_decision. Defined.

#[global] Instance cell_eq_dec : EqDecision cell.
Proof. solve_decision. Defined.

(** IEEE comparison: every comparison with NaN is false. *)
Definition num_le (a b : num) : bool :=
  match a, b with
  | NaN, _ | _, NaN => false
  | NegInf, _ => true
  | _, PosInf => true
  | Fin x, Fin y => x <=? y
  | _, _ => false
  end.

Definition num_lt (a b : num) : bool :=
  match a, b with
  | NaN, _ | _, NaN => false
  | NegInf, NegInf => false
  | NegInf, _ => true
  | PosInf, _ => false
  | Fin x, Fin y => x <? y
  | Fin _, PosInf => true
  | Fin _, NegInf => false
  end.

Definition num_add (a b : num) : num :=
  match a, b with
  | NaN, _ | _, NaN => NaN
  | Fin x, Fin y => Fin (x + y)
  | NegInf, PosInf | PosInf, NegInf => NaN
  | NegInf, _ | _, NegInf => NegInf
  | PosInf, _ | _, PosInf => PosInf
  end.

Definition is_finite (a : num) : bool :=
  match a with
  | Fin _ => true
  | _ => false
  end.

Definition isnan (a : num) : bool :=
  match a with
  | NaN => true
  | _ => false
  end.

(** [str(x)], as numpy applies it when an array is promoted to strings. *)
Definition num_str (a : num) : string :=
  match a with
  | NegInf => "-inf"
  | Fin z => pretty z
  | PosInf => "inf"
  | NaN => "nan"
  end.

Definition is_str (c : cell) : bool :=
  match c with
  | Str _ => true
  | Num _ => false
  end.

Definition cell_str (c : cell) : cell :=
  match c with
  | Num x => Str (num_str x)
  | Str s => Str s
  end.

(** ** Ordered dictionaries *)

Abbreviation dict V := (list (string * V)).
Abbreviation Series := (list cell).
Abbreviation DataFrame := (list (string * list cell)).

Fixpoint dict_get {V} (k : string) (d : dict V) : option V :=
  match d with
  | [] => None
  | (k', v) :: d' => if decide (k = k') then Some v else dict_get k d'
  end.

(** [d[k] = v]: an existing key keeps its place, a new one goes last. *)
Fixpoint dict_set {V} (k : string) (v : V) (d : dict V) : dict V :=
  match d with
  | [] => [(k, v)]
  | (k', v') :: d' =>
      if decide (k = k') then (k, v) :: d' else (k', v') :: dict_set k v d'
  end.

Definition keys {V} (d : dict V) : list string := d.*1.

(** ** Integer ranges *)

(** Number of terms of [start, start + step, ...] before [stop]:
    [ceil ((stop - start) / step)], never negative. *)
Definition range_len (start stop step : Z) : Z :=
  Z.max 0 (- ((- (stop - start)) `div` step)).

Definition arith_seq (start stop step : Z) : list Z :=
  (fun i => start + i * step) <$> seqZ 0 (range_len start stop step).

(** [range(start, stop, step)] *)
Definition py_range (start stop step : Z) : result (list Z) :=
  if decide (step = 0) then Raise ValueError
  else Ok (arith_seq start stop step).

(** [np.arange(start, stop, step)] on integers: an int64 array *)
Definition np_arange (start stop step : Z) : result (list Z) :=
  if decide (step = 0) then Raise ZeroDivisionError
  else Ok (arith_seq start stop step).

(** [np.r_[-np.inf, mid, np.inf]], every point written as the integer it
    is computed from.  numpy stores the array as float64 ([to_float64]
    below), which keeps the points of magnitude up to [2^53] as they are. *)
Definition np_r_ (mid : list Z) : list num :=
  NegInf :: (Fin <$> mid) ++ [PosInf].

(** ** [create_bins] *)

Record bin_range : Set := {
  bin_type : option string;
  first_bin_max : option Z;
  last_bin_min : option Z;
  bin_size : option Z;
  first_bin_max_hour : option Z;
  last_bin_min_hour : option Z;
  bin_size_minutes : option Z
}.

(** The list comprehension of the time case:
    [[h * 100 + m for h in range(fbm, lbm) for m in range(0, 60, bs)]].
    The inner range is built once per hour, so a zero step only raises when
    there is an hour to visit. *)
Definition time_points (fbm lbm bs : Z) : result (list Z) :=
  hs ← py_range fbm lbm 1;
  rows ← mapM (fun h => ms ← py_range 0 60 bs;
                        mret ((fun m => h * 100 + m) <$> ms)) hs;
  mret (concat rows).

(** Body of the loop of [create_bins] for one item [(f, br)]: the cut points
    to store under [f], or [None] when neither branch applies. *)
Definition create_bins_entry (br : bin_range) : result (option (list num)) :=
  match bin_type br with
  | None =>
      fbm ← getitem (first_bin_max br);
      lbm ← getitem (last_bin_min br);
      bs ← getitem (bin_size br);
      mid ← np_arange fbm lbm bs;
      mret (Some (np_r_ mid))
  | Some t =>
      if decide (t = "time") then
        fbm ← getitem (first_bin_max_hour br);
        lbm ← getitem (last_bin_min_hour br);
        bs ← getitem (bin_size_minutes br);
        mid ← time_points fbm lbm bs;
        mret (Some (np_r_ mid))
      else mret None
  end.

Fixpoint create_bins_loop (items : dict bin_range) (bins : dict (list num))
  : result (dict (list num)) :=
  match items with
  | [] => Ok bins
  | (f, br) :: items' =>
      e ← create_bins_entry br;
      create_bins_loop items'
        (match e with Some b => dict_set f b bins | None => bins end)
  end.

Definition create_bins (bins_range : dict bin_range) : result (dict (list num)) :=
  create_bins_loop bins_range [].

(** Bin-table invariant: neighbouring cut points increase strictly. *)
Fixpoint is_strictly_increasing (bins : list num) : bool :=
  match bins with
  | a :: (b :: _) as rest => num_lt a b && is_strictly_increasing rest
  | _ => true
  end.

(** ** The column loop

    [for column in dataset: dataset[column] = body(column, dataset[column])],
    the shape of the loops of [discretize] and [undo_discretize].  The table
    is the state of the loop; the labels are those it had on entry. *)
Fixpoint for_columns (body : string -> Series -> result Series)
    (columns : list string) (dataset : DataFrame) : result DataFrame :=
  match columns with
  | [] => Ok dataset
  | column :: columns' =>
      col ← getitem (dict_get column dataset);
      col' ← body column col;
      for_columns body columns' (dict_set column col' dataset)
  end.

(** ** pandas and numpy primitives used by the encoder and the decoder *)

(** [Series.replace(to_replace, value)] *)
Definition series_replace (to_replace value : cell) (col : Series) : Series :=
  (fun x => if decide (x = to_replace) then value else x) <$> col.

Section Encoder.

(** pandas' parser of numeric strings, as [pd.to_numeric] applies it to the
    strings of an object column; [None] stands for its ValueError. *)
Variable parse_numeric : string -> option num.

(** [pd.to_numeric(col)] *)
Definition pd_to_numeric (col : Series) : result Series :=
  mapM (fun x =>
          match x with
          | Num _ => Ok x
          | Str s =>
              match parse_numeric s with
              | Some n => Ok (Num n)
              | None => Raise ValueError
              end
          end) col.

(** [bins.searchsorted(x, side="right")] on a sorted array: how many cut
    points are [<= x]. *)
Definition searchsorted_right (bins : list num) (x : num) : Z :=
  Z.of_nat (length (filter (fun b => num_le b x = true) bins)).

Fixpoint is_monotonic_increasing (bins : list num) : bool :=
  match bins with
  | a :: (b :: _) as rest => num_le a b && is_monotonic_increasing rest
  | _ => true
  end.

(** Code of one value under [pd.cut(..., right=False)]: the interval
    [[bins[i], bins[i+1])] holding it, and [-1] for NaN and for a value left
    of the first or right of the last interval. *)
Definition cut_code (bins : list num) (x : cell) : result cell :=
  match x with
  | Str _ => Raise TypeError
  | Num v =>
      let ids := searchsorted_right bins v in
      if isnan v || bool_decide (ids = Z.of_nat (length bins))
                 || bool_decide (ids = 0)
      then Ok (Num (Fin (-1)))
      else Ok (Num (Fin (ids - 1)))
  end.

(** [pd.cut(col, bins, right=False).cat.codes] *)
Definition pd_cut_codes (col : Series) (bins : list num) : result Series :=
  if negb (is_monotonic_increasing bins) then Raise ValueError
  else if negb (bool_decide (NoDup bins)) && negb (bool_decide (length bins = 2%nat))
  then Raise ValueError
  else mapM (cut_code bins) col.

(** [pd.CategoricalDtype(categories)]: the categories must be non-null and
    unique. *)
Definition CategoricalDtype (categories : list cell) : result (list cell) :=
  if bool_decide (Num NaN ∈ categories) then Raise ValueError
  else if bool_decide (NoDup categories) then Ok categories
  else Raise ValueError.

(** Position of [x] among the categories, [-1] when it is not one. *)
Definition category_code (categories : list cell) (x : cell) : Z :=
  match list_find (fun c => c = x) categories with
  | Some (i, _) => Z.of_nat i
  | None => -1
  end.

(** [col.astype(pd.CategoricalDtype(categories)).cat.codes] *)
Definition astype_category_codes (col : Series) (categories : list cell)
  : result Series :=
  dtype ← CategoricalDtype categories;
  mret ((fun x => Num (Fin (category_code dtype x))) <$> col).

(** [col - m], exact: the values, with int64 as with float64, of magnitude
    up to [2^53] *)
Definition series_sub (col : Series) (m : Z) : result Series :=
  mapM (fun x =>
          match x with
          | Num v => Ok (Num (num_add v (Fin (- m))))
          | Str _ => Raise TypeError
          end) col.

(** [col.astype(int)]: a non-finite value cannot be cast. *)
Definition astype_int (col : Series) : result Series :=
  mapM (fun x =>
          match x with
          | Num (Fin z) => Ok (Num (Fin z))
          | _ => Raise ValueError
          end) col.

(** ** [discretize] *)

Record desc : Set := {
  desc_values : option (list cell);
  desc_min : option Z;
  desc_has_null : option bool;
  desc_null_value : option cell
}.

(** Body of the column loop of [discretize]: the new content of [column].
    The two [pass] branches hand the column back as it is. *)
Definition discretize_column (schema : gmap string desc)
    (bins : dict (list num)) (column : string) (col : Series) : result Series :=
  match dict_get column bins with
  | Some b =>
      col1 ← match schema !! column with
             | Some d =>
                 match desc_has_null d with
                 | Some _ =>
                     null_val ← getitem (desc_null_value d);
                     m ← getitem (desc_min d);
                     pd_to_numeric (series_replace null_val (Num (Fin (m - 1))) col)
                 | None => Ok col
                 end
             | None => Ok col
             end;
      pd_cut_codes col1 b
  | None =>
      match schema !! column with
      | Some d =>
          match desc_values d with
          | Some vs => astype_category_codes col vs
          | None =>
              match desc_min d with
              | Some m =>
                  col1 ← match desc_has_null d with
                         | Some _ =>
                             null_val ← getitem (desc_null_value d);
                             mret (series_replace null_val (Num (Fin (m - 1))) col)
                         | None => Ok col
                         end;
                  col2 ← pd_to_numeric col1;
                  col3 ← series_sub col2 m;
                  astype_int col3
              | None => Ok col
              end
          end
      | None => Ok col
      end
  end.

Definition discretize (dataset : DataFrame) (schema : gmap string desc)
    (bins_range : dict bin_range) : result DataFrame :=
  bins ← create_bins bins_range;
  for_columns (discretize_column schema bins) (keys dataset) dataset.

End Encoder.

(** ** [undo_discretize] *)

(** Position addressed by the index [i] in an array of [n] elements; numpy
    counts a negative index from the end. *)
Definition np_index (n : nat) (i : Z) : result nat :=
  if bool_decide (- Z.of_nat n <= i < Z.of_nat n)
  then Ok (Z.to_nat (i `mod` Z.of_nat n))
  else Raise IndexError.

(** [arr[i]] *)
Definition np_getitem {A} (arr : list A) (i : Z) : result A :=
  k ← np_index (length arr) i;
  match arr !! k with
  | Some x => Ok x
  | None => Raise IndexError
  end.

(** [arr[i] = x] *)
Definition np_setitem {A} (arr : list A) (i : Z) (x : A) : result (list A) :=
  k ← np_index (length arr) i;
  mret (<[k:=x]> arr).

(** [arr[col.values]]: indexing by an array of integers. *)
Definition np_take {A} (arr : list A) (col : Series) : result (list A) :=
  mapM (fun c =>
          match c with
          | Num (Fin i) => np_getitem arr i
          | _ => Raise IndexError
          end) col.

(** [np.array(values)]: a list holding a string becomes an array of
    strings, every number replaced by its text. *)
Definition np_array (values : list cell) : list cell :=
  if existsb is_str values then cell_str <$> values else values.

(** [col += m], exact: the values, with int64 as with float64, of
    magnitude up to [2^53] *)
Definition series_iadd (col : Series) (m : Z) : result Series :=
  mapM (fun x =>
          match x with
          | Num v => Ok (Num (num_add v (Fin m)))
          | Str _ => Raise TypeError
          end) col.

(** [bins[col] = bin.copy(); bins[col][-1] = bin[-2] + 1] *)
Definition handle_inf_bin (bin : list num) : result (list num) :=
  b ← np_getitem bin (-2);
  np_setitem bin (-1) (num_add b (Fin 1)).

Fixpoint handle_inf_loop (items : dict (list num)) (bins : dict (list num))
  : result (dict (list num)) :=
  match items with
  | [] => Ok bins
  | (col, bin) :: items' =>
      bin' ← handle_inf_bin bin;
      handle_inf_loop items' (dict_set col bin' bins)
  end.

(** Body of the column loop of [undo_discretize]: the new content of
    [column].  The last [pass] branch hands the column back as it is. *)
Definition undo_discretize_column (schema : gmap string desc)
    (bins : dict (list num)) (column : string) (col : Series) : result Series :=
  match dict_get column bins with
  | Some bin => vals ← np_take bin col; Ok (Num <$> (vals : list num))
  | None =>
      match schema !! column with
      | Some d =>
          match desc_values d with
          | Some vs => np_take (np_array vs) col
          | None =>
              match desc_min d with
              | Some m => series_iadd col m
              | None => Raise ValueError
              end
          end
      | None => Ok col
      end
  end.

Definition undo_discretize (dataset : DataFrame) (schema : gmap string desc)
    (bins : dict (list num)) (handle_inf : bool) : result DataFrame :=
  bins' ← (if handle_inf then handle_inf_loop bins [] else Ok bins);
  for_columns (undo_discretize_column schema bins') (keys dataset) dataset.

(** ** [df_filter] *)

(** [col.isin(values)] *)
Definition isin (col : Series) (values : list cell) : list bool :=
  (fun x => bool_decide (x ∈ values)) <$> col.

(** Entries of [l] at the positions where the mask is true. *)
Fixpoint mask_select {A} (mask : list bool) (l : list A) : list A :=
  match mask, l with
  | b :: mask', x :: l' =>
      if b then x :: mask_select mask' l' else mask_select mask' l'
  | _, _ => []
  end.

(** [data[mask]]: the rows of [data] selected by a boolean mask. *)
Definition df_mask (data : DataFrame) (mask : list bool) : DataFrame :=
  (fun '(name, col) => (name, mask_select mask col)) <$> data.

Fixpoint df_filter_loop (filters : list (string * list cell)) (data : DataFrame)
  : result DataFrame :=
  match filters with
  | [] => Ok data
  | (feature, values) :: filters' =>
      col ← getitem (dict_get feature data);
      df_filter_loop filters' (df_mask data (isin col values))
  end.

Definition df_filter (data : DataFrame)
    (filters : option (list (string * list cell))) : result DataFrame :=
  match filters with
  | None | Some [] => Ok data
  | Some fs => df_filter_loop fs data
  end.

(** The column loop read as one pass over the columns; the two agree on a
    table with distinct labels ([for_columns_keys]). *)
Definition map_columns (body : string -> Series -> result Series)
    (dataset : DataFrame) : result DataFrame :=
  mapM (fun '(k, col) => col' ← body k col; mret (k, col')) dataset.

(** [del d[k]] *)
Definition dict_del {V} (k : string) (d : dict V) : dict V :=
  filter (fun p => p.1 ≠ k) d.

(** The table after [handle_inf]: the last cut point becomes the last
    interior point plus one, or stays infinite when there is none. *)
Definition handle_inf_np_r_ (mid : list Z) : list num :=
  NegInf :: (Fin <$> mid)
    ++ [match last mid with Some z => Fin (z + 1) | None => NegInf end].

(** Invariant of the bin tables: distinct field names, and every table of
    the form [-inf, interior, +inf]. *)
Definition bins_ok (bins : dict (list num)) : Prop :=
  NoDup (keys bins) /\ Forall (fun p => exists mid, p.2 = np_r_ mid) bins.

(** A [values] list of one kind, all numbers or all strings: the lists
    that [np.array] stores as they are. *)
Definition homogeneous (values : list cell) : bool :=
  negb (existsb is_str values) || forallb is_str values.

(** ** Inputs used by the examples below *)

Definition continuous_spec (fbm lbm bs : Z) : bin_range :=
  {| bin_type := None; first_bin_max := Some fbm; last_bin_min := Some lbm;
     bin_size := Some bs; first_bin_max_hour := None;
     last_bin_min_hour := None; bin_size_minutes := None |}.

Definition time_spec (fbm lbm bs : Z) : bin_range :=
  {| bin_type := Some "time"; first_bin_max := None; last_bin_min := None;
     bin_size := None; first_bin_max_hour := Some fbm;
     last_bin_min_hour := Some lbm; bin_size_minutes := Some bs |}.

Definition hour_bins : list num :=
  [NegInf; Fin 0; Fin 30; Fin 100; Fin 130; PosInf].

Definition categorical (values : list cell) : desc :=
  {| desc_values := Some values; desc_min := None; desc_has_null := None;
     desc_null_value := None |}.

Definition ordinal_null (m : Z) (null_value : cell) : desc :=
  {| desc_values := None; desc_min := Some m; desc_has_null := Some true;
     desc_null_value := Some null_value |}.

Definition passthrough : desc :=
  {| desc_values := None; desc_min := None; desc_has_null := None;
     desc_null_value := None |}.

(** Integer literals, the part of pandas' numeric parser the examples use. *)
Fixpoint parse_digits (s : string) (acc : Z) : option Z :=
  match s with
  | EmptyString => Some acc
  | String a s' =>
      let d := Z.of_nat (Ascii.nat_of_ascii a) - 48 in
      if bool_decide (0 <= d <= 9) then parse_digits s' (10 * acc + d) else None
  end.

Definition parse_decimal (s : string) : option num :=
  match s with
  | EmptyString => None
  | String "-"%char (String _ _ as s') => (fun z => Fin (- z)) <$> parse_digits s' 0
  | _ => Fin <$> parse_digits s 0
  end.

(** ** Bin tables as float64 arrays *)

(** The double nearest to the int64 [z], ties going to the even
    significand of 53 bits: [np.r_] joins the integer points of
    [np.arange] and of [range] with the two infinities into one float64
    array.  An integer of magnitude up to [2^53] is stored as it is
    ([float64_of_Z_exact]); above, neighbouring integers share a double. *)
Definition float64_of_Z (z : Z) : Z :=
  let a := Z.abs z in
  let e := Z.log2 a - 52 in
  if e <=? 0 then z
  else
    let q := a `div` 2 ^ e in
    let r := a `mod` 2 ^ e in
    let up := (2 ^ (e - 1) <? r) || ((r =? 2 ^ (e - 1)) && Z.odd q) in
    Z.sgn z * ((if up then q + 1 else q) * 2 ^ e).

Definition to_float64 (b : list num) : list num :=
  (fun x => match x with Fin z => Fin (float64_of_Z z) | _ => x end) <$> b.

(** [create_bins] with every table as numpy stores it.  [create_bins]
    above keeps the points as the integers they are computed from; the two
    agree on every table whose points are within [2^53] in magnitude. *)
Definition create_bins_float64 (bins_range : dict bin_range)
  : result (dict (list num)) :=
  match create_bins bins_range with
  | Ok bins => Ok ((fun p : string * list num => (p.1, to_float64 p.2)) <$> bins)
  | Raise e => Raise e
  end.

(** ** Tables with rows *)

(** A table is rectangular: every column has [n] rows. *)
Definition df_rows (n : nat) (data : DataFrame) : Prop :=
  Forall (fun p => length p.2 = n) data.

(** The rows [df_filter] keeps, as a mask over the rows of the table it was
    given: the mask [m] of the rows kept so far, narrowed by each
    constraint read on the original columns. *)
Fixpoint filters_mask (filters : list (string * list cell)) (data : DataFrame)
    (m : list bool) : result (list bool) :=
  match filters with
  | [] => Ok m
  | (feature, values) :: filters' =>
      col ← getitem (dict_get feature data);
      filters_mask filters' data (zip_with andb m (isin col values))
  end.

(** ** [to_num] *)

(** The first loop of [to_num]: [d = d[~d[f].isin(['N'])]] for each
    column label [f]. *)
Fixpoint to_num_drop (columns : list string) (d : DataFrame) : result DataFrame :=
  match columns with
  | [] => Ok d
  | f :: columns' =>
      col ← getitem (dict_get f d);
      to_num_drop columns' (df_mask d (negb <$> isin col [Str "N"]))
  end.

(** [to_num]: the rows holding ['N'] are dropped, then each column goes
    through [pd.to_numeric].  A table here has cells and no column dtype: a
    column that pandas holds with a string dtype refuses the converted
    values at [d.loc[:, f] = ...] with a TypeError, which this definition
    does not have.  What is proved of a returned table holds whenever
    [to_num] returns one; a return is asserted for tables of numbers
    only. *)
Definition to_num (parse_numeric : string -> option num) (data : DataFrame)
  : result DataFrame :=
  d ← to_num_drop (keys data) data;
  for_columns (fun _ col => pd_to_numeric parse_numeric col) (keys d) d.

(** A cell that is a number. *)
Definition is_num (x : cell) : Prop := exists v, x = Num v.

(** * Properties *)

(** Closes a decidable goal on concrete data by evaluation. *)
Ltac by_compute := apply (bool_decide_unpack _); vm_compute; exact I.

(** ** The result monad *)

Lemma mapM_fmap_Ok {A B C} (f : B -> result C) (g : A -> B) (h : A -> C)
    (l : list A) :
  Forall (fun x => f (g x) = Ok (h x)) l -> mapM f (g <$> l) = Ok (h <$> l).
Proof.
  induction 1 as [|x l Hx _ IH]; [done|].
  cbn. rewrite Hx. cbn. by rewrite IH.
Qed.

(** ** Ordered dictionaries *)

Section Dict.
Context {V : Type}.
Implicit Types (d pre : dict V) (k : string) (v : V).

Lemma dict_get_None k d : dict_get k d = None <-> k ∉ keys d.
Proof.
  unfold keys. induction d as [|[k' v'] d IH]; cbn.
  - split; [intros _; apply not_elem_of_nil|done].
  - rewrite not_elem_of_cons. case_decide; [|by rewrite IH; tauto].
    split; [done|]. by intros [? _].
Qed.

Lemma dict_get_Some_keys k d v : dict_get k d = Some v -> k ∈ keys d.
Proof.
  intros H. destruct (decide (k ∈ keys d)) as [|Hn]; [done|].
  apply dict_get_None in Hn. congruence.
Qed.

Lemma dict_get_set k (k' : string) v d :
  dict_get k' (dict_set k v d)
  = if decide (k' = k) then Some v else dict_get k' d.
Proof.
  induction d as [|[k0 v0] d IH]; cbn.
  - by repeat case_decide.
  - repeat (case_decide; cbn; subst); try done; by rewrite IH; case_decide.
Qed.

Lemma dict_get_app_l k pre d :
  k ∉ keys pre -> dict_get k (pre ++ d) = dict_get k d.
Proof.
  unfold keys. induction pre as [|[k' v'] pre IH]; cbn; [done|].
  rewrite not_elem_of_cons. intros [? ?]. case_decide; [done|]. by apply IH.
Qed.

Lemma dict_set_app_l k v pre d :
  k ∉ keys pre -> dict_set k v (pre ++ d) = pre ++ dict_set k v d.
Proof.
  unfold keys. induction pre as [|[k' v'] pre IH]; cbn; [done|].
  rewrite not_elem_of_cons. intros [? ?]. case_decide; [done|].
  by rewrite IH.
Qed.

Lemma keys_dict_del k d : keys (dict_del k d) = filter (fun k' => k' ≠ k) (keys d).
Proof.
  unfold keys, dict_del. induction d as [|[k' v'] d IH]; [done|].
  rewrite fmap_cons, !filter_cons. cbn [fst].
  case_decide; [rewrite fmap_cons|]; by rewrite IH.
Qed.

Lemma dict_del_notin k d : k ∉ keys d -> dict_del k d = d.
Proof.
  unfold keys, dict_del. induction d as [|[k' v'] d IH]; [done|].
  rewrite fmap_cons, not_elem_of_cons. cbn [fst]. intros [? ?].
  rewrite filter_cons. cbn [fst]. case_decide; [|congruence]. by rewrite IH.
Qed.

Lemma dict_set_keys_NoDup k v d :
  NoDup (keys d) -> NoDup (keys (dict_set k v d)).
Proof.
  unfold keys. induction d as [|[k' v'] d IH]; cbn; intros Hnd.
  - apply NoDup_singleton.
  - apply NoDup_cons in Hnd as [Hk Hnd]. case_decide; subst; cbn.
    + by apply NoDup_cons_2.
    + apply NoDup_cons_2; [|by apply IH].
      apply (dict_get_None k' (dict_set k v d)). rewrite dict_get_set.
      rewrite decide_False by done. by apply dict_get_None.
Qed.

Lemma dict_set_Forall (P : string * V -> Prop) k v d :
  P (k, v) -> Forall P d -> Forall P (dict_set k v d).
Proof.
  intros Hv. induction 1 as [|[k' v'] d Hx Hd IH]; cbn.
  - by apply Forall_singleton.
  - case_decide; by apply Forall_cons_2.
Qed.

End Dict.

(** ** The column loop on a table with distinct labels *)

Lemma for_columns_app body (pre suf : DataFrame) :
  NoDup (keys (pre ++ suf)) ->
  for_columns body (keys suf) (pre ++ suf)
  = (suf' ← map_columns body suf; mret (pre ++ suf')).
Proof.
  revert pre. induction suf as [|[k c] suf IH]; intros pre Hnd.
  - done.
  - assert (Hk : k ∉ keys pre).
    { unfold keys in *. rewrite fmap_app in Hnd.
      apply NoDup_app in Hnd as (_ & Hd & _). intros Hin.
      apply (Hd _ Hin). cbn. left. }
    cbn. rewrite dict_get_app_l by done. cbn.
    case_decide; [|done]. cbn.
    destruct (body k c) as [c'|e]; cbn; [|done].
    rewrite dict_set_app_l by done. cbn. case_decide; [|done].
    replace (pre ++ (k, c') :: suf) with ((pre ++ [(k, c')]) ++ suf)
      by (by rewrite <- app_assoc).
    rewrite IH.
    + unfold map_columns. destruct (mapM _ suf); cbn; [|done].
      by rewrite <- app_assoc.
    + unfold keys in *. rewrite !fmap_app in *. cbn in *.
      by rewrite <- app_assoc.
Qed.

Lemma for_columns_keys body (dataset : DataFrame) :
  NoDup (keys dataset) ->
  for_columns body (keys dataset) dataset = map_columns body dataset.
Proof.
  intros Hnd. pose proof (for_columns_app body [] dataset Hnd) as H.
  cbn [app] in H. rewrite H. by destruct (map_columns body dataset).
Qed.

(** ** [create_bins] *)

Lemma range_len_nonneg start stop step : 0 <= range_len start stop step.
Proof. unfold range_len. lia. Qed.

(** With a positive step the range holds exactly the terms below [stop]. *)
Lemma range_len_lt start stop step k :
  0 < step -> 0 <= k ->
  k < range_len start stop step <-> start + k * step < stop.
Proof.
  intros Hs Hk. unfold range_len.
  pose proof (Z.div_mod (- (stop - start)) step ltac:(lia)) as Hdm.
  pose proof (Z.mod_pos_bound (- (stop - start)) step Hs) as Hb.
  set (q := (- (stop - start)) `div` step) in *.
  set (r := (- (stop - start)) `mod` step) in *.
  split; intros H.
  - assert (q + 1 <= - k) by lia. nia.
  - assert (q < - k) by nia. lia.
Qed.

Lemma range_len_empty start stop step :
  0 < step -> stop <= start -> range_len start stop step = 0.
Proof.
  intros Hs Hle. pose proof (range_len_nonneg start stop step) as H0.
  destruct (decide (range_len start stop step = 0)) as [|Hne]; [done|].
  assert (H : 0 < range_len start stop step) by lia.
  apply (range_len_lt start stop step 0 Hs) in H; lia.
Qed.

Lemma strictly_increasing_tail (start step m n : Z) :
  0 < step ->
  is_strictly_increasing
    ((Fin <$> ((fun i => start + i * step) <$> seqZ m n)) ++ [PosInf]) = true.
Proof.
  intros Hs. remember (Z.to_nat n) as k eqn:Hk.
  revert m n Hk. induction k as [|k IH]; intros m n Hk.
  - by rewrite seqZ_nil by lia.
  - rewrite seqZ_cons by lia. rewrite !fmap_cons.
    specialize (IH (Z.succ m) (Z.pred n) ltac:(lia)).
    destruct (decide (Z.pred n <= 0)) as [Hle|Hgt].
    + by rewrite seqZ_nil by lia.
    + rewrite seqZ_cons in IH |- * by lia. rewrite !fmap_cons in IH |- *.
      cbn [app is_strictly_increasing num_lt] in IH |- *.
      rewrite IH, andb_true_r. apply Z.ltb_lt. nia.
Qed.

Lemma strictly_increasing_np_r_ (start step n : Z) :
  0 < step ->
  is_strictly_increasing (np_r_ ((fun i => start + i * step) <$> seqZ 0 n)) = true.
Proof.
  intros Hs. unfold np_r_.
  pose proof (strictly_increasing_tail start step 0 n Hs) as H.
  destruct (decide (n <= 0)) as [Hle|Hgt].
  - by rewrite seqZ_nil by lia.
  - rewrite seqZ_cons in H |- * by lia. rewrite !fmap_cons in H |- *.
    cbn [app is_strictly_increasing num_lt] in H |- *. by rewrite H.
Qed.

(** A field's table in the result of [create_bins] is the one its own
    specification yields. *)
Lemma create_bins_loop_frame (f : string) (items : dict bin_range)
    (acc bins : dict (list num)) :
  dict_get f items = None ->
  create_bins_loop items acc = Ok bins ->
  dict_get f bins = dict_get f acc.
Proof.
  revert acc. induction items as [|[k br] items IH]; intros acc Hf; cbn.
  - by intros [= <-].
  - cbn in Hf. case_decide as Hk; [done|].
    destruct (create_bins_entry br) as [[b|]|]; cbn; [| |done]; intros Hl;
      rewrite (IH _ Hf Hl); [|done].
    rewrite dict_get_set. by case_decide.
Qed.

Lemma create_bins_get (f : string) (br : bin_range) (b : list num)
    (bins_range : dict bin_range) (bins : dict (list num)) :
  NoDup (keys bins_range) ->
  dict_get f bins_range = Some br ->
  create_bins_entry br = Ok (Some b) ->
  create_bins bins_range = Ok bins ->
  dict_get f bins = Some b.
Proof.
  unfold create_bins. generalize (@nil (string * list num)) as acc.
  induction bins_range as [|[k br'] items IH]; intros acc Hnd Hf He; [done|].
  unfold keys in Hnd. cbn in Hnd, Hf |- *. apply NoDup_cons in Hnd as [Hk Hnd].
  case_decide as Hfk.
  - injection Hf as ->. subst k. rewrite He. cbn. intros Hl.
    rewrite (create_bins_loop_frame _ _ _ _ (proj2 (dict_get_None _ _) Hk) Hl).
    rewrite dict_get_set. by case_decide.
  - destruct (create_bins_entry br') as [e|]; cbn; [|done]. by apply IH.
Qed.

(** *** The table as a float64 array *)

Lemma float64_of_Z_exact (z : Z) :
  - 2 ^ 53 <= z <= 2 ^ 53 -> float64_of_Z z = z.
Proof.
  intros Hz. unfold float64_of_Z.
  destruct (decide (Z.abs z = 2 ^ 53)) as [Hm|Hm].
  - assert (z = 2 ^ 53 \/ z = - 2 ^ 53) as [->| ->] by lia; by vm_compute.
  - destruct (decide (Z.abs z = 0)) as [H0|H0].
    + by rewrite H0.
    + assert (Z.log2 (Z.abs z) < 53) as Hl by (apply Z.log2_lt_pow2; lia).
      by rewrite (proj2 (Z.leb_le _ _)) by lia.
Qed.

Lemma to_float64_np_r_ (mid : list Z) :
  Forall (fun z => - 2 ^ 53 <= z <= 2 ^ 53) mid ->
  to_float64 (np_r_ mid) = np_r_ mid.
Proof.
  intros H. unfold to_float64, np_r_. cbn. f_equal. rewrite fmap_app. cbn.
  f_equal. rewrite <- list_fmap_compose. apply list_fmap_ext.
  intros i z Hi. cbn. rewrite float64_of_Z_exact; [done|].
  rewrite Forall_forall in H. by eapply H, list_elem_of_lookup_2.
Qed.

Lemma create_bins_float64_get (f : string) (bins_range : dict bin_range)
    (bins : dict (list num)) :
  create_bins_float64 bins_range = Ok bins ->
  exists bins0, create_bins bins_range = Ok bins0
                /\ dict_get f bins = to_float64 <$> dict_get f bins0.
Proof.
  unfold create_bins_float64.
  destruct (create_bins bins_range) as [bins0|]; cbn; [|done].
  intros [= <-]. exists bins0. split; [done|].
  induction bins0 as [|[k b] bins0 IH]; cbn; [done|]. by case_decide.
Qed.

(** The points of a range that stays within [2^53] are within [2^53]. *)
Lemma arith_seq_bounded (fbm lbm bs : Z) :
  0 < bs -> - 2 ^ 53 <= fbm -> lbm <= 2 ^ 53 ->
  Forall (fun z => - 2 ^ 53 <= z <= 2 ^ 53) (arith_seq fbm lbm bs).
Proof.
  intros Hs Hf Hl. unfold arith_seq. apply Forall_forall.
  intros z (i & -> & Hi)%list_elem_of_fmap. apply elem_of_seqZ in Hi.
  assert (fbm + i * bs < lbm) by (apply range_len_lt; lia). nia.
Qed.

(** C7 (amended): for a continuous bin specification of integers of
    magnitude at most [2^53] with a positive [bin_size], [create_bins]
    returns (raising nothing) the float64 table
    [-inf, fbm, fbm + bs, ..., +inf]: its interior is the arithmetic
    sequence from [first_bin_max] with step [bin_size] holding exactly the
    terms strictly below [last_bin_min], the whole table increases
    strictly, and for [first_bin_max >= last_bin_min] it is [-inf, +inf].
    Among the specifications of other fields, the field gets the same
    table whenever [create_bins] returns. *)
Theorem create_bins_continuous (f : string) (br : bin_range) (fbm lbm bs : Z) :
  bin_type br = None ->
  first_bin_max br = Some fbm ->
  last_bin_min br = Some lbm ->
  bin_size br = Some bs ->
  0 < bs <= 2 ^ 53 ->
  - 2 ^ 53 <= fbm <= 2 ^ 53 ->
  - 2 ^ 53 <= lbm <= 2 ^ 53 ->
  exists n : Z,
    0 <= n /\
    (forall k, 0 <= k -> k < n <-> fbm + k * bs < lbm) /\
    create_bins_float64 [(f, br)]
    = Ok [(f, [NegInf] ++ (Fin <$> ((fun i => fbm + i * bs) <$> seqZ 0 n))
                       ++ [PosInf])] /\
    is_strictly_increasing
      ([NegInf] ++ (Fin <$> ((fun i => fbm + i * bs) <$> seqZ 0 n)) ++ [PosInf])
    = true /\
    (lbm <= fbm -> create_bins_float64 [(f, br)] = Ok [(f, [NegInf; PosInf])]) /\
    (forall bins_range bins,
       NoDup (keys bins_range) -> dict_get f bins_range = Some br ->
       create_bins_float64 bins_range = Ok bins ->
       dict_get f bins
       = Some ([NegInf] ++ (Fin <$> ((fun i => fbm + i * bs) <$> seqZ 0 n))
                        ++ [PosInf])).
Proof.
  intros Ht Hf Hl Hb Hs Hfb Hlb.
  assert (He : create_bins_entry br = Ok (Some (np_r_ (arith_seq fbm lbm bs)))).
  { unfold create_bins_entry, np_arange. rewrite Ht, Hf, Hl, Hb. cbn.
    case_decide; [lia|done]. }
  pose proof (to_float64_np_r_ _ (arith_seq_bounded fbm lbm bs
                ltac:(lia) ltac:(lia) ltac:(lia))) as Hfl.
  assert (Hcb : create_bins_float64 [(f, br)]
                = Ok [(f, np_r_ (arith_seq fbm lbm bs))]).
  { unfold create_bins_float64, create_bins, create_bins_loop. rewrite He.
    cbn [mbind result_bind dict_set fmap list_fmap fst snd]. by rewrite Hfl. }
  exists (range_len fbm lbm bs). split; [apply range_len_nonneg|].
  split; [intros k Hk; apply range_len_lt; lia|].
  split; [exact Hcb|]. split; [|split].
  - apply strictly_increasing_np_r_. lia.
  - intros Hle. rewrite Hcb. unfold arith_seq.
    rewrite range_len_empty by lia. by rewrite seqZ_nil.
  - intros bins_range bins Hnd Hg Hbins.
    destruct (create_bins_float64_get f _ _ Hbins) as (bins0 & Hbins0 & ->).
    rewrite (create_bins_get f br _ bins_range bins0 Hnd Hg He Hbins0).
    cbn [fmap option_fmap option_map]. by rewrite Hfl.
Qed.

Lemma create_bins_continuous_witness :
  exists n : Z,
    0 <= n /\
    (forall k, 0 <= k -> k < n <-> 0 + k * 10 < 25) /\
    create_bins_float64 [("fare", continuous_spec 0 25 10)]
    = Ok [("fare", [NegInf] ++ (Fin <$> ((fun i => 0 + i * 10) <$> seqZ 0 n))
                       ++ [PosInf])] /\
    is_strictly_increasing
      ([NegInf] ++ (Fin <$> ((fun i => 0 + i * 10) <$> seqZ 0 n)) ++ [PosInf])
    = true /\
    (25 <= 0 -> create_bins_float64 [("fare", continuous_spec 0 25 10)]
                = Ok [("fare", [NegInf; PosInf])]) /\
    (forall bins_range bins,
       NoDup (keys bins_range) ->
       dict_get "fare" bins_range = Some (continuous_spec 0 25 10) ->
       create_bins_float64 bins_range = Ok bins ->
       dict_get "fare" bins
       = Some ([NegInf] ++ (Fin <$> ((fun i => 0 + i * 10) <$> seqZ 0 n))
                        ++ [PosInf])).
Proof.
  apply (create_bins_continuous "fare" (continuous_spec 0 25 10) 0 25 10);
    [reflexivity | reflexivity | reflexivity | reflexivity | lia | lia | lia].
Defined.

(** C7, as stated, fails above [2^53]: the two points [2^53] and
    [2^53 + 1] of the arithmetic sequence, both below [last_bin_min], are
    stored as the same double, so the table repeats a cut point and does
    not increase strictly. *)
Lemma create_bins_continuous_float64_collision :
  create_bins_float64
    [("fare", continuous_spec 9007199254740992 9007199254740994 1)]
  = Ok [("fare", [NegInf; Fin 9007199254740992; Fin 9007199254740992; PosInf])] /\
  9007199254740992 + 1 < 9007199254740994 /\
  (Fin (9007199254740992 + 1)
     ∉ [NegInf; Fin 9007199254740992; Fin 9007199254740992; PosInf]) /\
  is_strictly_increasing
    [NegInf; Fin 9007199254740992; Fin 9007199254740992; PosInf] = false.
Proof.
  split; [vm_compute; reflexivity|]. split; [lia|].
  split; [|vm_compute; reflexivity].
  intros H. repeat (apply elem_of_cons in H as [[=]|H]). by apply elem_of_nil in H.
Qed.

(** ** Array indexing *)

Lemma np_index_nonneg (n : nat) (i : nat) :
  (i < n)%nat -> np_index n (Z.of_nat i) = Ok i.
Proof.
  intros Hi. unfold np_index. rewrite bool_decide_true by lia.
  rewrite Z.mod_small by lia. by rewrite Nat2Z.id.
Qed.

(** A negative index counts from the end. *)
Lemma np_index_neg (n k : nat) :
  (0 < k <= n)%nat -> np_index n (- Z.of_nat k) = Ok (n - k)%nat.
Proof.
  intros Hk. unfold np_index. rewrite bool_decide_true by lia.
  f_equal. replace (- Z.of_nat k) with (Z.of_nat (n - k) + (-1) * Z.of_nat n) by lia.
  rewrite Z.mod_add by lia. rewrite Z.mod_small by lia. by rewrite Nat2Z.id.
Qed.

Lemma np_getitem_last {A} (arr : list A) (x : A) :
  np_getitem (arr ++ [x]) (-1) = Ok x.
Proof.
  unfold np_getitem. rewrite (np_index_neg _ 1) by (rewrite length_app; cbn; lia).
  cbn. rewrite length_app, Nat.add_sub. cbn.
  by rewrite list_lookup_middle.
Qed.

Lemma np_getitem_0 {A} (x : A) (arr : list A) : np_getitem (x :: arr) 0 = Ok x.
Proof.
  unfold np_getitem.
  change 0 with (Z.of_nat 0).
  by rewrite (np_index_nonneg (length (x :: arr)) 0) by (cbn; lia).
Qed.

Lemma np_getitem_empty {A} (i : Z) : np_getitem (@nil A) i = Raise IndexError.
Proof.
  unfold np_getitem, np_index. cbn. by rewrite bool_decide_false by lia.
Qed.

(** [handle_inf] overwrites the last cut point and nothing else. *)
Lemma handle_inf_bin_snoc (pre : list num) (b l : num) :
  handle_inf_bin (pre ++ [b; l]) = Ok (pre ++ [b; num_add b (Fin 1)]).
Proof.
  unfold handle_inf_bin, np_getitem, np_setitem.
  rewrite (np_index_neg _ 2), (np_index_neg _ 1)
    by (rewrite length_app; cbn; lia).
  rewrite length_app. cbn [length mbind result_bind].
  replace (length pre + 2 - 2)%nat with (length pre) by lia.
  rewrite list_lookup_middle by done. cbn.
  replace (length pre + 2 - 1)%nat with (length (pre ++ [b]) + 0)%nat
    by (rewrite length_app; cbn; lia).
  replace (pre ++ [b; l]) with ((pre ++ [b]) ++ [l]) by (by rewrite <- app_assoc).
  rewrite insert_app_r. cbn. by rewrite <- app_assoc.
Qed.

Lemma two_last {A} (l : list A) :
  (2 <= length l)%nat -> exists pre b x, l = pre ++ [b; x].
Proof.
  intros Hl. destruct l as [|x l _] using rev_ind; [cbn in Hl; lia|].
  destruct l as [|b l _] using rev_ind; [cbn in Hl; lia|].
  exists l, b, x. by rewrite <- app_assoc.
Qed.

Lemma np_r_length (mid : list Z) : (2 <= length (np_r_ mid))%nat.
Proof. unfold np_r_. cbn. rewrite length_app. cbn. lia. Qed.

Lemma handle_inf_bin_np_r_ (mid : list Z) :
  handle_inf_bin (np_r_ mid) = Ok (handle_inf_np_r_ mid).
Proof.
  unfold np_r_, handle_inf_np_r_.
  destruct mid as [|z mid _] using rev_ind.
  - apply (handle_inf_bin_snoc [] NegInf PosInf).
  - rewrite last_snoc, fmap_app. cbn [fmap list_fmap].
    pose proof (handle_inf_bin_snoc (NegInf :: (Fin <$> mid)) (Fin z) PosInf) as H.
    cbn [app] in H. rewrite <- !app_assoc. cbn [app]. exact H.
Qed.

(** ** The [handle_inf] pass over the bin tables *)

(** A column without a table before the pass has none after it. *)
Lemma handle_inf_loop_frame (c : string) (items acc bins' : dict (list num)) :
  dict_get c items = None ->
  handle_inf_loop items acc = Ok bins' ->
  dict_get c bins' = dict_get c acc.
Proof.
  revert acc. induction items as [|[k b] items IH]; intros acc Hc; cbn.
  - by intros [= <-].
  - cbn in Hc. case_decide; [done|].
    destruct (handle_inf_bin b) as [b'|]; cbn; [|done].
    intros Hl. rewrite (IH _ Hc Hl), dict_get_set. by case_decide.
Qed.

Lemma handle_inf_loop_get (c : string) (items acc bins' : dict (list num))
    (bin : list num) :
  NoDup (keys items) ->
  dict_get c items = Some bin ->
  handle_inf_loop items acc = Ok bins' ->
  exists bin', handle_inf_bin bin = Ok bin' /\ dict_get c bins' = Some bin'.
Proof.
  revert acc. induction items as [|[k b] items IH]; intros acc Hnd Hc; [done|].
  unfold keys in Hnd. cbn in Hnd, Hc |- *. apply NoDup_cons in Hnd as [Hk Hnd].
  destruct (handle_inf_bin b) as [b'|] eqn:Hb; cbn; [|done]. intros Hl.
  case_decide as Hck.
  - injection Hc as ->. subst k. exists b'. split; [done|].
    rewrite (handle_inf_loop_frame _ _ _ _ (proj2 (dict_get_None _ _) Hk) Hl).
    rewrite dict_get_set. by case_decide.
  - by apply (IH _ Hnd Hc Hl).
Qed.

Lemma handle_inf_loop_total (items acc : dict (list num)) :
  Forall (fun p => 2 <= length p.2)%nat items ->
  exists bins', handle_inf_loop items acc = Ok bins'.
Proof.
  intros H. revert acc. induction H as [|[k b] items Hb _ IH]; intros acc.
  - by eexists.
  - cbn in Hb |- *. destruct (two_last b Hb) as (pre & y & x & ->).
    rewrite handle_inf_bin_snoc. cbn. apply IH.
Qed.

(** The tables the decoder indexes: those of the caller, after the
    [handle_inf] pass when it is requested. *)
Lemma undo_discretize_unfold dataset schema bins handle_inf :
  undo_discretize dataset schema bins handle_inf
  = (bins' ← (if handle_inf then handle_inf_loop bins [] else Ok bins);
     for_columns (undo_discretize_column schema bins') (keys dataset) dataset).
Proof. done. Qed.

Lemma decoder_bins_None (c : string) (bins bins' : dict (list num)) (hi : bool) :
  dict_get c bins = None ->
  (if hi then handle_inf_loop bins [] else Ok bins) = Ok bins' ->
  dict_get c bins' = None.
Proof.
  intros Hc. destruct hi.
  - intros H. by rewrite (handle_inf_loop_frame _ _ _ _ Hc H).
  - by intros [= <-].
Qed.

(** ** Columns the decoder does not know *)

Lemma map_columns_frame body (ds : DataFrame) (c : string) (col : Series) :
  NoDup (keys ds) ->
  dict_get c ds = Some col ->
  body c col = Ok col ->
  match map_columns body ds with
  | Ok ds' => dict_get c ds' = Some col
  | Raise e => map_columns body (dict_del c ds) = Raise e
  end.
Proof.
  intros Hnd Hc Hb. induction ds as [|[k x] ds IH]; [done|].
  unfold keys in Hnd. cbn in Hnd, Hc. apply NoDup_cons in Hnd as [Hk Hnd].
  unfold map_columns, dict_del in *. rewrite filter_cons. cbn [fst mapM].
  case_decide as Hkc.
  - injection Hc as ->. subst k. rewrite Hb. cbn.
    rewrite decide_False by (by intros H; apply H).
    fold (dict_del c ds). rewrite dict_del_notin by done.
    destruct (mapM _ ds); cbn; [|done]. by case_decide.
  - rewrite decide_True by done. cbn [mapM].
    destruct (body k x) as [x'|e]; cbn; [|done].
    specialize (IH Hnd Hc).
    destruct (mapM _ ds) as [ds'|e]; cbn.
    + by case_decide.
    + by rewrite IH.
Qed.

Lemma NoDup_keys_dict_del {V} (k : string) (d : dict V) :
  NoDup (keys d) -> NoDup (keys (dict_del k d)).
Proof. intros H. rewrite keys_dict_del. by apply NoDup_filter. Qed.

(** C1 (amended): a column that neither the bin tables nor the schema know
    is returned as it came, and no failure of [undo_discretize] is due to
    it: when the call fails, it fails the same way on the table without
    that column. *)
Theorem undo_discretize_unknown_column (ds : DataFrame)
    (schema : gmap string desc) (bins : dict (list num)) (handle_inf : bool)
    (c : string) (col : Series) :
  NoDup (keys ds) ->
  dict_get c ds = Some col ->
  dict_get c bins = None ->
  schema !! c = None ->
  match undo_discretize ds schema bins handle_inf with
  | Ok ds' => dict_get c ds' = Some col
  | Raise e => undo_discretize (dict_del c ds) schema bins handle_inf = Raise e
  end.
Proof.
  intros Hnd Hc Hb Hs. rewrite !undo_discretize_unfold.
  destruct (if handle_inf then _ else _) as [bins'|e] eqn:Hbins; cbn; [|done].
  rewrite !for_columns_keys by auto using NoDup_keys_dict_del.
  apply map_columns_frame; [done..|].
  unfold undo_discretize_column.
  by rewrite (decoder_bins_None _ _ _ _ Hb Hbins), Hs.
Qed.

(** ** Columns whose descriptor has neither [values] nor [min] *)

Lemma for_columns_raise body (columns : list string) (ds : DataFrame) (c : string) :
  c ∈ columns ->
  (forall col, exists e, body c col = Raise e) ->
  exists e, for_columns body columns ds = Raise e.
Proof.
  intros Hc Hb. revert ds. induction columns as [|k columns IH]; intros ds.
  - by apply elem_of_nil in Hc.
  - cbn. destruct (dict_get k ds) as [col|]; cbn; [|by eexists].
    destruct (body k col) as [col'|e] eqn:Hk; cbn; [|by eexists].
    apply elem_of_cons in Hc as [->|Hc].
    + destruct (Hb col) as [e He]. congruence.
    + by apply IH.
Qed.

(** C4 (amended): for a column without a bin table whose schema descriptor
    has neither [values] nor [min], the decoding step raises ValueError, and
    [undo_discretize] never returns a table that has such a column. *)
Theorem undo_discretize_passthrough_raises (schema : gmap string desc)
    (bins : dict (list num)) (c : string) (d : desc) :
  schema !! c = Some d ->
  desc_values d = None ->
  desc_min d = None ->
  dict_get c bins = None ->
  (forall col, undo_discretize_column schema bins c col = Raise ValueError) /\
  (forall col, undo_discretize [(c, col)] schema bins false = Raise ValueError) /\
  (forall ds handle_inf, c ∈ keys ds ->
     exists e, undo_discretize ds schema bins handle_inf = Raise e).
Proof.
  intros Hs Hv Hm Hb.
  assert (Hcol : forall bins', dict_get c bins' = None ->
            forall col, undo_discretize_column schema bins' c col = Raise ValueError).
  { intros bins' Hb' col. unfold undo_discretize_column.
    by rewrite Hb', Hs, Hv, Hm. }
  split; [by apply Hcol|]. split.
  - intros col. rewrite undo_discretize_unfold. cbn.
    rewrite decide_True by done. cbn. by rewrite Hcol.
  - intros ds hi Hin. rewrite undo_discretize_unfold.
    destruct (if hi then _ else _) as [bins'|e] eqn:Hbins; cbn; [|by eexists].
    apply (for_columns_raise _ _ _ c Hin). intros col. exists ValueError.
    apply Hcol. by apply (decoder_bins_None _ _ _ _ Hb Hbins).
Qed.

Lemma undo_discretize_unknown_column_witness :
  match undo_discretize [("id", [Str "a7"]); ("AGE", [Num (Fin 3)])]
          {["AGE" := ordinal_null 0 (Str "N")]} [] true with
  | Ok ds' => dict_get "id" ds' = Some [Str "a7"]
  | Raise e =>
      undo_discretize (dict_del "id" [("id", [Str "a7"]); ("AGE", [Num (Fin 3)])])
        {["AGE" := ordinal_null 0 (Str "N")]} [] true = Raise e
  end.
Proof.
  apply (undo_discretize_unknown_column
           [("id", [Str "a7"]); ("AGE", [Num (Fin 3)])]
           {["AGE" := ordinal_null 0 (Str "N")]} [] true "id" [Str "a7"]).
  - by_compute.
  - reflexivity.
  - reflexivity.
  - vm_compute. reflexivity.
Defined.

(** C1, as stated, fails: the column [id] is absent from the bin tables and
    from the schema, and decoding returns the table instead of raising. *)
Lemma undo_discretize_unknown_column_returns :
  dict_get "id" ([] : dict (list num)) = None /\
  (∅ : gmap string desc) !! "id" = None /\
  undo_discretize [("id", [Num (Fin 7)])] ∅ [] true
  = Ok [("id", [Num (Fin 7)])].
Proof. split; [|split]; vm_compute; reflexivity. Qed.

Lemma undo_discretize_passthrough_raises_witness :
  (forall col, undo_discretize_column {["id" := passthrough]} [] "id" col
               = Raise ValueError) /\
  (forall col, undo_discretize [("id", col)] {["id" := passthrough]} [] false
               = Raise ValueError) /\
  (forall ds handle_inf, "id" ∈ keys ds ->
     exists e, undo_discretize ds {["id" := passthrough]} [] handle_inf = Raise e).
Proof.
  apply (undo_discretize_passthrough_raises
           {["id" := passthrough]} [] "id" passthrough).
  - vm_compute. reflexivity.
  - reflexivity.
  - reflexivity.
  - reflexivity.
Defined.

(** C4, as stated, fails: [id] is in the schema with neither [values] nor
    [min], and decoding raises instead of returning the column unchanged. *)
Lemma undo_discretize_passthrough_not_unchanged :
  ({["id" := passthrough]} : gmap string desc) !! "id" = Some passthrough /\
  desc_values passthrough = None /\ desc_min passthrough = None /\
  undo_discretize [("id", [Num (Fin 7)])] {["id" := passthrough]} [] true
  = Raise ValueError.
Proof. repeat split; vm_compute; reflexivity. Qed.

(** ** The time-of-day example *)

(** C5 (amended): the specification yields the table
    [-inf, 0, 30, 100, 130, +inf]; the intervals are numbered from the one
    that starts at [-inf], so the raw value 45, which lies in [[30, 100)],
    is encoded as 2, and the interval [[0, 30)], whose lower edge is 0, has
    number 1: code 1 is decoded as 0 and code 2 as 30, with or without
    [handle_inf]. *)
Theorem hour_example (parse_numeric : string -> option num) (handle_inf : bool) :
  create_bins [("hour", time_spec 0 2 30)] = Ok [("hour", hour_bins)] /\
  discretize parse_numeric [("hour", [Num (Fin 45)])] ∅ [("hour", time_spec 0 2 30)]
  = Ok [("hour", [Num (Fin 2)])] /\
  hour_bins !! 2%nat = Some (Fin 30) /\ hour_bins !! 3%nat = Some (Fin 100) /\
  hour_bins !! 1%nat = Some (Fin 0) /\
  undo_discretize [("hour", [Num (Fin 1)])] ∅ [("hour", hour_bins)] handle_inf
  = Ok [("hour", [Num (Fin 0)])] /\
  undo_discretize [("hour", [Num (Fin 2)])] ∅ [("hour", hour_bins)] handle_inf
  = Ok [("hour", [Num (Fin 30)])].
Proof.
  repeat split; try (vm_compute; reflexivity);
    destruct handle_inf; vm_compute; reflexivity.
Qed.

(** C5, as stated, fails: 45 is encoded as 2, not as 1, which is the
    number of [[0, 30)]. *)
Lemma hour_example_codes :
  discretize parse_decimal [("hour", [Num (Fin 45)])] ∅ [("hour", time_spec 0 2 30)]
  = Ok [("hour", [Num (Fin 2)])] /\
  discretize parse_decimal [("hour", [Num (Fin 45)])] ∅ [("hour", time_spec 0 2 30)]
  <> Ok [("hour", [Num (Fin 1)])].
Proof. split; [vm_compute; reflexivity|vm_compute; discriminate]. Qed.

(** ** Decoding binned columns with [handle_inf] *)

Lemma undo_discretize_binned (c : string) (schema : gmap string desc)
    (bin : list num) (col : Series) :
  undo_discretize_column schema [(c, bin)] c col
  = (vals ← np_take bin col; Ok (Num <$> (vals : list num))).
Proof. unfold undo_discretize_column. cbn. by rewrite decide_True. Qed.

(** C6: the first interval of every table [create_bins] builds is
    [[-inf, first cut point)], and code 0, which the encoder gives to the
    values in it, is decoded as [-inf] although [handle_inf] is set. *)
Theorem handle_inf_code_zero (parse_numeric : string -> option num)
    (c : string) (schema : gmap string desc) (mid : list Z) :
  undo_discretize [(c, [Num (Fin 0)])] schema [(c, np_r_ mid)] true
  = Ok [(c, [Num NegInf])] /\
  create_bins [("fare", continuous_spec 0 20 10)]
  = Ok [("fare", np_r_ [0; 10])] /\
  discretize parse_numeric [("fare", [Num (Fin (-5))])] ∅
    [("fare", continuous_spec 0 20 10)]
  = Ok [("fare", [Num (Fin 0)])] /\
  is_finite NegInf = false.
Proof.
  split; [|repeat split; vm_compute; reflexivity].
  rewrite undo_discretize_unfold. cbn [handle_inf_loop mbind result_bind].
  rewrite handle_inf_bin_np_r_. cbn [mbind result_bind dict_set keys fmap list_fmap fst for_columns].
  cbn. rewrite decide_True by done. cbn.
  rewrite undo_discretize_binned. unfold handle_inf_np_r_. cbn.
  rewrite np_getitem_0. cbn. by rewrite decide_True.
Qed.

(** ** Decoding the out-of-bin code [-1] *)

Lemma np_getitem_second_last {A} (pre : list A) (b x : A) :
  np_getitem (pre ++ [b; x]) (-2) = Ok b.
Proof.
  unfold np_getitem. rewrite (np_index_neg _ 2) by (rewrite length_app; cbn; lia).
  cbn. rewrite length_app. cbn.
  replace (length pre + 2 - 2)%nat with (length pre) by lia.
  by rewrite list_lookup_middle.
Qed.

(** The second-to-last cut point of a table of [create_bins]. *)
Lemma np_r_second_last (mid : list Z) :
  np_getitem (np_r_ mid) (-2)
  = Ok (match last mid with Some z => Fin z | None => NegInf end).
Proof.
  unfold np_r_. destruct mid as [|z mid _] using rev_ind.
  - apply (np_getitem_second_last [] NegInf PosInf).
  - rewrite last_snoc, fmap_app. cbn [fmap list_fmap].
    pose proof (np_getitem_second_last (NegInf :: (Fin <$> mid)) (Fin z) PosInf) as H.
    cbn [app] in H. rewrite <- !app_assoc. cbn [app]. exact H.
Qed.

Lemma decode_single_binned (schema : gmap string desc) (bins : dict (list num))
    (c : string) (bin : list num) (i : Z) (x : num) :
  dict_get c bins = Some bin ->
  np_getitem bin i = Ok x ->
  for_columns (undo_discretize_column schema bins)
    (keys [(c, [Num (Fin i)])]) [(c, [Num (Fin i)])]
  = Ok [(c, [Num x])].
Proof.
  intros Hb Hx. cbn. rewrite decide_True by done. cbn.
  unfold undo_discretize_column. rewrite Hb. cbn. rewrite Hx. cbn.
  by rewrite decide_True.
Qed.

(** On a binned column the code [-1] is decoded without failure.  With
    [handle_inf] it becomes the second-to-last cut point plus one, finite
    when the table has an interior cut point; without it, [+inf].  Neither
    result is NaN. *)
Lemma decode_minus_one_np_r_ (schema : gmap string desc)
    (bins : dict (list num)) (c : string) (mid : list Z) :
  NoDup (keys bins) ->
  Forall (fun p => 2 <= length p.2)%nat bins ->
  dict_get c bins = Some (np_r_ mid) ->
  exists b : num,
    np_getitem (np_r_ mid) (-2) = Ok b /\
    undo_discretize [(c, [Num (Fin (-1))])] schema bins true
    = Ok [(c, [Num (num_add b (Fin 1))])] /\
    undo_discretize [(c, [Num (Fin (-1))])] schema bins false
    = Ok [(c, [Num PosInf])] /\
    (mid <> [] -> is_finite (num_add b (Fin 1)) = true) /\
    isnan (num_add b (Fin 1)) = false.
Proof.
  intros Hnd Hlen Hc.
  exists (match last mid with Some z => Fin z | None => NegInf end).
  split; [apply np_r_second_last|]. split; [|split; [|split]].
  - rewrite undo_discretize_unfold.
    destruct (handle_inf_loop_total bins [] Hlen) as [bins' Hbins].
    rewrite Hbins. cbn [mbind result_bind].
    destruct (handle_inf_loop_get _ _ _ _ _ Hnd Hc Hbins) as (bin' & Hbin & Hget).
    rewrite handle_inf_bin_np_r_ in Hbin. injection Hbin as <-.
    apply (decode_single_binned _ _ _ _ _ _ Hget).
    unfold handle_inf_np_r_. rewrite app_comm_cons, np_getitem_last.
    by destruct (last mid).
  - rewrite undo_discretize_unfold. cbn [mbind result_bind].
    apply (decode_single_binned _ _ _ _ _ _ Hc).
    unfold np_r_. by rewrite app_comm_cons, np_getitem_last.
  - destruct mid as [|z mid _] using rev_ind; [done|].
    by rewrite last_snoc.
  - by destruct (last mid).
Qed.

(** C10: the range 5 to 5 has no interior cut point and [create_bins]
    builds the single-bin table [-inf, +inf] for it.  A missing value of
    the column is encoded as [-1], and with [handle_inf] the code [-1] is
    decoded as the second-to-last cut point plus one, here
    [-inf + 1 = -inf], which is not finite. *)
Theorem undo_discretize_code_minus_one_degenerate
    (parse_numeric : string -> option num) :
  create_bins [("fare", continuous_spec 5 5 1)] = Ok [("fare", [NegInf; PosInf])] /\
  discretize parse_numeric [("fare", [Num NaN])] ∅ [("fare", continuous_spec 5 5 1)]
  = Ok [("fare", [Num (Fin (-1))])] /\
  np_getitem [NegInf; PosInf] (-2) = Ok NegInf /\
  undo_discretize [("fare", [Num (Fin (-1))])] ∅ [("fare", [NegInf; PosInf])] true
  = Ok [("fare", [Num NegInf])] /\
  is_finite NegInf = false.
Proof. repeat split; vm_compute; reflexivity. Qed.

(** ** Tables built by [create_bins] *)

Lemma create_bins_entry_np_r_ (br : bin_range) (b : list num) :
  create_bins_entry br = Ok (Some b) -> exists mid, b = np_r_ mid.
Proof.
  unfold create_bins_entry. destruct (bin_type br) as [t|].
  - case_decide; [|done].
    destruct (first_bin_max_hour br); cbn; [|done].
    destruct (last_bin_min_hour br); cbn; [|done].
    destruct (bin_size_minutes br); cbn; [|done].
    destruct (time_points _ _ _); cbn; [|done]. intros [= <-]. by eexists.
  - destruct (first_bin_max br); cbn; [|done].
    destruct (last_bin_min br); cbn; [|done].
    destruct (bin_size br); cbn; [|done].
    destruct (np_arange _ _ _); cbn; [|done]. intros [= <-]. by eexists.
Qed.

Lemma create_bins_loop_ok (items : dict bin_range) (acc bins : dict (list num)) :
  bins_ok acc -> create_bins_loop items acc = Ok bins -> bins_ok bins.
Proof.
  revert acc. induction items as [|[f br] items IH]; intros acc Hacc; cbn.
  - by intros [= <-].
  - destruct (create_bins_entry br) as [[b|]|] eqn:He; cbn; [| |done].
    + apply IH. destruct Hacc as [Hnd Hall]. split.
      * by apply dict_set_keys_NoDup.
      * apply dict_set_Forall; [|done]. by apply create_bins_entry_np_r_ in He.
    + by apply IH.
Qed.

Lemma create_bins_ok (bins_range : dict bin_range) (bins : dict (list num)) :
  create_bins bins_range = Ok bins -> bins_ok bins.
Proof.
  apply create_bins_loop_ok. split; [apply NoDup_nil_2|apply Forall_nil_2].
Qed.

Lemma bins_ok_length (bins : dict (list num)) :
  bins_ok bins -> Forall (fun p => 2 <= length p.2)%nat bins.
Proof.
  intros [_ H]. eapply Forall_impl; [exact H|].
  intros [k b] [mid ->]. apply np_r_length.
Qed.

(** On the tables of [create_bins] the [handle_inf] pass never fails, and it
    gives no table to a column that had none. *)
Lemma decoder_bins_total (bins : dict (list num)) (hi : bool) (c : string) :
  bins_ok bins -> dict_get c bins = None ->
  exists bins', (if hi then handle_inf_loop bins [] else Ok bins) = Ok bins'
                /\ dict_get c bins' = None.
Proof.
  intros Hok Hc.
  assert (exists bins', (if hi then handle_inf_loop bins [] else Ok bins) = Ok bins')
    as [bins' Hb].
  { destruct hi; [|by eexists].
    apply handle_inf_loop_total. by apply bins_ok_length. }
  exists bins'. split; [done|]. by apply (decoder_bins_None _ _ _ _ Hc Hb).
Qed.

(** A table of one column: the loop runs its body once. *)
Lemma for_columns_single body (c : string) (col : Series) :
  for_columns body (keys [(c, col)]) [(c, col)]
  = (col' ← body c col; mret [(c, col')]).
Proof.
  cbn. rewrite decide_True by done. cbn.
  destruct (body c col); cbn; [|done]. by rewrite decide_True.
Qed.

Lemma discretize_single parse_numeric (schema : gmap string desc)
    (bins_range : dict bin_range) (bins : dict (list num)) (c : string)
    (col col' : Series) :
  create_bins bins_range = Ok bins ->
  discretize_column parse_numeric schema bins c col = Ok col' ->
  discretize parse_numeric [(c, col)] schema bins_range = Ok [(c, col')].
Proof.
  intros Hb Hc. unfold discretize. rewrite Hb. cbn [mbind result_bind].
  by rewrite for_columns_single, Hc.
Qed.

Lemma undo_discretize_single (schema : gmap string desc)
    (bins : dict (list num)) (hi : bool) (c : string) (col : Series)
    (r : result Series) :
  bins_ok bins -> dict_get c bins = None ->
  (forall bins', dict_get c bins' = None ->
     undo_discretize_column schema bins' c col = r) ->
  undo_discretize [(c, col)] schema bins hi = (col' ← r; mret [(c, col')]).
Proof.
  intros Hok Hc Hr. rewrite undo_discretize_unfold.
  destruct (decoder_bins_total bins hi c Hok Hc) as (bins' & -> & Hc').
  cbn [mbind result_bind]. by rewrite for_columns_single, (Hr _ Hc').
Qed.

(** ** From a table of one column to any table

    Each column is encoded and decoded on its own: what the functions make
    of a column standing alone is what they make of it inside any table
    with distinct labels on which they return. *)

Lemma map_columns_get body (ds ds' : DataFrame) (c : string) (col : Series) :
  map_columns body ds = Ok ds' ->
  dict_get c ds = Some col ->
  exists col', body c col = Ok col' /\ dict_get c ds' = Some col'.
Proof.
  unfold map_columns. revert ds'.
  induction ds as [|[k x] ds IH]; intros ds'; [done|]. cbn.
  destruct (body k x) as [x'|] eqn:Hx; cbn; [|done].
  destruct (mapM _ ds) as [ds1|]; cbn; [|done]. intros [= <-]. cbn.
  case_decide as Hk.
  - intros [= ->]. subst k. by exists x'.
  - by apply IH.
Qed.

Lemma map_columns_keys body (ds ds' : DataFrame) :
  map_columns body ds = Ok ds' -> keys ds' = keys ds.
Proof.
  unfold map_columns, keys. revert ds'.
  induction ds as [|[k x] ds IH]; intros ds'; cbn.
  - by intros [= <-].
  - destruct (body k x) as [x'|]; cbn; [|done].
    destruct (mapM _ ds) as [ds1|]; cbn; [|done]. intros [= <-]. cbn.
    by rewrite (IH ds1).
Qed.

Lemma for_columns_single_inv body (c : string) (col col' : Series) :
  for_columns body (keys [(c, col)]) [(c, col)] = Ok [(c, col')] ->
  body c col = Ok col'.
Proof.
  rewrite for_columns_single. destruct (body c col); cbn; [|done].
  by intros [= ->].
Qed.

Lemma discretize_in_table parse_numeric (ds ds' : DataFrame)
    (schema : gmap string desc) (bins_range : dict bin_range)
    (c : string) (col codes : Series) :
  NoDup (keys ds) ->
  dict_get c ds = Some col ->
  discretize parse_numeric [(c, col)] schema bins_range = Ok [(c, codes)] ->
  discretize parse_numeric ds schema bins_range = Ok ds' ->
  dict_get c ds' = Some codes /\ keys ds' = keys ds.
Proof.
  unfold discretize. intros Hnd Hc.
  destruct (create_bins bins_range) as [bins|]; cbn; [|done].
  intros Hone%for_columns_single_inv. rewrite for_columns_keys by done.
  intros Hall. split; [|by apply map_columns_keys in Hall].
  destruct (map_columns_get _ _ _ _ _ Hall Hc) as (col' & Hcol & Hget).
  congruence.
Qed.

Lemma undo_discretize_in_table (ds ds' : DataFrame)
    (schema : gmap string desc) (bins : dict (list num)) (handle_inf : bool)
    (c : string) (codes col : Series) :
  NoDup (keys ds) ->
  dict_get c ds = Some codes ->
  undo_discretize [(c, codes)] schema bins handle_inf = Ok [(c, col)] ->
  undo_discretize ds schema bins handle_inf = Ok ds' ->
  dict_get c ds' = Some col /\ keys ds' = keys ds.
Proof.
  rewrite !undo_discretize_unfold. intros Hnd Hc.
  destruct (if handle_inf then _ else _) as [bins'|]; cbn; [|done].
  intros Hone%for_columns_single_inv. rewrite for_columns_keys by done.
  intros Hall. split; [|by apply map_columns_keys in Hall].
  destruct (map_columns_get _ _ _ _ _ Hall Hc) as (col' & Hcol & Hget).
  congruence.
Qed.

(** The round trip of one column, inside a table. *)
Lemma round_trip_in_table parse_numeric (ds ds1 ds2 : DataFrame)
    (schema : gmap string desc) (bins_range : dict bin_range)
    (bins : dict (list num)) (handle_inf : bool)
    (c : string) (col codes col' : Series) :
  NoDup (keys ds) ->
  dict_get c ds = Some col ->
  discretize parse_numeric [(c, col)] schema bins_range = Ok [(c, codes)] ->
  undo_discretize [(c, codes)] schema bins handle_inf = Ok [(c, col')] ->
  discretize parse_numeric ds schema bins_range = Ok ds1 ->
  undo_discretize ds1 schema bins handle_inf = Ok ds2 ->
  dict_get c ds2 = Some col'.
Proof.
  intros Hnd Hc He Hd H1 H2.
  destruct (discretize_in_table _ _ _ _ _ _ _ _ Hnd Hc He H1) as [Hc1 Hk].
  apply (undo_discretize_in_table ds1 ds2 schema bins handle_inf c codes col');
    [by rewrite Hk|done..].
Qed.

(** ** Ordinal columns with a null sentinel *)




(** ** Categorical columns *)

Lemma CategoricalDtype_ok (categories : list cell) :
  NoDup categories -> Num NaN ∉ categories ->
  CategoricalDtype categories = Ok categories.
Proof.
  intros Hnd Hnan. unfold CategoricalDtype.
  by rewrite bool_decide_false, bool_decide_true.
Qed.

(** A declared value is coded by a position at which it stands. *)
Lemma category_code_elem (categories : list cell) (x : cell) :
  x ∈ categories ->
  exists i : nat, categories !! i = Some x
                  /\ category_code categories x = Z.of_nat i.
Proof.
  intros Hx. unfold category_code.
  destruct (list_find (fun c => c = x) categories) as [[i y]|] eqn:Hf.
  - apply list_find_Some in Hf as (Hi & -> & _). by exists i.
  - apply list_find_None in Hf. rewrite Forall_forall in Hf.
    by destruct (Hf x Hx).
Qed.

Lemma category_code_not_elem (categories : list cell) (x : cell) :
  x ∉ categories -> category_code categories x = -1.
Proof.
  intros Hx. unfold category_code.
  destruct (list_find (fun c => c = x) categories) as [[i y]|] eqn:Hf; [|done].
  apply list_find_Some in Hf as (Hi & -> & _).
  destruct Hx. by apply list_elem_of_lookup_2 in Hi.
Qed.

Lemma np_getitem_lookup {A} (arr : list A) (i : nat) (x : A) :
  arr !! i = Some x -> np_getitem arr (Z.of_nat i) = Ok x.
Proof.
  intros Hi. unfold np_getitem.
  rewrite np_index_nonneg by (by apply lookup_lt_Some in Hi).
  cbn. by rewrite Hi.
Qed.

Lemma np_getitem_minus_one {A} (arr : list A) :
  np_getitem arr (-1)
  = match last arr with Some x => Ok x | None => Raise IndexError end.
Proof.
  destruct arr as [|x arr _] using rev_ind.
  - apply np_getitem_empty.
  - by rewrite np_getitem_last, last_snoc.
Qed.

Lemma np_array_homogeneous (values : list cell) :
  homogeneous values = true -> np_array values = values.
Proof.
  unfold homogeneous, np_array. intros H.
  destruct (existsb is_str values); [|done]. cbn in H.
  induction values as [|[x|s] values IH]; cbn in H |- *; [done..|].
  by rewrite IH.
Qed.

Lemma np_array_last_elem (values : list cell) (x : cell) :
  last (np_array values) = Some x -> x ∈ np_array values.
Proof.
  intros H. destruct (np_array values) as [|y l _] using rev_ind; [done|].
  rewrite last_snoc in H. injection H as ->. set_solver.
Qed.

(** C3 (amended): on a categorical column without a bin table, raw values
    that are not among the declared values are encoded as [-1].  Decoding
    [-1] indexes the array of the declared values from its end: the result
    is the last entry of that array, a declared value when the values are
    of one kind, and IndexError when no value is declared.  The same holds
    for the column inside any table. *)
Theorem categorical_unmapped (parse_numeric : string -> option num)
    (schema : gmap string desc) (bins_range : dict bin_range)
    (bins : dict (list num)) (handle_inf : bool)
    (c : string) (d : desc) (values : list cell) (col : Series) :
  schema !! c = Some d ->
  desc_values d = Some values ->
  create_bins bins_range = Ok bins ->
  dict_get c bins = None ->
  NoDup values ->
  Num NaN ∉ values ->
  Forall (fun v => v ∉ values) col ->
  let codes := ((fun _ => Num (Fin (-1))) <$> col) in
  discretize parse_numeric [(c, col)] schema bins_range = Ok [(c, codes)] /\
  (forall x, last (np_array values) = Some x ->
     undo_discretize [(c, codes)] schema bins handle_inf
     = Ok [(c, (fun _ => x) <$> col)] /\
     x ∈ np_array values /\
     (homogeneous values = true -> x ∈ values) /\
     (forall ds ds1 ds2,
        NoDup (keys ds) -> dict_get c ds = Some col ->
        discretize parse_numeric ds schema bins_range = Ok ds1 ->
        undo_discretize ds1 schema bins handle_inf = Ok ds2 ->
        dict_get c ds2 = Some ((fun _ => x) <$> col))) /\
  (values = [] -> col <> [] ->
   undo_discretize [(c, codes)] schema bins handle_inf = Raise IndexError).
Proof.
  intros Hs Hv Hb Hc Hnd Hnan Hcol codes.
  assert (Henc : discretize parse_numeric [(c, col)] schema bins_range
                 = Ok [(c, codes)]).
  { apply (discretize_single _ _ _ _ _ _ _ Hb).
    unfold discretize_column, astype_category_codes.
    rewrite Hc, Hs, Hv, CategoricalDtype_ok by done. cbn. f_equal.
    apply list_fmap_ext. intros i v Hi. do 2 f_equal.
    apply category_code_not_elem. rewrite Forall_forall in Hcol.
    apply Hcol. by apply list_elem_of_lookup_2 in Hi. }
  pose proof (create_bins_ok _ _ Hb) as Hok.
  split; [exact Henc|]. split.
  - intros x Hlast.
    assert (Hdec : undo_discretize [(c, codes)] schema bins handle_inf
                   = Ok [(c, (fun _ => x) <$> col)]).
    { rewrite (undo_discretize_single schema bins handle_inf c _
                 (Ok ((fun _ => x) <$> col))); [done..|].
      intros bins' Hc'. unfold undo_discretize_column.
      rewrite Hc', Hs, Hv. unfold np_take, codes. apply mapM_fmap_Ok.
      apply Forall_forall. intros v _.
      by rewrite np_getitem_minus_one, Hlast. }
    split; [exact Hdec|]. split; [by apply np_array_last_elem|]. split.
    + intros Hh. rewrite <- (np_array_homogeneous values Hh).
      by apply np_array_last_elem.
    + intros ds ds1 ds2 Hds Hget.
      by apply (round_trip_in_table _ _ _ _ _ _ _ _ _ _ _ _ Hds Hget Henc Hdec).
  - intros -> Hne.
    rewrite (undo_discretize_single schema bins handle_inf c _
               (Raise IndexError)); [done..|].
    intros bins' Hc'. unfold undo_discretize_column.
    rewrite Hc', Hs, Hv. unfold codes. by destruct col.
Qed.

Lemma categorical_unmapped_witness :
  let codes := ((fun _ : cell => Num (Fin (-1))) <$> [Num (Fin 7); Num NaN]) in
  discretize parse_decimal [("SEX", [Num (Fin 7); Num NaN])]
    {["SEX" := categorical [Num (Fin 1); Num (Fin 2)]]} []
  = Ok [("SEX", codes)] /\
  (forall x, last (np_array [Num (Fin 1); Num (Fin 2)]) = Some x ->
     undo_discretize [("SEX", codes)]
       {["SEX" := categorical [Num (Fin 1); Num (Fin 2)]]} [] true
     = Ok [("SEX", (fun _ => x) <$> [Num (Fin 7); Num NaN])] /\
     x ∈ np_array [Num (Fin 1); Num (Fin 2)] /\
     (homogeneous [Num (Fin 1); Num (Fin 2)] = true ->
      x ∈ [Num (Fin 1); Num (Fin 2)]) /\
     (forall ds ds1 ds2,
        NoDup (keys ds) ->
        dict_get "SEX" ds = Some [Num (Fin 7); Num NaN] ->
        discretize parse_decimal ds
          {["SEX" := categorical [Num (Fin 1); Num (Fin 2)]]} [] = Ok ds1 ->
        undo_discretize ds1
          {["SEX" := categorical [Num (Fin 1); Num (Fin 2)]]} [] true = Ok ds2 ->
        dict_get "SEX" ds2 = Some ((fun _ => x) <$> [Num (Fin 7); Num NaN]))) /\
  ([Num (Fin 1); Num (Fin 2)] = [] -> [Num (Fin 7); Num NaN] <> [] ->
   undo_discretize [("SEX", codes)]
     {["SEX" := categorical [Num (Fin 1); Num (Fin 2)]]} [] true
   = Raise IndexError).
Proof.
  apply (categorical_unmapped parse_decimal
           {["SEX" := categorical [Num (Fin 1); Num (Fin 2)]]} [] [] true
           "SEX" (categorical [Num (Fin 1); Num (Fin 2)])
           [Num (Fin 1); Num (Fin 2)] [Num (Fin 7); Num NaN]).
  - vm_compute. reflexivity.
  - reflexivity.
  - reflexivity.
  - reflexivity.
  - by_compute.
  - by_compute.
  - by_compute.
Defined.

(** C3, as stated, fails: 7 is not a declared value and is encoded as
    [-1], and [-1] is decoded as 2, which is a declared value. *)
Lemma categorical_unmapped_decodes_to_value :
  (Num (Fin 7) ∉ [Num (Fin 1); Num (Fin 2)]) /\
  discretize parse_decimal [("SEX", [Num (Fin 7)])]
    {["SEX" := categorical [Num (Fin 1); Num (Fin 2)]]} []
  = Ok [("SEX", [Num (Fin (-1))])] /\
  undo_discretize [("SEX", [Num (Fin (-1))])]
    {["SEX" := categorical [Num (Fin 1); Num (Fin 2)]]} [] true
  = Ok [("SEX", [Num (Fin 2)])] /\
  Num (Fin 2) ∈ [Num (Fin 1); Num (Fin 2)].
Proof.
  split; [by_compute|]. split; [vm_compute; reflexivity|].
  split; [vm_compute; reflexivity|by_compute].
Qed.

(** C8 (amended): on a categorical column without a bin table whose
    declared values are distinct, non-null and of one kind (all numbers or
    all strings), a column of declared values is encoded without failure,
    each value by its position, and decoding the codes gives the column
    back.  The same holds for the column inside any table. *)
Theorem categorical_round_trip (parse_numeric : string -> option num)
    (schema : gmap string desc) (bins_range : dict bin_range)
    (bins : dict (list num)) (handle_inf : bool)
    (c : string) (d : desc) (values : list cell) (col : Series) :
  schema !! c = Some d ->
  desc_values d = Some values ->
  create_bins bins_range = Ok bins ->
  dict_get c bins = None ->
  NoDup values ->
  Num NaN ∉ values ->
  homogeneous values = true ->
  Forall (fun v => v ∈ values) col ->
  let codes := ((fun v => Num (Fin (category_code values v))) <$> col) in
  discretize parse_numeric [(c, col)] schema bins_range = Ok [(c, codes)] /\
  undo_discretize [(c, codes)] schema bins handle_inf = Ok [(c, col)] /\
  (forall ds ds1 ds2,
     NoDup (keys ds) -> dict_get c ds = Some col ->
     discretize parse_numeric ds schema bins_range = Ok ds1 ->
     undo_discretize ds1 schema bins handle_inf = Ok ds2 ->
     dict_get c ds2 = Some col).
Proof.
  intros Hs Hv Hb Hc Hnd Hnan Hh Hcol codes.
  cut (discretize parse_numeric [(c, col)] schema bins_range = Ok [(c, codes)]
       /\ undo_discretize [(c, codes)] schema bins handle_inf = Ok [(c, col)]).
  { intros [Henc Hdec]. split; [done|]. split; [done|].
    intros ds ds1 ds2 Hds Hget.
    by apply (round_trip_in_table _ _ _ _ _ _ _ _ _ _ _ _ Hds Hget Henc Hdec). }
  split.
  - apply (discretize_single _ _ _ _ _ _ _ Hb).
    unfold discretize_column, astype_category_codes.
    by rewrite Hc, Hs, Hv, CategoricalDtype_ok.
  - rewrite (undo_discretize_single schema bins handle_inf c _ (Ok col));
      [done|by apply (create_bins_ok bins_range)|done|].
    intros bins' Hc'. unfold undo_discretize_column.
    rewrite Hc', Hs, Hv, np_array_homogeneous by done.
    unfold np_take, codes. rewrite <- (list_fmap_id col) at 2.
    apply mapM_fmap_Ok. eapply Forall_impl; [exact Hcol|].
    intros v Hin. destruct (category_code_elem values v Hin) as (i & Hi & ->).
    by apply np_getitem_lookup.
Qed.

Lemma categorical_round_trip_witness :
  let codes := ((fun v => Num (Fin (category_code [Str "N"; Str "1"; Str "2"] v)))
                <$> [Str "2"; Str "N"]) in
  discretize parse_decimal [("SEX", [Str "2"; Str "N"])]
    {["SEX" := categorical [Str "N"; Str "1"; Str "2"]]} []
  = Ok [("SEX", codes)] /\
  undo_discretize [("SEX", codes)]
    {["SEX" := categorical [Str "N"; Str "1"; Str "2"]]} [] true
  = Ok [("SEX", [Str "2"; Str "N"])] /\
  (forall ds ds1 ds2,
     NoDup (keys ds) -> dict_get "SEX" ds = Some [Str "2"; Str "N"] ->
     discretize parse_decimal ds
       {["SEX" := categorical [Str "N"; Str "1"; Str "2"]]} [] = Ok ds1 ->
     undo_discretize ds1
       {["SEX" := categorical [Str "N"; Str "1"; Str "2"]]} [] true = Ok ds2 ->
     dict_get "SEX" ds2 = Some [Str "2"; Str "N"]).
Proof.
  apply (categorical_round_trip parse_decimal
           {["SEX" := categorical [Str "N"; Str "1"; Str "2"]]} [] [] true
           "SEX" (categorical [Str "N"; Str "1"; Str "2"])
           [Str "N"; Str "1"; Str "2"] [Str "2"; Str "N"]).
  - vm_compute. reflexivity.
  - reflexivity.
  - reflexivity.
  - reflexivity.
  - by_compute.
  - by_compute.
  - reflexivity.
  - by_compute.
Defined.

(** C8, as stated, fails when the declared values mix numbers and strings:
    the array of the values is an array of strings, so the number 1, coded
    0, is decoded as the string of its digits. *)
Lemma categorical_mixed_values :
  Num (Fin 1) ∈ [Num (Fin 1); Str "N"] /\
  discretize parse_decimal [("SEX", [Num (Fin 1)])]
    {["SEX" := categorical [Num (Fin 1); Str "N"]]} []
  = Ok [("SEX", [Num (Fin 0)])] /\
  undo_discretize [("SEX", [Num (Fin 0)])]
    {["SEX" := categorical [Num (Fin 1); Str "N"]]} [] true
  = Ok [("SEX", [Str "1"])] /\
  Str "1" <> Num (Fin 1).
Proof.
  split; [by_compute|]. split; [vm_compute; reflexivity|].
  split; [vm_compute; reflexivity|discriminate].
Qed.

(** ** [df_filter] *)

Lemma mask_select_nil_r {A} (mask : list bool) : mask_select mask (@nil A) = [].
Proof. by destruct mask as [|[] ?]. Qed.

Lemma mask_select_Forall {A} (P : A -> Prop) (mask : list bool) (l : list A) :
  Forall P l -> Forall P (mask_select mask l).
Proof.
  intros H. revert mask. induction H as [|x l Hx _ IH]; intros mask.
  - rewrite mask_select_nil_r. apply Forall_nil_2.
  - destruct mask as [|[] mask]; cbn; [apply Forall_nil_2| |apply IH].
    by apply Forall_cons_2.
Qed.

(** The rows kept by [isin] have their value in the allowed list. *)
Lemma mask_select_isin (col : Series) (values : list cell) :
  Forall (fun x => x ∈ values) (mask_select (isin col values) col).
Proof.
  unfold isin. induction col as [|x col IH]; cbn; [apply Forall_nil_2|].
  case_bool_decide; [by apply Forall_cons_2|done].
Qed.

Lemma isin_mask_select (mask : list bool) (col : Series) (values : list cell) :
  isin (mask_select mask col) values = mask_select mask (isin col values).
Proof.
  unfold isin. revert col. induction mask as [|b mask IH]; intros [|x col]; cbn;
    try done.
  destruct b; cbn; by rewrite IH.
Qed.

(** Two masks applied one after the other select the rows both keep. *)
Lemma mask_select_twice {A} (m1 m2 : list bool) (l : list A) :
  mask_select (mask_select m1 m2) (mask_select m1 l)
  = mask_select (zip_with andb m1 m2) l.
Proof.
  revert m2 l. induction m1 as [|b1 m1 IH]; intros m2 l; [done|].
  destruct m2 as [|b2 m2], l as [|x l], b1; cbn;
    rewrite ?mask_select_nil_r; try done; try destruct b2; by rewrite IH.
Qed.

Lemma zip_with_andb_comm (m1 m2 : list bool) :
  zip_with andb m1 m2 = zip_with andb m2 m1.
Proof.
  revert m2. induction m1 as [|b1 m1 IH]; intros [|b2 m2]; cbn; try done.
  by rewrite IH, andb_comm.
Qed.

Lemma dict_get_df_mask (f : string) (data : DataFrame) (mask : list bool) :
  dict_get f (df_mask data mask) = mask_select mask <$> dict_get f data.
Proof.
  unfold df_mask. induction data as [|[k col] data IH]; cbn; [done|].
  by case_decide.
Qed.

Lemma df_mask_twice (data : DataFrame) (m1 m2 : list bool) :
  df_mask (df_mask data m1) (mask_select m1 m2)
  = df_mask data (zip_with andb m1 m2).
Proof.
  unfold df_mask. rewrite <- list_fmap_compose. apply list_fmap_ext.
  intros i [k col] _. cbn. by rewrite mask_select_twice.
Qed.

(** A property of a column's cells survives the filters. *)
Lemma df_filter_loop_Forall (P : cell -> Prop) (filters : list (string * list cell))
    (data data' : DataFrame) (f : string) (col : Series) :
  df_filter_loop filters data = Ok data' ->
  dict_get f data = Some col -> Forall P col ->
  exists col', dict_get f data' = Some col' /\ Forall P col'.
Proof.
  revert data col. induction filters as [|[f0 S0] filters IH]; intros data col; cbn.
  - intros [= <-] Hf HP. by exists col.
  - destruct (dict_get f0 data) as [col0|]; cbn; [|done].
    intros Hl Hf HP. apply (IH _ (mask_select (isin col0 S0) col) Hl).
    + by rewrite dict_get_df_mask, Hf.
    + by apply mask_select_Forall.
Qed.

Lemma df_filter_loop_total (filters : list (string * list cell)) (data : DataFrame) :
  Forall (fun c => c.1 ∈ keys data) filters ->
  exists data', df_filter_loop filters data = Ok data'.
Proof.
  intros H. revert data H. induction filters as [|[f0 S0] filters IH]; intros data H; cbn.
  - by eexists.
  - apply Forall_cons in H as [Hf H]. cbn in Hf.
    destruct (dict_get f0 data) as [col0|] eqn:Hg; cbn.
    + apply IH. eapply Forall_impl; [exact H|]. intros [f S] Hin. cbn in *.
      destruct (dict_get f data) as [col|] eqn:Hd.
      * apply (dict_get_Some_keys f _ (mask_select (isin col0 S0) col)).
        by rewrite dict_get_df_mask, Hd.
      * apply dict_get_None in Hd. by destruct Hd.
    + apply dict_get_None in Hg. by destruct Hg.
Qed.

Lemma df_filter_Some (data : DataFrame) (filters : list (string * list cell)) :
  df_filter data (Some filters) = df_filter_loop filters data.
Proof. by destruct filters. Qed.

(** C9: [df_filter] returns a table whenever every constrained field is a
    column, and in the table it returns every cell of a constrained column
    is in that constraint's list; with no list of constraints, or an empty
    one, it returns its input; two constraints give the same result in
    either order. *)
Theorem df_filter_properties (data : DataFrame) :
  (forall filters,
     Forall (fun c => c.1 ∈ keys data) filters ->
     exists data', df_filter data (Some filters) = Ok data') /\
  (forall filters data' f values,
     df_filter data (Some filters) = Ok data' ->
     (f, values) ∈ filters ->
     exists col, dict_get f data' = Some col
                 /\ Forall (fun x => x ∈ values) col) /\
  df_filter data None = Ok data /\
  df_filter data (Some []) = Ok data /\
  (forall c1 c2, df_filter data (Some [c1; c2]) = df_filter data (Some [c2; c1])).
Proof.
  split; [|split; [|split; [|split]]]; try done.
  - intros filters H. rewrite df_filter_Some. by apply df_filter_loop_total.
  - intros filters data' f values. rewrite df_filter_Some. revert data.
    induction filters as [|[f0 S0] filters IH]; intros data Hl Hin.
    + by apply elem_of_nil in Hin.
    + cbn in Hl. destruct (dict_get f0 data) as [col0|] eqn:Hg; cbn in Hl; [|done].
      apply elem_of_cons in Hin as [[= -> ->]|Hin]; [|by apply (IH _ Hl)].
      eapply df_filter_loop_Forall; [exact Hl| |].
      * by rewrite dict_get_df_mask, Hg.
      * apply mask_select_isin.
  - intros [f1 S1] [f2 S2]. rewrite !df_filter_Some. cbn [df_filter_loop].
    destruct (dict_get f1 data) as [col1|] eqn:H1,
             (dict_get f2 data) as [col2|] eqn:H2;
      cbn [getitem mbind result_bind];
      rewrite ?dict_get_df_mask, ?H1, ?H2; cbn [getitem mbind result_bind fmap option_fmap option_map];
      try done.
    rewrite !isin_mask_select, !df_mask_twice. by rewrite zip_with_andb_comm.
Qed.

Lemma df_filter_properties_witness :
  let data := [("SEX", [Num (Fin 1); Num (Fin 2); Num (Fin 1)]);
               ("PUMA", [Str "17-1001"; Str "17-1001"; Str "39-0100"])] in
  df_filter data (Some [("SEX", [Num (Fin 1)]); ("PUMA", [Str "17-1001"])])
  = Ok [("SEX", [Num (Fin 1)]); ("PUMA", [Str "17-1001"])] /\
  exists col, dict_get "SEX" [("SEX", [Num (Fin 1)]); ("PUMA", [Str "17-1001"])]
              = Some col /\ Forall (fun x => x ∈ [Num (Fin 1)]) col.
Proof.
  split; [vm_compute; reflexivity|].
  apply (proj1 (proj2 (df_filter_properties
           [("SEX", [Num (Fin 1); Num (Fin 2); Num (Fin 1)]);
            ("PUMA", [Str "17-1001"; Str "17-1001"; Str "39-0100"])]))
           [("SEX", [Num (Fin 1)]); ("PUMA", [Str "17-1001"])]
           [("SEX", [Num (Fin 1)]); ("PUMA", [Str "17-1001"])]
           "SEX" [Num (Fin 1)]).
  - vm_compute. reflexivity.
  - by_compute.
Defined.

(** * Further properties

    ** [create_bins]: the time case, degenerate steps, missing keys *)

Lemma mapM_all_Ok {A B} (f : A -> result B) (h : A -> B) (l : list A) :
  Forall (fun x => f x = Ok (h x)) l -> mapM f l = Ok (h <$> l).
Proof.
  intros H. rewrite <- (list_fmap_id l) at 1. by apply mapM_fmap_Ok.
Qed.







Lemma time_points_Ok (fbm lbm bs : Z) :
  bs <> 0 ->
  time_points fbm lbm bs
  = Ok (concat ((fun h => (fun m => h * 100 + m) <$> arith_seq 0 60 bs)
                <$> arith_seq fbm lbm 1)).
Proof.
  intros Hbs. unfold time_points, py_range.
  rewrite !decide_False by lia. cbn [mbind result_bind].
  by rewrite (mapM_all_Ok _
       (fun h => (fun m => h * 100 + m) <$> arith_seq 0 60 bs))
    by (by apply Forall_forall).
Qed.

Lemma create_bins_single_time (f : string) (br : bin_range) (fbm lbm bs : Z)
    (r : result (list Z)) :
  bin_type br = Some "time" ->
  first_bin_max_hour br = Some fbm ->
  last_bin_min_hour br = Some lbm ->
  bin_size_minutes br = Some bs ->
  time_points fbm lbm bs = r ->
  create_bins_entry br = (mid ← r; mret (Some (np_r_ mid))).
Proof.
  intros Ht Hf Hl Hb <-. unfold create_bins_entry.
  rewrite Ht, Hf, Hl, Hb. by rewrite decide_True.
Qed.



Lemma create_bins_loop_raise (f : string) (br : bin_range)
    (items : dict bin_range) (acc : dict (list num)) :
  (f, br) ∈ items ->
  (exists e, create_bins_entry br = Raise e) ->
  exists e, create_bins_loop items acc = Raise e.
Proof.
  intros Hin [e0 He0]. revert acc.
  induction items as [|[k br'] items IH]; intros acc.
  - by apply elem_of_nil in Hin.
  - cbn. destruct (create_bins_entry br') as [e|e] eqn:He; cbn; [|by eexists].
    apply elem_of_cons in Hin as [[= <- <-]|Hin]; [congruence|by apply IH].
Qed.

Lemma create_bins_single (f : string) (br : bin_range) :
  create_bins [(f, br)]
  = (e ← create_bins_entry br;
     Ok (match e with Some b => [(f, b)] | None => [] end)).
Proof.
  unfold create_bins. cbn. by destruct (create_bins_entry br) as [[b|]|].
Qed.

Lemma create_bins_get_None (f : string) (br : bin_range)
    (bins_range : dict bin_range) (bins : dict (list num)) :
  NoDup (keys bins_range) ->
  dict_get f bins_range = Some br ->
  create_bins_entry br = Ok None ->
  create_bins bins_range = Ok bins ->
  dict_get f bins = None.
Proof.
  unfold create_bins.
  assert (Hacc : dict_get f (@nil (string * list num)) = None) by done.
  revert Hacc. generalize (@nil (string * list num)) as acc.
  induction bins_range as [|[k br'] items IH]; intros acc Hacc Hnd Hf He; [done|].
  unfold keys in Hnd. cbn in Hnd, Hf |- *. apply NoDup_cons in Hnd as [Hk Hnd].
  case_decide as Hfk.
  - injection Hf as ->. subst k. rewrite He. cbn. intros Hl.
    by rewrite (create_bins_loop_frame _ _ _ _ (proj2 (dict_get_None _ _) Hk) Hl).
  - destruct (create_bins_entry br') as [e|]; cbn; [|done].
    apply IH; [|done..]. destruct e; [|done].
    rewrite dict_get_set. by rewrite decide_False.
Qed.

Lemma create_bins_invariant_mid (bins_range : dict bin_range)
    (bins : dict (list num)) (f : string) (b : list num) :
  create_bins bins_range = Ok bins -> dict_get f bins = Some b ->
  exists mid, b = np_r_ mid.
Proof.
  intros Hb Hg. destruct (create_bins_ok _ _ Hb) as [_ Hall].
  rewrite Forall_forall in Hall.
  assert (Hin : (f, b) ∈ bins).
  { clear -Hg. induction bins as [|[k v] bins IH]; [done|]. cbn in Hg.
    case_decide; [injection Hg as ->; subst; left|right; by apply IH]. }
  destruct (Hall _ Hin) as [mid Hm]. by exists mid.
Qed.

Lemma arith_seq_nil (start stop step : Z) :
  range_len start stop step = 0 -> arith_seq start stop step = [].
Proof. intros H. unfold arith_seq. by rewrite H. Qed.

Lemma range_len_negative_step (step : Z) :
  step < 0 -> range_len 0 60 step = 0.
Proof.
  intros Hs. unfold range_len.
  pose proof (Z.div_mod (- (60 - 0)) step ltac:(lia)) as Hdm.
  pose proof (Z.mod_neg_bound (- (60 - 0)) step Hs) as Hb.
  nia.
Qed.

(** X2: a continuous specification whose [bin_size] is 0 makes
    [create_bins] raise ZeroDivisionError, and no dictionary of
    specifications holding it gets a result. *)
Theorem create_bins_zero_bin_size (f : string) (br : bin_range) (fbm lbm : Z) :
  bin_type br = None ->
  first_bin_max br = Some fbm ->
  last_bin_min br = Some lbm ->
  bin_size br = Some 0 ->
  create_bins [(f, br)] = Raise ZeroDivisionError /\
  (forall bins_range, (f, br) ∈ bins_range ->
     exists e, create_bins bins_range = Raise e).
Proof.
  intros Ht Hf Hl Hb.
  assert (He : create_bins_entry br = Raise ZeroDivisionError).
  { unfold create_bins_entry. by rewrite Ht, Hf, Hl, Hb. }
  split; [by rewrite create_bins_single, He|].
  intros bins_range Hin. apply (create_bins_loop_raise f br); [done|by eexists].
Qed.

Lemma create_bins_zero_bin_size_witness :
  create_bins [("fare", continuous_spec 0 50 0)] = Raise ZeroDivisionError /\
  (forall bins_range, ("fare", continuous_spec 0 50 0) ∈ bins_range ->
     exists e, create_bins bins_range = Raise e).
Proof.
  apply (create_bins_zero_bin_size "fare" (continuous_spec 0 50 0) 0 50);
    reflexivity.
Defined.

(** X3: a time specification whose [bin_size_minutes] is not positive.
    With no hour to visit, or with a negative step, the table is
    [-inf, +inf] and nothing is raised, a zero step included; a zero step
    with an hour to visit raises ValueError. *)
Theorem create_bins_time_step (f : string) (br : bin_range) (fbm lbm bs : Z) :
  bin_type br = Some "time" ->
  first_bin_max_hour br = Some fbm ->
  last_bin_min_hour br = Some lbm ->
  bin_size_minutes br = Some bs ->
  (lbm <= fbm -> create_bins [(f, br)] = Ok [(f, [NegInf; PosInf])]) /\
  (bs < 0 -> create_bins [(f, br)] = Ok [(f, [NegInf; PosInf])]) /\
  (bs = 0 -> fbm < lbm -> create_bins [(f, br)] = Raise ValueError).
Proof.
  intros Ht Hf Hl Hb. rewrite create_bins_single.
  split; [|split].
  - intros Hle.
    rewrite (create_bins_single_time f br fbm lbm bs (Ok []) Ht Hf Hl Hb); [done|].
    unfold time_points, py_range. rewrite (decide_False (P := 1 = 0)) by lia.
    by rewrite (arith_seq_nil fbm lbm 1) by (apply range_len_empty; lia).
  - intros Hneg.
    rewrite (create_bins_single_time f br fbm lbm bs (Ok []) Ht Hf Hl Hb); [done|].
    rewrite time_points_Ok by lia. f_equal.
    rewrite (arith_seq_nil 0 60 bs) by (by apply range_len_negative_step).
    by induction (arith_seq fbm lbm 1).
  - intros -> Hlt.
    rewrite (create_bins_single_time f br fbm lbm 0 (Raise ValueError)
               Ht Hf Hl Hb); [done|].
    unfold time_points, py_range. rewrite (decide_False (P := 1 = 0)) by lia.
    unfold arith_seq.
    assert (0 < range_len fbm lbm 1) by (apply range_len_lt; lia).
    by rewrite (seqZ_cons 0 (range_len fbm lbm 1)) by done.
Qed.

Lemma create_bins_time_step_witness :
  (24 <= 0 -> create_bins [("pickup_time", time_spec 0 24 0)]
              = Ok [("pickup_time", [NegInf; PosInf])]) /\
  (0 < 0 -> create_bins [("pickup_time", time_spec 0 24 0)]
            = Ok [("pickup_time", [NegInf; PosInf])]) /\
  (0 = 0 -> 0 < 24 ->
   create_bins [("pickup_time", time_spec 0 24 0)] = Raise ValueError).
Proof.
  apply (create_bins_time_step "pickup_time" (time_spec 0 24 0) 0 24 0);
    reflexivity.
Defined.

(** X4: an entry whose [bin_type] is not ["time"] is skipped without any
    failure, whatever else it holds: its field gets no bin table, so
    [discretize] treats the column by the schema alone. *)
Theorem create_bins_unknown_bin_type (f : string) (br : bin_range) (t : string) :
  bin_type br = Some t ->
  t <> "time" ->
  create_bins [(f, br)] = Ok [] /\
  (forall bins_range bins,
     NoDup (keys bins_range) -> dict_get f bins_range = Some br ->
     create_bins bins_range = Ok bins -> dict_get f bins = None) /\
  (forall parse_numeric col,
     discretize parse_numeric [(f, col)] ∅ [(f, br)] = Ok [(f, col)]).
Proof.
  intros Ht Hne.
  assert (He : create_bins_entry br = Ok None).
  { unfold create_bins_entry. rewrite Ht. by rewrite decide_False. }
  split; [by rewrite create_bins_single, He|]. split.
  - intros bins_range bins Hnd Hg Hbins.
    by apply (create_bins_get_None f br bins_range bins).
  - intros parse_numeric col. unfold discretize.
    rewrite create_bins_single, He. cbn [mbind result_bind].
    rewrite for_columns_single. unfold discretize_column. cbn.
    by rewrite lookup_empty.
Qed.

Lemma create_bins_unknown_bin_type_witness :
  create_bins [("pickup_time",
                {| bin_type := Some "Time"; first_bin_max := None;
                   last_bin_min := None; bin_size := None;
                   first_bin_max_hour := Some 0; last_bin_min_hour := Some 24;
                   bin_size_minutes := Some 30 |})] = Ok [] /\
  (forall bins_range bins,
     NoDup (keys bins_range) ->
     dict_get "pickup_time" bins_range
     = Some {| bin_type := Some "Time"; first_bin_max := None;
               last_bin_min := None; bin_size := None;
               first_bin_max_hour := Some 0; last_bin_min_hour := Some 24;
               bin_size_minutes := Some 30 |} ->
     create_bins bins_range = Ok bins -> dict_get "pickup_time" bins = None) /\
  (forall parse_numeric col,
     discretize parse_numeric [("pickup_time", col)] ∅
       [("pickup_time",
         {| bin_type := Some "Time"; first_bin_max := None;
            last_bin_min := None; bin_size := None;
            first_bin_max_hour := Some 0; last_bin_min_hour := Some 24;
            bin_size_minutes := Some 30 |})]
     = Ok [("pickup_time", col)]).
Proof.
  apply (create_bins_unknown_bin_type "pickup_time" _ "Time");
    [reflexivity | discriminate].
Defined.

(** X5: an entry that lacks a key its branch reads makes [create_bins]
    raise KeyError: without [bin_type], any of [first_bin_max],
    [last_bin_min], [bin_size] (the hour keys are not looked at); with
    [bin_type] ["time"], any of the three hour keys.  No dictionary of
    specifications holding such an entry gets a result. *)
Theorem create_bins_missing_key (f : string) (br : bin_range) :
  (bin_type br = None /\
   (first_bin_max br = None \/ last_bin_min br = None \/ bin_size br = None))
  \/ (bin_type br = Some "time" /\
      (first_bin_max_hour br = None \/ last_bin_min_hour br = None
       \/ bin_size_minutes br = None)) ->
  create_bins [(f, br)] = Raise KeyError /\
  (forall bins_range, (f, br) ∈ bins_range ->
     exists e, create_bins bins_range = Raise e).
Proof.
  intros H.
  assert (He : create_bins_entry br = Raise KeyError).
  { unfold create_bins_entry.
    destruct H as [[-> H]|[-> H]]; [|rewrite decide_True by done].
    - destruct (first_bin_max br), (last_bin_min br), (bin_size br); cbn;
        try done; by destruct H as [?|[?|?]].
    - destruct (first_bin_max_hour br), (last_bin_min_hour br),
        (bin_size_minutes br); cbn; try done; by destruct H as [?|[?|?]]. }
  split; [by rewrite create_bins_single, He|].
  intros bins_range Hin. apply (create_bins_loop_raise f br); [done|by eexists].
Qed.

Lemma create_bins_missing_key_witness :
  create_bins [("pickup_time",
                {| bin_type := None; first_bin_max := None;
                   last_bin_min := None; bin_size := None;
                   first_bin_max_hour := Some 0; last_bin_min_hour := Some 24;
                   bin_size_minutes := Some 30 |})] = Raise KeyError /\
  (forall bins_range,
     ("pickup_time",
      {| bin_type := None; first_bin_max := None;
         last_bin_min := None; bin_size := None;
         first_bin_max_hour := Some 0; last_bin_min_hour := Some 24;
         bin_size_minutes := Some 30 |}) ∈ bins_range ->
     exists e, create_bins bins_range = Raise e).
Proof.
  apply (create_bins_missing_key "pickup_time").
  left. split; [reflexivity|]. left. reflexivity.
Defined.

(** X6: what [create_bins] returns, for any specifications: its fields are
    distinct and are fields of the specification, and every table is
    [-inf], finite points, [+inf], so it has at least two cut points and
    holds no NaN. *)
Theorem create_bins_invariant (bins_range : dict bin_range)
    (bins : dict (list num)) :
  create_bins bins_range = Ok bins ->
  NoDup (keys bins) /\
  (forall f, f ∈ keys bins -> f ∈ keys bins_range) /\
  (forall f b, dict_get f bins = Some b ->
     exists mid, b = [NegInf] ++ (Fin <$> mid) ++ [PosInf]) /\
  Forall (fun p => 2 <= length p.2 /\ NaN ∉ p.2)%nat bins.
Proof.
  intros Hb. destruct (create_bins_ok _ _ Hb) as [Hnd Hall].
  split; [done|]. split; [|split].
  - intros f Hin. destruct (decide (f ∈ keys bins_range)) as [|Hn]; [done|].
    apply dict_get_None in Hn.
    pose proof (create_bins_loop_frame f bins_range [] bins Hn Hb) as Hg.
    cbn in Hg. apply dict_get_None in Hg. by destruct Hg.
  - intros f b Hg. rewrite Forall_forall in Hall.
    assert (Hin : (f, b) ∈ bins).
    { clear -Hg. induction bins as [|[k v] bins IH]; [done|]. cbn in Hg.
      case_decide; [injection Hg as ->; subst; left|right; by apply IH]. }
    destruct (Hall _ Hin) as [mid Hm]. cbn in Hm. subst b. by exists mid.
  - eapply Forall_impl; [exact Hall|]. intros [k b] [mid ->]. cbn.
    split; [apply np_r_length|]. unfold np_r_.
    rewrite not_elem_of_cons, not_elem_of_app, list_elem_of_fmap.
    split; [done|]. split; [by intros (z & ? & _)|]. by intros [=]%list_elem_of_singleton.
Qed.

Lemma create_bins_invariant_witness :
  NoDup (keys [("fare", np_r_ [0; 10; 20])]) /\
  (forall f, f ∈ keys [("fare", np_r_ [0; 10; 20])] ->
             f ∈ keys [("fare", continuous_spec 0 25 10)]) /\
  (forall f b, dict_get f [("fare", np_r_ [0; 10; 20])] = Some b ->
     exists mid, b = [NegInf] ++ (Fin <$> mid) ++ [PosInf]) /\
  Forall (fun p => 2 <= length p.2 /\ NaN ∉ p.2)%nat [("fare", np_r_ [0; 10; 20])].
Proof.
  apply (create_bins_invariant [("fare", continuous_spec 0 25 10)]
           [("fare", np_r_ [0; 10; 20])]).
  vm_compute. reflexivity.
Defined.

(** ** Binned columns: the code of a value, and back *)

(** In a strictly increasing list the points [<= z] are the first ones. *)
Lemma sorted_count_le (mid : list Z) (z : Z) :
  StronglySorted Z.lt mid ->
  forall (j : nat) (x : Z), mid !! j = Some x ->
    (j < length (filter (fun y : Z => (y <= z)%Z) mid))%nat <-> x <= z.
Proof.
  induction 1 as [|a l Hl IH Hall]; intros j x Hj; [done|].
  destruct (decide (a <= z)) as [Ha|Ha].
  - rewrite filter_cons_True by done. destruct j as [|j]; cbn in Hj |- *.
    + injection Hj as ->. split; [done|lia].
    + rewrite <- (IH j x Hj). lia.
  - rewrite filter_cons_False by done.
    assert (Hnil : filter (fun y => y <= z) l = []).
    { clear -Hall Ha. induction Hall as [|y l Hy _ IH]; [done|].
      rewrite filter_cons_False by lia. exact IH. }
    rewrite Hnil. cbn. split; [lia|]. intros Hx.
    destruct j as [|j]; cbn in Hj.
    + injection Hj as ->. lia.
    + rewrite Forall_forall in Hall.
      apply list_elem_of_lookup_2, Hall in Hj. lia.
Qed.

Lemma strictly_increasing_Sorted (mid : list Z) :
  is_strictly_increasing (np_r_ mid) = true -> StronglySorted Z.lt mid.
Proof.
  intros H. apply Sorted_StronglySorted; [intros ???; lia|].
  unfold np_r_ in H. destruct mid as [|a l]; [constructor|].
  cbn in H. revert a H. induction l as [|b l IH]; intros a H.
  - repeat constructor.
  - cbn in H. apply andb_true_iff in H as [Hab H]. apply Z.ltb_lt in Hab.
    constructor; [by apply IH|by constructor].
Qed.

Lemma filter_le_Fin (mid : list Z) (z : Z) :
  filter (fun b => num_le b (Fin z) = true) (Fin <$> mid)
  = Fin <$> filter (fun y => y <= z) mid.
Proof.
  induction mid as [|a l IH]; [done|]. rewrite fmap_cons.
  destruct (decide (a <= z)) as [Ha|Ha].
  - rewrite !filter_cons_True, fmap_cons, IH; [done..|].
    cbn. by apply Z.leb_le.
  - rewrite !filter_cons_False, IH; [done..|].
    cbn. intros H%Z.leb_le. lia.
Qed.

Lemma searchsorted_right_np_r_ (mid : list Z) (z : Z) :
  searchsorted_right (np_r_ mid) (Fin z)
  = Z.of_nat (S (length (filter (fun y => y <= z) mid))).
Proof.
  unfold searchsorted_right, np_r_. f_equal.
  rewrite filter_cons_True by done. cbn [length]. f_equal.
  rewrite filter_app, filter_le_Fin, filter_cons_False by (by cbn).
  by rewrite filter_nil, app_nil_r, length_fmap.
Qed.

Lemma cut_code_np_r_ (mid : list Z) (z : Z) :
  cut_code (np_r_ mid) (Num (Fin z))
  = Ok (Num (Fin (Z.of_nat (length (filter (fun y => y <= z) mid))))).
Proof.
  unfold cut_code. rewrite searchsorted_right_np_r_.
  pose proof (length_filter (fun y => y <= z) mid) as Hle.
  assert (Hlen : length (np_r_ mid) = S (S (length mid))).
  { unfold np_r_. cbn. rewrite length_app, length_fmap. cbn. lia. }
  rewrite Hlen. cbn [isnan orb].
  rewrite !bool_decide_false by lia. cbn. do 3 f_equal. lia.
Qed.

Lemma NoDup_np_r_ (mid : list Z) : NoDup mid -> NoDup (np_r_ mid).
Proof.
  intros Hnd. unfold np_r_. apply NoDup_cons_2.
  - rewrite not_elem_of_app, list_elem_of_fmap.
    split; [by intros (z & ? & _)|]. by intros [=]%list_elem_of_singleton.
  - apply NoDup_app. split; [|split].
    + apply NoDup_fmap_2; [|done]. by intros x y [=].
    + intros x (z & -> & _)%list_elem_of_fmap [=]%list_elem_of_singleton.
    + apply NoDup_singleton.
Qed.

Lemma StronglySorted_NoDup (mid : list Z) : StronglySorted Z.lt mid -> NoDup mid.
Proof.
  induction 1 as [|a l Hl IH Hall]; [constructor|].
  apply NoDup_cons_2; [|done]. rewrite Forall_forall in Hall.
  intros Hin%Hall. lia.
Qed.

Lemma monotonic_of_strictly (bins : list num) :
  is_strictly_increasing bins = true -> is_monotonic_increasing bins = true.
Proof.
  induction bins as [|a l IH]; [done|]. destruct l as [|b l]; [done|].
  cbn [is_strictly_increasing is_monotonic_increasing] in IH |- *.
  intros [Hab H]%andb_true_iff. rewrite (IH H), andb_true_r.
  destruct a, b; try done. cbn in *. apply Z.leb_le. apply Z.ltb_lt in Hab. lia.
Qed.

(** On a strictly increasing table [pd.cut] accepts the table and codes
    cell by cell. *)
Lemma pd_cut_codes_np_r_ (col : Series) (mid : list Z) :
  is_strictly_increasing (np_r_ mid) = true ->
  pd_cut_codes col (np_r_ mid) = mapM (cut_code (np_r_ mid)) col.
Proof.
  intros H. unfold pd_cut_codes.
  rewrite (monotonic_of_strictly _ H). cbn [negb].
  rewrite (bool_decide_true (NoDup _)); [done|].
  by apply NoDup_np_r_, StronglySorted_NoDup, strictly_increasing_Sorted.
Qed.

Lemma np_r_lookup_S (mid : list Z) (j : nat) (x : Z) :
  mid !! j = Some x -> np_r_ mid !! S j = Some (Fin x).
Proof.
  intros Hj. change (np_r_ mid !! S j) with (((Fin <$> mid) ++ [PosInf]) !! j).
  rewrite lookup_app_l by (rewrite length_fmap; by apply lookup_lt_Some in Hj).
  by rewrite list_lookup_fmap, Hj.
Qed.

Lemma np_r_lookup_last (mid : list Z) :
  np_r_ mid !! S (length mid) = Some PosInf.
Proof.
  change (np_r_ mid !! S (length mid))
    with (((Fin <$> mid) ++ [PosInf]) !! length mid).
  rewrite lookup_app_r by (by rewrite length_fmap).
  by rewrite length_fmap, Nat.sub_diag.
Qed.

(** The interval of the table that the code [count] of [z] names. *)
Lemma bin_of_value (mid : list Z) (z : Z) :
  StronglySorted Z.lt mid ->
  let i := length (filter (fun y => y <= z) mid) in
  exists lo hi, np_r_ mid !! i = Some lo /\ np_r_ mid !! S i = Some hi
                /\ num_le lo (Fin z) = true /\ num_lt (Fin z) hi = true
                /\ (mid !! 0%nat = None \/ (exists a, mid !! 0%nat = Some a /\ z < a)
                    <-> i = 0%nat).
Proof.
  intros Hs i.
  pose proof (length_filter (fun y => y <= z) mid) as Hle. fold i in Hle.
  pose proof (sorted_count_le mid z Hs) as Hc. fold i in Hc.
  assert (Hhi : exists hi, np_r_ mid !! S i = Some hi /\ num_lt (Fin z) hi = true).
  { destruct (mid !! i) as [x|] eqn:Hx.
    - exists (Fin x). split; [by apply np_r_lookup_S|].
      cbn. apply Z.ltb_lt. pose proof (Hc i x Hx). lia.
    - apply lookup_ge_None in Hx. replace i with (length mid) by lia.
      exists PosInf. split; [apply np_r_lookup_last|done]. }
  destruct Hhi as (hi & Hhi & Hlt).
  assert (Hlo : exists lo, np_r_ mid !! i = Some lo /\ num_le lo (Fin z) = true).
  { destruct i as [|j] eqn:Hi; [by exists NegInf|].
    destruct (lookup_lt_is_Some_2 mid j ltac:(lia)) as [x Hx].
    exists (Fin x). split; [by apply np_r_lookup_S|].
    cbn. apply Z.leb_le. apply (Hc j x Hx). lia. }
  destruct Hlo as (lo & Hlo & Hge). exists lo, hi. repeat split; try done.
  - intros [Hnil|(a & Ha & Hza)].
    + apply lookup_ge_None in Hnil. lia.
    + destruct i as [|j] eqn:Hi; [done|].
      pose proof (proj1 (Hc 0%nat a Ha) ltac:(lia)). lia.
  - intros Hi. destruct (mid !! 0%nat) as [a|] eqn:Ha; [|by left].
    right. exists a. split; [done|]. pose proof (Hc 0%nat a Ha). lia.
Qed.

Lemma discretize_single_binned parse_numeric (schema : gmap string desc)
    (bins_range : dict bin_range) (bins : dict (list num)) (c : string)
    (b : list num) (col : Series) :
  create_bins bins_range = Ok bins ->
  dict_get c bins = Some b ->
  (forall d, schema !! c = Some d -> desc_has_null d = None) ->
  discretize parse_numeric [(c, col)] schema bins_range
  = (codes ← pd_cut_codes col b; mret [(c, codes)]).
Proof.
  intros Hb Hc Hn. unfold discretize. rewrite Hb. cbn [mbind result_bind].
  rewrite for_columns_single. unfold discretize_column. rewrite Hc.
  destruct (schema !! c) as [d|] eqn:Hd; [rewrite (Hn d eq_refl)|]; done.
Qed.

Lemma cut_code_NegInf (mid : list Z) :
  cut_code (np_r_ mid) (Num NegInf) = Ok (Num (Fin 0)).
Proof.
  unfold cut_code, searchsorted_right, np_r_.
  rewrite filter_cons_True, filter_app, filter_cons_False, filter_nil by done.
  assert (Hnil : filter (fun b => num_le b NegInf = true) (Fin <$> mid) = []).
  { induction mid as [|a l IH]; [done|].
    rewrite fmap_cons, filter_cons_False by done. exact IH. }
  rewrite Hnil. cbn. rewrite length_app, length_fmap. cbn.
  by rewrite bool_decide_false by lia.
Qed.

Lemma cut_code_PosInf (mid : list Z) :
  cut_code (np_r_ mid) (Num PosInf) = Ok (Num (Fin (-1))).
Proof.
  unfold cut_code, searchsorted_right, np_r_.
  rewrite filter_cons_True, filter_app, filter_cons_True, filter_nil by done.
  assert (Hall : filter (fun b => num_le b PosInf = true) (Fin <$> mid)
                 = Fin <$> mid).
  { induction mid as [|a l IH]; [done|].
    rewrite fmap_cons, filter_cons_True by done. by rewrite IH. }
  rewrite Hall. cbn [isnan orb]. by rewrite bool_decide_true.
Qed.

Lemma cut_code_NaN (bins : list num) :
  cut_code bins (Num NaN) = Ok (Num (Fin (-1))).
Proof. done. Qed.

(** X7: on a strictly increasing table of [create_bins], for a column whose
    schema entry, if any, declares no [has_null], [discretize] gives every
    finite number of the column the number [i] of the half-open interval
    [[bins[i], bins[i+1])] that holds it; [-inf] gets code 0, and [+inf]
    and NaN, which no interval holds, get [-1].  The cut points and the
    numbers are taken exactly representable as float64.  This holds for a
    column of numbers of any length, standing alone or in a table with
    distinct labels on which [discretize] returns. *)
Theorem discretize_bin_of_value (parse_numeric : string -> option num)
    (schema : gmap string desc) (bins_range : dict bin_range)
    (bins : dict (list num)) (c : string) (b : list num) (vals : list num) :
  create_bins bins_range = Ok bins ->
  dict_get c bins = Some b ->
  is_strictly_increasing b = true ->
  to_float64 b = b ->
  to_float64 vals = vals ->
  (forall d, schema !! c = Some d -> desc_has_null d = None) ->
  exists codes : list Z,
    discretize parse_numeric [(c, Num <$> vals)] schema bins_range
    = Ok [(c, (fun k => Num (Fin k)) <$> codes)] /\
    Forall2 (fun v k =>
               match v with
               | Fin z =>
                   exists (i : nat) (lo hi : num),
                     k = Z.of_nat i /\ b !! i = Some lo /\ b !! S i = Some hi /\
                     num_le lo (Fin z) = true /\ num_lt (Fin z) hi = true
               | NegInf => k = 0
               | PosInf | NaN => k = -1
               end) vals codes /\
    (forall ds ds',
       NoDup (keys ds) -> dict_get c ds = Some (Num <$> vals) ->
       discretize parse_numeric ds schema bins_range = Ok ds' ->
       dict_get c ds' = Some ((fun k => Num (Fin k)) <$> codes)).
Proof.
  intros Hb Hc Hinc _ _ Hn.
  destruct (create_bins_invariant_mid bins_range bins c b Hb Hc) as [mid ->].
  pose proof (strictly_increasing_Sorted mid Hinc) as Hs.
  set (code := fun v : num =>
                 match v with
                 | Fin z => Z.of_nat (length (filter (fun y => y <= z) mid))
                 | NegInf => 0
                 | _ => -1
                 end).
  assert (Hone : discretize parse_numeric [(c, Num <$> vals)] schema bins_range
                 = Ok [(c, (fun k => Num (Fin k)) <$> (code <$> vals))]).
  { rewrite (discretize_single_binned _ _ _ _ _ _ _ Hb Hc Hn).
    rewrite pd_cut_codes_np_r_ by done. rewrite <- list_fmap_compose.
    rewrite (mapM_fmap_Ok _ _ (fun v => Num (Fin (code v)))); [done|].
    apply Forall_forall. intros [| z | |] _; cbn [compose code].
    - apply cut_code_NegInf.
    - apply cut_code_np_r_.
    - apply cut_code_PosInf.
    - apply cut_code_NaN. }
  exists (code <$> vals). split; [exact Hone|]. split.
  - apply Forall2_fmap_r, Forall_Forall2_diag, Forall_forall.
    intros [| z | |] _; cbn [code]; try done.
    destruct (bin_of_value mid z Hs) as (lo & hi & Hlo & Hhi & Hle & Hlt & _).
    by exists (length (filter (fun y => y <= z) mid)), lo, hi.
  - intros ds ds' Hnd Hg Hds.
    by destruct (discretize_in_table _ _ _ _ _ _ _ _ Hnd Hg Hone Hds).
Qed.

Lemma discretize_bin_of_value_witness :
  exists codes : list Z,
    discretize parse_decimal [("fare", Num <$> [Fin 17; NegInf; PosInf; NaN])] ∅
      [("fare", continuous_spec 0 25 10)]
    = Ok [("fare", (fun k => Num (Fin k)) <$> codes)] /\
    Forall2 (fun v k =>
               match v with
               | Fin z =>
                   exists (i : nat) (lo hi : num),
                     k = Z.of_nat i /\ np_r_ [0; 10; 20] !! i = Some lo /\
                     np_r_ [0; 10; 20] !! S i = Some hi /\
                     num_le lo (Fin z) = true /\ num_lt (Fin z) hi = true
               | NegInf => k = 0
               | PosInf | NaN => k = -1
               end) [Fin 17; NegInf; PosInf; NaN] codes /\
    (forall ds ds',
       NoDup (keys ds) ->
       dict_get "fare" ds = Some (Num <$> [Fin 17; NegInf; PosInf; NaN]) ->
       discretize parse_decimal ds ∅ [("fare", continuous_spec 0 25 10)] = Ok ds' ->
       dict_get "fare" ds' = Some ((fun k => Num (Fin k)) <$> codes)).
Proof.
  apply (discretize_bin_of_value parse_decimal ∅
           [("fare", continuous_spec 0 25 10)] [("fare", np_r_ [0; 10; 20])]
           "fare" (np_r_ [0; 10; 20]) [Fin 17; NegInf; PosInf; NaN]).
  - vm_compute. reflexivity.
  - reflexivity.
  - reflexivity.
  - vm_compute. reflexivity.
  - vm_compute. reflexivity.
  - intros d Hd. vm_compute in Hd. discriminate.
Defined.

Lemma undo_discretize_lower_edge_aux (schema : gmap string desc)
    (bins : dict (list num)) (handle_inf : bool) (c : string)
    (b : list num) (i : nat) (lo : num) :
  NoDup (keys bins) ->
  Forall (fun p => 2 <= length p.2)%nat bins ->
  dict_get c bins = Some b ->
  (S i < length b)%nat ->
  b !! i = Some lo ->
  undo_discretize [(c, [Num (Fin (Z.of_nat i))])] schema bins handle_inf
  = Ok [(c, [Num lo])].
Proof.
  intros Hnd Hlen Hc Hi Hlo. rewrite undo_discretize_unfold.
  destruct handle_inf.
  - destruct (handle_inf_loop_total bins [] Hlen) as [bins' Hbins].
    rewrite Hbins. cbn [mbind result_bind].
    destruct (handle_inf_loop_get _ _ _ _ _ Hnd Hc Hbins) as (bin' & Hbin & Hget).
    destruct (two_last b ltac:(lia)) as (pre & y & x & ->).
    rewrite handle_inf_bin_snoc in Hbin. injection Hbin as <-.
    apply (decode_single_binned _ _ _ _ _ _ Hget). apply np_getitem_lookup.
    rewrite length_app in Hi. cbn in Hi.
    replace (pre ++ [y; x]) with ((pre ++ [y]) ++ [x]) in Hlo
      by (by rewrite <- app_assoc).
    replace (pre ++ [y; num_add y (Fin 1)])
      with ((pre ++ [y]) ++ [num_add y (Fin 1)]) by (by rewrite <- app_assoc).
    rewrite lookup_app_l in Hlo |- * by (rewrite length_app; cbn; lia). done.
  - cbn [mbind result_bind].
    apply (decode_single_binned _ _ _ _ _ _ Hc). by apply np_getitem_lookup.
Qed.

(** X8: for a code [i] from 0 to [len(bins) - 2], the codes the encoder
    gives to the values it places, decoding yields [bins[i]], the lower
    edge of the interval, whether [handle_inf] is set or not: the pass
    changes the table's last entry only, which these codes never reach. *)
Theorem undo_discretize_lower_edge (schema : gmap string desc)
    (bins : dict (list num)) (handle_inf : bool) (c : string)
    (b : list num) (i : nat) (lo : num) :
  NoDup (keys bins) ->
  Forall (fun p => 2 <= length p.2)%nat bins ->
  dict_get c bins = Some b ->
  (S i < length b)%nat ->
  b !! i = Some lo ->
  undo_discretize [(c, [Num (Fin (Z.of_nat i))])] schema bins handle_inf
  = Ok [(c, [Num lo])].
Proof. apply undo_discretize_lower_edge_aux. Qed.

Lemma undo_discretize_lower_edge_witness :
  undo_discretize [("hour", [Num (Fin (Z.of_nat 4))])] ∅
    [("hour", hour_bins)] true
  = Ok [("hour", [Num (Fin 130)])].
Proof.
  apply (undo_discretize_lower_edge ∅ [("hour", hour_bins)] true "hour"
           hour_bins 4 (Fin 130)).
  - by_compute.
  - by_compute.
  - reflexivity.
  - vm_compute. lia.
  - reflexivity.
Defined.

(** Decoding a whole column of such codes. *)
Lemma np_take_lookup {A} (arr : list A) (js : list nat) (xs : list A) :
  Forall2 (fun j x => arr !! j = Some x) js xs ->
  np_take arr ((fun j => Num (Fin (Z.of_nat j))) <$> js) = Ok xs.
Proof.
  unfold np_take. induction 1 as [|j x js xs Hj _ IH]; [done|].
  cbn. rewrite (np_getitem_lookup _ _ _ Hj). cbn. by rewrite IH.
Qed.

Lemma undo_discretize_lower_edges (schema : gmap string desc)
    (bins : dict (list num)) (handle_inf : bool) (c : string)
    (b : list num) (js : list nat) (los : list num) :
  NoDup (keys bins) ->
  Forall (fun p => 2 <= length p.2)%nat bins ->
  dict_get c bins = Some b ->
  Forall2 (fun j lo => (S j < length b)%nat /\ b !! j = Some lo) js los ->
  undo_discretize [(c, (fun j => Num (Fin (Z.of_nat j))) <$> js)] schema bins
    handle_inf
  = Ok [(c, Num <$> los)].
Proof.
  intros Hnd Hlen Hc Hjs. rewrite undo_discretize_unfold.
  assert (exists bins' bin',
            (if handle_inf then handle_inf_loop bins [] else Ok bins) = Ok bins'
            /\ dict_get c bins' = Some bin'
            /\ Forall2 (fun j lo => bin' !! j = Some lo) js los)
    as (bins' & bin' & -> & Hget & Htake).
  { destruct handle_inf.
    - destruct (handle_inf_loop_total bins [] Hlen) as [bins' Hbins].
      destruct (handle_inf_loop_get _ _ _ _ _ Hnd Hc Hbins) as (bin' & Hbin & Hget).
      exists bins', bin'. split; [done|]. split; [done|].
      assert (2 <= length b)%nat as Hb2.
      { rewrite Forall_forall in Hlen.
        assert ((c, b) ∈ bins) as Hin.
        { clear -Hc. induction bins as [|[k v] bins IH]; [done|]. cbn in Hc.
          case_decide; [injection Hc as ->; subst; left|right; by apply IH]. }
        exact (Hlen _ Hin). }
      destruct (two_last b Hb2) as (pre & y & x & ->).
      rewrite handle_inf_bin_snoc in Hbin. injection Hbin as <-.
      eapply Forall2_impl; [exact Hjs|]. intros j lo [Hj Hlo]. cbn beta in *.
      rewrite length_app in Hj. cbn in Hj.
      replace (pre ++ [y; x]) with ((pre ++ [y]) ++ [x]) in Hlo
        by (by rewrite <- app_assoc).
      replace (pre ++ [y; num_add y (Fin 1)])
        with ((pre ++ [y]) ++ [num_add y (Fin 1)]) by (by rewrite <- app_assoc).
      rewrite lookup_app_l in Hlo |- * by (rewrite length_app; cbn; lia). done.
    - exists bins, b. split; [done|]. split; [done|].
      eapply Forall2_impl; [exact Hjs|]. by intros j lo [_ ?]. }
  cbn [mbind result_bind]. rewrite for_columns_single.
  unfold undo_discretize_column. rewrite Hget.
  by rewrite (np_take_lookup _ _ _ Htake).
Qed.

(** The greatest point of a sorted list at or below [z]. *)
Lemma floor_point (mid : list Z) (a z : Z) :
  StronglySorted Z.lt mid -> mid !! 0%nat = Some a -> a <= z ->
  exists (j : nat) (lo : Z),
    length (filter (fun y => y <= z) mid) = S j /\
    mid !! j = Some lo /\ lo <= z /\
    length (filter (fun y => y <= lo) mid) = S j /\
    (forall x, x ∈ mid -> x <= z -> x <= lo).
Proof.
  intros Hs Ha0 Haz.
  set (i := length (filter (fun y => y <= z) mid)).
  pose proof (sorted_count_le mid z Hs) as Hcz. fold i in Hcz.
  pose proof (length_filter (fun y => y <= z) mid) as Hle. fold i in Hle.
  assert (Hi : (0 < i)%nat) by (by apply (Hcz 0%nat a Ha0)).
  destruct i as [|j] eqn:Hij; [lia|].
  destruct (lookup_lt_is_Some_2 mid j ltac:(lia)) as [lo Hlo].
  assert (Hloz : lo <= z) by (apply (Hcz j lo Hlo); lia).
  exists j, lo. split; [done|]. split; [done|]. split; [done|]. split.
  - pose proof (sorted_count_le mid lo Hs) as Hcl.
    pose proof (length_filter (fun y => y <= lo) mid) as Hle'.
    set (k := length (filter (fun y => y <= lo) mid)) in *.
    assert (j < k)%nat by (apply (Hcl j lo Hlo); lia).
    destruct (decide (S j < k)%nat) as [Hgt|]; [|lia].
    destruct (lookup_lt_is_Some_2 mid (S j) ltac:(lia)) as [y Hy].
    pose proof (proj1 (Hcl (S j) y Hy) Hgt).
    pose proof (Hcz (S j) y Hy). lia.
  - intros x Hx Hxz. apply list_elem_of_lookup in Hx as [k Hk].
    pose proof (proj2 (Hcz k x Hk) Hxz) as Hkj.
    destruct (decide (k = j)) as [->|Hne]; [by replace x with lo by congruence|].
    assert (k < j)%nat as Hlt by lia.
    clear -Hs Hk Hlo Hlt. revert k j Hk Hlo Hlt.
    induction Hs as [|h l Hl IH Hfa]; intros k j Hk Hlo Hlt; [done|].
    destruct j as [|j]; [lia|]. cbn in Hlo. destruct k as [|k]; cbn in Hk.
    + injection Hk as ->. rewrite Forall_forall in Hfa.
      apply list_elem_of_lookup_2, Hfa in Hlo. lia.
    + apply (IH k j Hk Hlo). lia.
Qed.

(** X9: on a strictly increasing table of [create_bins], for a column whose
    schema entry, if any, declares no [has_null], every finite value [z] at
    or above the first interior cut point is encoded and decoded, with or
    without [handle_inf], to the greatest cut point [lo <= z]: a finite
    point of the table, which is encoded by the same code as [z].  The cut
    points and the values are taken exactly representable as float64.
    This holds for a column of such values of any length, standing alone
    or in a table with distinct labels on which the two calls return. *)
Theorem binned_round_trip (parse_numeric : string -> option num)
    (schema : gmap string desc) (bins_range : dict bin_range)
    (bins : dict (list num)) (handle_inf : bool)
    (c : string) (b : list num) (a : Z) (zs : list Z) :
  create_bins bins_range = Ok bins ->
  dict_get c bins = Some b ->
  is_strictly_increasing b = true ->
  to_float64 b = b ->
  Forall (fun z => float64_of_Z z = z) zs ->
  (forall d, schema !! c = Some d -> desc_has_null d = None) ->
  b !! 1%nat = Some (Fin a) ->
  Forall (fun z => a <= z) zs ->
  exists (codes : Series) (los : list Z),
    discretize parse_numeric [(c, (fun z => Num (Fin z)) <$> zs)] schema bins_range
    = Ok [(c, codes)] /\
    undo_discretize [(c, codes)] schema bins handle_inf
    = Ok [(c, (fun lo => Num (Fin lo)) <$> los)] /\
    Forall2 (fun z lo => lo <= z /\ Fin lo ∈ b /\
                         (forall x, Fin x ∈ b -> x <= z -> x <= lo)) zs los /\
    discretize parse_numeric [(c, (fun lo => Num (Fin lo)) <$> los)] schema
      bins_range
    = Ok [(c, codes)] /\
    (forall ds ds1 ds2,
       NoDup (keys ds) ->
       dict_get c ds = Some ((fun z => Num (Fin z)) <$> zs) ->
       discretize parse_numeric ds schema bins_range = Ok ds1 ->
       undo_discretize ds1 schema bins handle_inf = Ok ds2 ->
       dict_get c ds2 = Some ((fun lo => Num (Fin lo)) <$> los)).
Proof.
  intros Hb Hc Hinc _ _ Hn Ha Hzs.
  destruct (create_bins_invariant_mid bins_range bins c b Hb Hc) as [mid ->].
  pose proof (strictly_increasing_Sorted mid Hinc) as Hs.
  destruct (create_bins_ok _ _ Hb) as [Hnd Hall].
  pose proof (bins_ok_length bins (conj Hnd Hall)) as Hlen.
  assert (Ha0 : mid !! 0%nat = Some a).
  { unfold np_r_ in Ha. cbn in Ha. destruct mid; cbn in Ha |- *; congruence. }
  set (count := fun z : Z => length (filter (fun y => y <= z) mid)).
  set (floor := fun z : Z => default 0 (mid !! pred (count z))).
  assert (Hfloor : Forall (fun z =>
            count z = S (pred (count z)) /\ mid !! pred (count z) = Some (floor z)
            /\ floor z <= z /\ count (floor z) = count z
            /\ (forall x, x ∈ mid -> x <= z -> x <= floor z)) zs).
  { eapply Forall_impl; [exact Hzs|]. intros z Haz. cbn beta.
    destruct (floor_point mid a z Hs Ha0 Haz) as (j & lo & Hj & Hlo & Hle & Hcl & Hmax).
    unfold floor, count in *. rewrite Hj. cbn [pred]. rewrite Hlo. cbn.
    by rewrite Hcl. }
  assert (Henc : forall ws : list Z,
            discretize parse_numeric [(c, (fun z => Num (Fin z)) <$> ws)] schema
              bins_range
            = Ok [(c, (fun z => Num (Fin (Z.of_nat (count z)))) <$> ws)]).
  { intros ws. rewrite (discretize_single_binned _ _ _ _ _ _ _ Hb Hc Hn).
    rewrite pd_cut_codes_np_r_ by done.
    rewrite (mapM_fmap_Ok _ _ (fun z => Num (Fin (Z.of_nat (count z))))); [done|].
    apply Forall_forall. intros z _. apply cut_code_np_r_. }
  assert (Hdec : undo_discretize
                   [(c, (fun z => Num (Fin (Z.of_nat (count z)))) <$> zs)] schema
                   bins handle_inf
                 = Ok [(c, (fun lo => Num (Fin lo)) <$> (floor <$> zs))]).
  { replace ((fun z => Num (Fin (Z.of_nat (count z)))) <$> zs)
      with ((fun j => Num (Fin (Z.of_nat j))) <$> (count <$> zs))
      by (by rewrite <- list_fmap_compose).
    replace ((fun lo => Num (Fin lo)) <$> (floor <$> zs))
      with (Num <$> ((fun z => Fin (floor z)) <$> zs))
      by (by rewrite <- !list_fmap_compose).
    apply (undo_discretize_lower_edges schema bins handle_inf c (np_r_ mid));
      try done.
    apply Forall2_fmap, Forall_Forall2_diag.
    eapply Forall_impl; [exact Hfloor|].
    intros z (Hcz & Hlo & _). cbn [compose]. rewrite Hcz. split.
    - pose proof (length_filter (fun y => y <= z) mid) as Hle.
      fold (count z) in Hle. unfold np_r_. cbn.
      rewrite length_app, length_fmap. cbn. lia.
    - by apply np_r_lookup_S. }
  exists ((fun z => Num (Fin (Z.of_nat (count z)))) <$> zs), (floor <$> zs).
  split; [apply Henc|]. split; [exact Hdec|]. split; [|split].
  - apply Forall2_fmap_r, Forall_Forall2_diag.
    eapply Forall_impl; [exact Hfloor|].
    intros z (Hcz & Hlo & Hle & _ & Hmax). split; [done|]. split.
    + apply list_elem_of_lookup. exists (S (pred (count z))).
      by apply np_r_lookup_S.
    + intros x Hx Hxz. apply Hmax; [|done]. unfold np_r_ in Hx.
      apply elem_of_cons in Hx as [[=]|Hx].
      apply elem_of_app in Hx as [Hx|[=]%list_elem_of_singleton].
      by apply list_elem_of_fmap in Hx as (x' & [= <-] & Hx).
  - rewrite Henc. do 3 f_equal. rewrite <- list_fmap_compose.
    apply Forall_fmap_ext. eapply Forall_impl; [exact Hfloor|].
    intros z (_ & _ & _ & Hcf & _). cbn [compose]. by rewrite Hcf.
  - intros ds ds1 ds2 Hds Hg H1 H2.
    by apply (round_trip_in_table parse_numeric ds ds1 ds2 schema bins_range bins
                handle_inf c _ _ _ Hds Hg (Henc zs) Hdec H1 H2).
Qed.
Lemma binned_round_trip_witness :
  exists (codes : Series) (los : list Z),
    discretize parse_decimal [("fare", (fun z => Num (Fin z)) <$> [17; 0; 43])] ∅
      [("fare", continuous_spec 0 25 10)] = Ok [("fare", codes)] /\
    undo_discretize [("fare", codes)] ∅ [("fare", np_r_ [0; 10; 20])] true
    = Ok [("fare", (fun lo => Num (Fin lo)) <$> los)] /\
    Forall2 (fun z lo => lo <= z /\ Fin lo ∈ np_r_ [0; 10; 20] /\
                         (forall x, Fin x ∈ np_r_ [0; 10; 20] -> x <= z -> x <= lo))
      [17; 0; 43] los /\
    discretize parse_decimal [("fare", (fun lo => Num (Fin lo)) <$> los)] ∅
      [("fare", continuous_spec 0 25 10)] = Ok [("fare", codes)] /\
    (forall ds ds1 ds2,
       NoDup (keys ds) ->
       dict_get "fare" ds = Some ((fun z => Num (Fin z)) <$> [17; 0; 43]) ->
       discretize parse_decimal ds ∅ [("fare", continuous_spec 0 25 10)] = Ok ds1 ->
       undo_discretize ds1 ∅ [("fare", np_r_ [0; 10; 20])] true = Ok ds2 ->
       dict_get "fare" ds2 = Some ((fun lo => Num (Fin lo)) <$> los)).
Proof.
  apply (binned_round_trip parse_decimal ∅
           [("fare", continuous_spec 0 25 10)] [("fare", np_r_ [0; 10; 20])]
           true "fare" (np_r_ [0; 10; 20]) 0 [17; 0; 43]).
  - vm_compute. reflexivity.
  - reflexivity.
  - reflexivity.
  - vm_compute. reflexivity.
  - by_compute.
  - intros d Hd. vm_compute in Hd. discriminate.
  - reflexivity.
  - by_compute.
Defined.

Lemma range_len_descending (start stop step : Z) :
  step < 0 -> stop < start + step -> 2 <= range_len start stop step.
Proof.
  intros Hs Hlt. unfold range_len.
  pose proof (Z.div_mod (- (stop - start)) step ltac:(lia)) as Hdm.
  pose proof (Z.mod_neg_bound (- (stop - start)) step Hs) as Hb.
  nia.
Qed.

(** X10: a continuous specification of integers of magnitude at most
    [2^53] with a negative [bin_size] that leaves at least two points above
    [last_bin_min] is accepted by [create_bins], which returns a table that
    goes down; [discretize] then raises ValueError on the column, whatever
    it holds, when the schema entry of the column, if any, declares no
    [has_null]. *)
Theorem create_bins_descending (f : string) (br : bin_range) (fbm lbm bs : Z) :
  bin_type br = None ->
  first_bin_max br = Some fbm ->
  last_bin_min br = Some lbm ->
  bin_size br = Some bs ->
  - 2 ^ 53 <= bs < 0 ->
  - 2 ^ 53 <= lbm < fbm + bs ->
  fbm <= 2 ^ 53 ->
  (exists rest,
     create_bins [(f, br)]
     = Ok [(f, NegInf :: Fin fbm :: Fin (fbm + bs) :: rest)]) /\
  (forall parse_numeric schema col,
     (forall d, schema !! f = Some d -> desc_has_null d = None) ->
     discretize parse_numeric [(f, col)] schema [(f, br)] = Raise ValueError).
Proof.
  intros Ht Hf Hl Hb [_ Hs] [_ Hlt] _.
  pose proof (range_len_descending fbm lbm bs Hs Hlt) as Hn.
  assert (Hcb : exists rest, create_bins [(f, br)]
                = Ok [(f, NegInf :: Fin fbm :: Fin (fbm + bs) :: rest)]).
  { rewrite create_bins_single. unfold create_bins_entry, np_arange.
    rewrite Ht, Hf, Hl, Hb. cbn [getitem mbind result_bind].
    rewrite decide_False by lia. cbn [mbind result_bind mret result_ret].
    unfold arith_seq. rewrite seqZ_cons by lia.
    rewrite (seqZ_cons (Z.succ 0)) by lia. unfold np_r_. rewrite !fmap_cons.
    replace (fbm + 0 * bs) with fbm by lia.
    replace (fbm + Z.succ 0 * bs) with (fbm + bs) by lia.
    cbn [app]. by eexists. }
  split; [exact Hcb|]. destruct Hcb as [rest Hcb].
  intros parse_numeric schema col Hnull.
  assert (Hg : dict_get f [(f, NegInf :: Fin fbm :: Fin (fbm + bs) :: rest)]
               = Some (NegInf :: Fin fbm :: Fin (fbm + bs) :: rest)).
  { cbn. by rewrite decide_True. }
  rewrite (discretize_single_binned _ _ _ _ _ _ _ Hcb Hg Hnull).
  unfold pd_cut_codes. cbn [is_monotonic_increasing num_le].
  by rewrite (proj2 (Z.leb_gt fbm (fbm + bs))) by lia.
Qed.

Lemma create_bins_descending_witness :
  (exists rest,
     create_bins [("fare", continuous_spec 50 0 (-10))]
     = Ok [("fare", NegInf :: Fin 50 :: Fin (50 + -10) :: rest)]) /\
  (forall parse_numeric schema col,
     (forall d, schema !! "fare" = Some d -> desc_has_null d = None) ->
     discretize parse_numeric [("fare", col)] schema
       [("fare", continuous_spec 50 0 (-10))] = Raise ValueError).
Proof.
  apply (create_bins_descending "fare" (continuous_spec 50 0 (-10)) 50 0 (-10));
    [reflexivity | reflexivity | reflexivity | reflexivity | lia | lia | lia].
Defined.

(** ** [discretize] and [undo_discretize] on whole tables *)

Lemma mapM_Forall2 {A B} (f : A -> result B) (l : list A) (k : list B) :
  mapM f l = Ok k -> Forall2 (fun x y => f x = Ok y) l k.
Proof.
  revert k. induction l as [|x l IH]; intros k; cbn.
  - intros [= <-]. constructor.
  - destruct (f x) as [y|] eqn:Hx; cbn; [|done].
    destruct (mapM f l) as [k'|]; cbn; [|done]. intros [= <-].
    constructor; [done|by apply IH].
Qed.

Lemma mapM_length {A B} (f : A -> result B) (l : list A) (k : list B) :
  mapM f l = Ok k -> length k = length l.
Proof. intros H%mapM_Forall2. symmetry. by eapply Forall2_length. Qed.

Lemma mapM_total {A B} (f : A -> result B) (l : list A) :
  Forall (fun x => exists y, f x = Ok y) l -> exists k, mapM f l = Ok k.
Proof.
  induction 1 as [|x l [y Hy] _ [k Hk]]; [by eexists|].
  cbn. rewrite Hy. cbn. rewrite Hk. by eexists.
Qed.

(** A failing element makes [mapM] fail, with the one exception the
    function ever raises. *)
Lemma mapM_Raise_only {A B} (f : A -> result B) (e0 : exn) (l : list A) (x : A) :
  (forall y e, f y = Raise e -> e = e0) ->
  x ∈ l -> (exists e, f x = Raise e) -> mapM f l = Raise e0.
Proof.
  intros Hf Hin [e He]. induction l as [|y l IH]; [by apply elem_of_nil in Hin|].
  cbn. destruct (f y) as [b|e'] eqn:Hy; cbn.
  - apply elem_of_cons in Hin as [->|Hin]; [congruence|].
    by rewrite IH.
  - by rewrite (Hf y e' Hy).
Qed.

Lemma mapM_Raise_inv {A B} (f : A -> result B) (l : list A) (e : exn) :
  mapM f l = Raise e -> exists x, x ∈ l /\ f x = Raise e.
Proof.
  induction l as [|y l IH]; [done|]. cbn.
  destruct (f y) as [b|e'] eqn:Hy; cbn.
  - destruct (mapM f l) as [k|e'']; cbn; [done|]. intros [= ->].
    destruct (IH eq_refl) as (x & Hin & Hx). exists x. split; [by right|done].
  - intros [= ->]. exists y. split; [left|done].
Qed.

Lemma map_columns_Forall2 body (ds ds' : DataFrame) :
  map_columns body ds = Ok ds' ->
  Forall2 (fun p p' => p'.1 = p.1 /\ body p.1 p.2 = Ok p'.2) ds ds'.
Proof.
  intros H%mapM_Forall2. eapply Forall2_impl; [exact H|].
  intros [k col] [k' col']. cbn.
  destruct (body k col); cbn; [|done]. by intros [= <- <-].
Qed.

Lemma map_columns_total body (ds : DataFrame) :
  Forall (fun p => exists col', body p.1 p.2 = Ok col') ds ->
  exists ds', map_columns body ds = Ok ds'.
Proof.
  intros H. apply mapM_total. eapply Forall_impl; [exact H|].
  intros [k col] [col' Hc]. cbn in *. rewrite Hc. by eexists.
Qed.

Lemma series_replace_length (a b : cell) (col : Series) :
  length (series_replace a b col) = length col.
Proof. unfold series_replace. by rewrite length_fmap. Qed.

Lemma bind_Ok {A B} (m : result A) (f : A -> result B) (b : B) :
  m ≫= f = Ok b -> exists a, m = Ok a /\ f a = Ok b.
Proof. destruct m as [a|]; cbn; [|done]. intros H. by exists a. Qed.

Lemma pd_cut_codes_length (col codes : Series) (b : list num) :
  pd_cut_codes col b = Ok codes -> length codes = length col.
Proof.
  unfold pd_cut_codes. repeat case_match; try done. apply mapM_length.
Qed.

Lemma discretize_column_length parse_numeric (schema : gmap string desc)
    (bins : dict (list num)) (c : string) (col col' : Series) :
  discretize_column parse_numeric schema bins c col = Ok col' ->
  length col' = length col.
Proof.
  unfold discretize_column. destruct (dict_get c bins) as [b|].
  - intros (col1 & H1 & H2)%bind_Ok. apply pd_cut_codes_length in H2.
    rewrite H2. clear H2.
    destruct (schema !! c) as [d|]; [|by injection H1 as ->].
    destruct (desc_has_null d); [|by injection H1 as ->].
    apply bind_Ok in H1 as (nv & _ & H1). apply bind_Ok in H1 as (m & _ & H1).
    apply mapM_length in H1. by rewrite H1, series_replace_length.
  - destruct (schema !! c) as [d|]; [|by intros [= <-]].
    destruct (desc_values d) as [vs|].
    + unfold astype_category_codes. intros (dt & _ & [= <-])%bind_Ok.
      by rewrite length_fmap.
    + destruct (desc_min d) as [m|]; [|by intros [= <-]].
      intros (col1 & H1 & H2)%bind_Ok.
      apply bind_Ok in H2 as (col2 & H2 & H3).
      apply bind_Ok in H3 as (col3 & H3 & H4).
      apply mapM_length in H2, H3, H4. rewrite H4, H3, H2. clear H2 H3 H4.
      destruct (desc_has_null d); [|by injection H1 as ->].
      apply bind_Ok in H1 as (nv & _ & [= <-]). apply series_replace_length.
Qed.

Lemma undo_discretize_column_length (schema : gmap string desc)
    (bins : dict (list num)) (c : string) (col col' : Series) :
  undo_discretize_column schema bins c col = Ok col' ->
  length col' = length col.
Proof.
  unfold undo_discretize_column. destruct (dict_get c bins) as [b|].
  - intros (vals & H1 & [= <-])%bind_Ok. apply mapM_length in H1.
    by rewrite length_fmap.
  - destruct (schema !! c) as [d|]; [|by intros [= <-]].
    destruct (desc_values d) as [vs|]; [apply mapM_length|].
    destruct (desc_min d) as [m|]; [apply mapM_length|done].
Qed.

Lemma map_columns_shape body (ds ds' : DataFrame) :
  (forall c col col', body c col = Ok col' -> length col' = length col) ->
  map_columns body ds = Ok ds' ->
  Forall2 (fun p p' => p'.1 = p.1 /\ length p'.2 = length p.2) ds ds'.
Proof.
  intros Hb H%map_columns_Forall2. eapply Forall2_impl; [exact H|].
  intros [k col] [k' col'] [? ?]. cbn in *. split; [done|]. by eapply Hb.
Qed.

(** X11: on a table with distinct labels, [discretize] and
    [undo_discretize], when they return, return a table of the same shape:
    the same labels in the same order, every column with as many rows as
    before. *)
Theorem discretize_shape (parse_numeric : string -> option num)
    (ds : DataFrame) (schema : gmap string desc)
    (bins_range : dict bin_range) (bins : dict (list num)) (handle_inf : bool) :
  NoDup (keys ds) ->
  (forall ds', discretize parse_numeric ds schema bins_range = Ok ds' ->
     Forall2 (fun p p' => p'.1 = p.1 /\ length p'.2 = length p.2) ds ds') /\
  (forall ds', undo_discretize ds schema bins handle_inf = Ok ds' ->
     Forall2 (fun p p' => p'.1 = p.1 /\ length p'.2 = length p.2) ds ds').
Proof.
  intros Hnd. split; intros ds'.
  - unfold discretize. intros (b & _ & H)%bind_Ok.
    rewrite for_columns_keys in H by done.
    eapply map_columns_shape; [|exact H]. apply discretize_column_length.
  - rewrite undo_discretize_unfold. intros (b & _ & H)%bind_Ok.
    rewrite for_columns_keys in H by done.
    eapply map_columns_shape; [|exact H]. apply undo_discretize_column_length.
Qed.

Lemma discretize_shape_witness :
  (forall ds',
     discretize parse_decimal [("id", [Str "a7"]); ("AGE", [Num (Fin 3)])]
       {["AGE" := ordinal_null 0 (Str "N")]} [] = Ok ds' ->
     Forall2 (fun p p' => p'.1 = p.1 /\ length p'.2 = length p.2)
       [("id", [Str "a7"]); ("AGE", [Num (Fin 3)])] ds') /\
  (forall ds',
     undo_discretize [("id", [Str "a7"]); ("AGE", [Num (Fin 3)])]
       {["AGE" := ordinal_null 0 (Str "N")]} [] true = Ok ds' ->
     Forall2 (fun p p' => p'.1 = p.1 /\ length p'.2 = length p.2)
       [("id", [Str "a7"]); ("AGE", [Num (Fin 3)])] ds').
Proof.
  apply (discretize_shape parse_decimal [("id", [Str "a7"]); ("AGE", [Num (Fin 3)])]
           {["AGE" := ordinal_null 0 (Str "N")]} [] [] true).
  by_compute.
Defined.

Lemma create_bins_keys_None (bins_range : dict bin_range)
    (bins : dict (list num)) (c : string) :
  dict_get c bins_range = None -> create_bins bins_range = Ok bins ->
  dict_get c bins = None.
Proof.
  intros Hc Hb. by rewrite (create_bins_loop_frame c bins_range [] bins Hc Hb).
Qed.

(** X12: [discretize] hands back unchanged every column that has no bin
    specification and either is absent from the schema or has a descriptor
    with neither [values] nor [min]; no failure of the call is due to such
    a column. *)
Theorem discretize_untouched_column (parse_numeric : string -> option num)
    (ds : DataFrame) (schema : gmap string desc)
    (bins_range : dict bin_range) (c : string) (col : Series) :
  NoDup (keys ds) ->
  dict_get c ds = Some col ->
  dict_get c bins_range = None ->
  (schema !! c = None \/
   exists d, schema !! c = Some d /\ desc_values d = None /\ desc_min d = None) ->
  match discretize parse_numeric ds schema bins_range with
  | Ok ds' => dict_get c ds' = Some col
  | Raise e =>
      discretize parse_numeric (dict_del c ds) schema bins_range = Raise e
  end.
Proof.
  intros Hnd Hc Hb Hs. unfold discretize.
  destruct (create_bins bins_range) as [bins|e] eqn:Hbins; cbn; [|done].
  rewrite !for_columns_keys by auto using NoDup_keys_dict_del.
  apply map_columns_frame; [done..|].
  unfold discretize_column.
  rewrite (create_bins_keys_None _ _ _ Hb Hbins).
  by destruct Hs as [->|(d & -> & -> & ->)].
Qed.

Lemma discretize_untouched_column_witness :
  match discretize parse_decimal [("id", [Str "a7"]); ("AGE", [Str "N"])]
          {["AGE" := ordinal_null 0 (Str "N"); "id" := passthrough]} [] with
  | Ok ds' => dict_get "id" ds' = Some [Str "a7"]
  | Raise e =>
      discretize parse_decimal
        (dict_del "id" [("id", [Str "a7"]); ("AGE", [Str "N"])])
        {["AGE" := ordinal_null 0 (Str "N"); "id" := passthrough]} [] = Raise e
  end.
Proof.
  apply (discretize_untouched_column parse_decimal
           [("id", [Str "a7"]); ("AGE", [Str "N"])]
           {["AGE" := ordinal_null 0 (Str "N"); "id" := passthrough]} []
           "id" [Str "a7"]).
  - by_compute.
  - reflexivity.
  - reflexivity.
  - right. exists passthrough.
    split; [vm_compute; reflexivity|split; reflexivity].
Defined.


(** X13: what [discretize] makes of a table in which a schema column has
    neither [values] nor [min] (and no bin table) cannot be decoded:
    [undo_discretize] raises on every table [discretize] returns for it. *)
Theorem discretize_output_not_decodable (parse_numeric : string -> option num)
    (ds ds1 : DataFrame) (schema : gmap string desc)
    (bins_range : dict bin_range) (bins : dict (list num)) (handle_inf : bool)
    (c : string) (d : desc) :
  NoDup (keys ds) ->
  c ∈ keys ds ->
  schema !! c = Some d ->
  desc_values d = None ->
  desc_min d = None ->
  dict_get c bins = None ->
  discretize parse_numeric ds schema bins_range = Ok ds1 ->
  exists e, undo_discretize ds1 schema bins handle_inf = Raise e.
Proof.
  intros Hnd Hin Hs Hv Hm Hb Henc.
  assert (Hk : keys ds1 = keys ds).
  { unfold discretize in Henc. apply bind_Ok in Henc as (b & _ & H).
    rewrite for_columns_keys in H by done. by apply map_columns_keys in H. }
  rewrite undo_discretize_unfold.
  destruct (if handle_inf then _ else _) as [bins'|e] eqn:Hbins; cbn;
    [|by eexists].
  apply (for_columns_raise _ _ _ c); [by rewrite Hk|].
  intros col. exists ValueError. unfold undo_discretize_column.
  by rewrite (decoder_bins_None _ _ _ _ Hb Hbins), Hs, Hv, Hm.
Qed.

Lemma discretize_output_not_decodable_witness :
  exists e,
    undo_discretize [("id", [Str "a7"]); ("AGE", [Num (Fin (-1))])]
      {["AGE" := ordinal_null 0 (Str "N"); "id" := passthrough]} [] true
    = Raise e.
Proof.
  apply (discretize_output_not_decodable parse_decimal
           [("id", [Str "a7"]); ("AGE", [Str "N"])]
           [("id", [Str "a7"]); ("AGE", [Num (Fin (-1))])]
           {["AGE" := ordinal_null 0 (Str "N"); "id" := passthrough]} [] []
           true "id" passthrough).
  - by_compute.
  - by_compute.
  - vm_compute. reflexivity.
  - reflexivity.
  - reflexivity.
  - reflexivity.
  - vm_compute. reflexivity.
Defined.

(** ** Decoding what the encoder returns *)

Lemma Forall2_exists_r {A B} (R : A -> B -> Prop) (l : list A) (k : list B) :
  Forall2 R l k -> Forall (fun y => exists x, x ∈ l /\ R x y) k.
Proof.
  induction 1 as [|x y l k Hxy _ IH]; constructor.
  - exists x. split; [left|done].
  - eapply Forall_impl; [exact IH|]. intros y' (x' & Hin & Hr).
    exists x'. split; [by right|done].
Qed.

Lemma np_getitem_total {A} (arr : list A) (i : Z) :
  - Z.of_nat (length arr) <= i < Z.of_nat (length arr) ->
  exists x, np_getitem arr i = Ok x.
Proof.
  intros Hi. unfold np_getitem, np_index. rewrite bool_decide_true by done.
  cbn. pose proof (Z.mod_pos_bound i (Z.of_nat (length arr)) ltac:(lia)) as Hm.
  destruct (lookup_lt_is_Some_2 arr (Z.to_nat (i `mod` Z.of_nat (length arr)))
              ltac:(lia)) as [x Hx].
  rewrite Hx. by exists x.
Qed.

(** The codes of [pd.cut]: [-1], or the number of an interval. *)
Lemma cut_code_range (bins : list num) (x y : cell) :
  cut_code bins x = Ok y ->
  exists i, y = Num (Fin i)
            /\ (i = -1 \/ 0 <= i <= Z.of_nat (length bins) - 2).
Proof.
  unfold cut_code, searchsorted_right. destruct x as [v|]; [|done].
  pose proof (length_filter (fun b => num_le b v = true) bins) as Hle.
  case_match eqn:Hc; intros [= <-]; eexists; (split; [done|]); [by left|].
  right. apply orb_false_iff in Hc as [Hc H0]. apply orb_false_iff in Hc as [_ Hn].
  apply bool_decide_eq_false in H0, Hn. lia.
Qed.

Lemma category_code_range (categories : list cell) (x : cell) :
  -1 <= category_code categories x < Z.of_nat (length categories).
Proof.
  unfold category_code.
  destruct (list_find (fun c => c = x) categories) as [[i y]|] eqn:Hf; [|lia].
  apply list_find_Some in Hf as (Hi & _). apply lookup_lt_Some in Hi. lia.
Qed.

Lemma np_array_length (values : list cell) :
  length (np_array values) = length values.
Proof. unfold np_array. case_match; [apply length_fmap|done]. Qed.

Lemma CategoricalDtype_Ok (categories dtype : list cell) :
  CategoricalDtype categories = Ok dtype -> dtype = categories.
Proof. unfold CategoricalDtype. repeat case_match; congruence. Qed.

Lemma handle_inf_bin_length (b b' : list num) :
  handle_inf_bin b = Ok b' -> length b' = length b.
Proof.
  unfold handle_inf_bin, np_setitem.
  intros (y & _ & (k & _ & [= <-])%bind_Ok)%bind_Ok. apply length_insert.
Qed.

(** The tables the decoder indexes have the lengths of the caller's. *)
Lemma decoder_bins_Some (bins bins' : dict (list num)) (hi : bool)
    (c : string) (b : list num) :
  NoDup (keys bins) ->
  dict_get c bins = Some b ->
  (if hi then handle_inf_loop bins [] else Ok bins) = Ok bins' ->
  exists b', dict_get c bins' = Some b' /\ length b' = length b.
Proof.
  intros Hnd Hc. destruct hi.
  - intros H. destruct (handle_inf_loop_get _ _ _ _ _ Hnd Hc H) as (b' & Hb & Hg).
    exists b'. split; [done|]. by apply handle_inf_bin_length.
  - intros [= <-]. by exists b.
Qed.

Lemma undo_column_total parse_numeric (schema : gmap string desc)
    (bins bins' : dict (list num)) (c : string) (col col1 : Series) :
  discretize_column parse_numeric schema bins c col = Ok col1 ->
  (forall b, dict_get c bins = Some b ->
     (1 <= length b)%nat
     /\ exists b', dict_get c bins' = Some b' /\ length b' = length b) ->
  (dict_get c bins = None -> dict_get c bins' = None) ->
  (forall d, dict_get c bins = None -> schema !! c = Some d ->
     (exists v vs, desc_values d = Some (v :: vs))
     \/ (desc_values d = None /\ is_Some (desc_min d))) ->
  exists col2, undo_discretize_column schema bins' c col1 = Ok col2.
Proof.
  unfold discretize_column, undo_discretize_column.
  intros Henc Hsome Hnone Hdesc.
  destruct (dict_get c bins) as [b|] eqn:Hb.
  - destruct (Hsome b eq_refl) as (Hlen & b' & -> & Hlen').
    apply bind_Ok in Henc as (col0 & _ & Hcut).
    assert (Hcodes : exists codes, np_take b' col1 = Ok codes).
    { unfold pd_cut_codes in Hcut. repeat case_match; try done.
      apply mapM_Forall2, Forall2_exists_r in Hcut.
      apply mapM_total. eapply Forall_impl; [exact Hcut|].
      intros y (x & _ & (i & -> & Hi)%cut_code_range).
      apply np_getitem_total. lia. }
    destruct Hcodes as [codes ->]. by eexists.
  - rewrite (Hnone eq_refl).
    destruct (schema !! c) as [d|] eqn:Hd; [|by eexists].
    destruct (Hdesc d eq_refl eq_refl) as [(v & vs & Hv)|[Hv [m Hm]]].
    + rewrite Hv in Henc |- *. unfold astype_category_codes in Henc.
      apply bind_Ok in Henc as (dt & ->%CategoricalDtype_Ok & [= <-]).
      apply mapM_total, Forall_fmap, Forall_forall. intros x _. cbn.
      apply np_getitem_total. rewrite np_array_length.
      pose proof (category_code_range (v :: vs) x). cbn [length] in *. lia.
    + rewrite Hv, Hm in Henc |- *.
      apply bind_Ok in Henc as (c1 & _ & Henc).
      apply bind_Ok in Henc as (c2 & _ & Henc).
      apply bind_Ok in Henc as (c3 & _ & Henc).
      apply mapM_Forall2, Forall2_exists_r in Henc.
      apply mapM_total. eapply Forall_impl; [exact Henc|].
      intros y (x & _ & Hx). destruct x as [[]|]; try done.
      injection Hx as <-. by eexists.
Qed.

(** X14: the tables [discretize] returns can be decoded with the bin
    tables of [create_bins]: [undo_discretize] raises nothing on them, with
    or without [handle_inf], when every schema column of the table that
    has no bin table declares a non-empty [values] list or a [min]. *)
Theorem undo_discretize_total_on_codes (parse_numeric : string -> option num)
    (ds ds1 : DataFrame) (schema : gmap string desc)
    (bins_range : dict bin_range) (bins : dict (list num)) (handle_inf : bool) :
  NoDup (keys ds) ->
  create_bins bins_range = Ok bins ->
  discretize parse_numeric ds schema bins_range = Ok ds1 ->
  (forall c d, c ∈ keys ds -> dict_get c bins = None -> schema !! c = Some d ->
     (exists v vs, desc_values d = Some (v :: vs))
     \/ (desc_values d = None /\ is_Some (desc_min d))) ->
  exists ds2, undo_discretize ds1 schema bins handle_inf = Ok ds2.
Proof.
  intros Hnd Hb Henc Hdesc.
  destruct (create_bins_ok _ _ Hb) as [Hbnd Hball].
  pose proof (bins_ok_length bins (conj Hbnd Hball)) as Hlen.
  unfold discretize in Henc. rewrite Hb in Henc. cbn [mbind result_bind] in Henc.
  rewrite for_columns_keys in Henc by done.
  pose proof (map_columns_keys _ _ _ Henc) as Hk.
  apply map_columns_Forall2, Forall2_exists_r in Henc.
  rewrite undo_discretize_unfold.
  destruct (handle_inf_loop_total bins [] Hlen) as [bins0 Hbins0].
  assert (Hbins : exists bins',
            (if handle_inf then handle_inf_loop bins [] else Ok bins) = Ok bins')
    by (destruct handle_inf; by eexists).
  destruct Hbins as [bins' Hbins]. rewrite Hbins. cbn [mbind result_bind].
  rewrite for_columns_keys by (by rewrite Hk).
  apply map_columns_total. eapply Forall_impl; [exact Henc|].
  intros [k col1] ([k' col] & Hin & Hkk & Hcol). cbn in Hkk, Hcol |- *. subst k'.
  apply (undo_column_total parse_numeric schema bins bins' k col col1 Hcol).
  - intros b Hg. split.
    + rewrite Forall_forall in Hlen.
      assert (Hin' : (k, b) ∈ bins).
      { clear -Hg. induction bins as [|[k0 v] bins IH]; [done|]. cbn in Hg.
        case_decide; [injection Hg as ->; subst; left|right; by apply IH]. }
      apply Hlen in Hin'. cbn in Hin'. lia.
    + by apply (decoder_bins_Some bins bins' handle_inf).
  - intros Hg. by apply (decoder_bins_None _ _ _ _ Hg Hbins).
  - intros d Hg Hd. apply (Hdesc k d); [|done..].
    unfold keys. apply list_elem_of_fmap. by exists (k, col).
Qed.

Lemma undo_discretize_total_on_codes_witness :
  exists ds2,
    undo_discretize
      [("id", [Str "a7"]); ("AGE", [Num (Fin (-1))]); ("fare", [Num (Fin 2)])]
      {["AGE" := ordinal_null 0 (Str "N")]} [("fare", np_r_ [0; 10; 20])] true
    = Ok ds2.
Proof.
  apply (undo_discretize_total_on_codes parse_decimal
           [("id", [Str "a7"]); ("AGE", [Str "N"]); ("fare", [Num (Fin 17)])]
           [("id", [Str "a7"]); ("AGE", [Num (Fin (-1))]); ("fare", [Num (Fin 2)])]
           {["AGE" := ordinal_null 0 (Str "N")]}
           [("fare", continuous_spec 0 25 10)]
           [("fare", np_r_ [0; 10; 20])] true).
  - by_compute.
  - vm_compute. reflexivity.
  - vm_compute. reflexivity.
  - intros c d _ _ Hd. right.
    destruct (decide (c = "AGE")) as [->|Hne].
    + vm_compute in Hd. injection Hd as <-. split; [reflexivity|by eexists].
    + rewrite lookup_singleton_ne in Hd by done. discriminate.
Defined.

(** ** Ordinal and categorical columns: round trip and failures *)

(** X15: on an ordinal column without [has_null] and without a bin table,
    whose cells are integers or strings the parser reads as integers, with
    the values, [min] and the differences [z - min] all of magnitude at
    most [2^53] (where int64 and float64 arithmetic are both exact), every
    cell of value [z] is encoded as [z - min], below [min] too, and decoded
    as the number [z]: integers come back as they were, numeric strings as
    the numbers they spell. *)
Theorem ordinal_round_trip (parse_numeric : string -> option num)
    (schema : gmap string desc) (bins_range : dict bin_range)
    (bins : dict (list num)) (handle_inf : bool)
    (c : string) (d : desc) (m : Z) (col : Series) (zs : list Z) :
  schema !! c = Some d ->
  desc_values d = None ->
  desc_min d = Some m ->
  desc_has_null d = None ->
  create_bins bins_range = Ok bins ->
  dict_get c bins = None ->
  Forall2 (fun x z => x = Num (Fin z)
                      \/ exists s, x = Str s /\ parse_numeric s = Some (Fin z))
    col zs ->
  - 2 ^ 53 <= m <= 2 ^ 53 ->
  Forall (fun z => - 2 ^ 53 <= z <= 2 ^ 53 /\ - 2 ^ 53 <= z - m <= 2 ^ 53) zs ->
  discretize parse_numeric [(c, col)] schema bins_range
  = Ok [(c, (fun z => Num (Fin (z - m))) <$> zs)] /\
  undo_discretize [(c, (fun z => Num (Fin (z - m))) <$> zs)] schema bins
    handle_inf
  = Ok [(c, (fun z => Num (Fin z)) <$> zs)].
Proof.
  intros Hs Hv Hm Hh Hb Hc Hcol _ _. split.
  - apply (discretize_single _ _ _ _ _ _ _ Hb).
    unfold discretize_column. rewrite Hc, Hs, Hv, Hm, Hh.
    cbn [mbind result_bind]. unfold pd_to_numeric.
    assert (Hnum : mapM (fun x => match x with
                                  | Num _ => Ok x
                                  | Str s => match parse_numeric s with
                                             | Some n => Ok (Num n)
                                             | None => Raise ValueError
                                             end
                                  end) col
                   = Ok ((fun z => Num (Fin z)) <$> zs)).
    { induction Hcol as [|x z col zs Hx _ IH]; [done|]. cbn.
      destruct Hx as [->|(s & -> & ->)]; cbn; by rewrite IH. }
    rewrite Hnum. cbn [mbind result_bind]. unfold series_sub.
    rewrite (mapM_fmap_Ok _ _ (fun z => Num (Fin (z - m))))
      by (apply Forall_forall; intros z _; cbn; do 3 f_equal; lia).
    cbn [mbind result_bind]. unfold astype_int.
    rewrite <- (list_fmap_id (_ <$> zs)) at 2. rewrite <- list_fmap_compose.
    apply mapM_fmap_Ok. by apply Forall_forall.
  - rewrite (undo_discretize_single schema bins handle_inf c _
               (Ok ((fun z => Num (Fin z)) <$> zs)));
      [done|by apply (create_bins_ok bins_range)|done|].
    intros bins' Hc'. unfold undo_discretize_column.
    rewrite Hc', Hs, Hv, Hm. unfold series_iadd. apply mapM_fmap_Ok.
    apply Forall_forall. intros z _. cbn. do 3 f_equal. lia.
Qed.

Lemma ordinal_round_trip_witness :
  discretize parse_decimal [("AGE", [Num (Fin 42); Str "17"; Num (Fin 3)])]
    {["AGE" := {| desc_values := None; desc_min := Some 5;
                  desc_has_null := None; desc_null_value := None |}]} []
  = Ok [("AGE", (fun z => Num (Fin (z - 5))) <$> [42; 17; 3])] /\
  undo_discretize [("AGE", (fun z => Num (Fin (z - 5))) <$> [42; 17; 3])]
    {["AGE" := {| desc_values := None; desc_min := Some 5;
                  desc_has_null := None; desc_null_value := None |}]} [] true
  = Ok [("AGE", (fun z => Num (Fin z)) <$> [42; 17; 3])].
Proof.
  apply (ordinal_round_trip parse_decimal _ [] [] true "AGE"
           {| desc_values := None; desc_min := Some 5;
              desc_has_null := None; desc_null_value := None |} 5
           [Num (Fin 42); Str "17"; Num (Fin 3)] [42; 17; 3]).
  - vm_compute. reflexivity.
  - reflexivity.
  - reflexivity.
  - reflexivity.
  - reflexivity.
  - reflexivity.
  - constructor; [by left|].
    constructor; [right; exists "17"; split; reflexivity|].
    constructor; [by left|]. constructor.
  - lia.
  - by_compute.
Defined.

Lemma pd_to_numeric_elem parse_numeric (col col' : Series) (v : num) :
  pd_to_numeric parse_numeric col = Ok col' -> Num v ∈ col -> Num v ∈ col'.
Proof.
  intros H%mapM_Forall2 Hin. induction H as [|x y l k Hxy _ IH].
  - by apply elem_of_nil in Hin.
  - apply elem_of_cons in Hin as [<-|Hin]; [|right; by apply IH].
    injection Hxy as <-. left.
Qed.

Lemma series_sub_elem (col col' : Series) (m : Z) (v : num) :
  series_sub col m = Ok col' -> Num v ∈ col ->
  Num (num_add v (Fin (- m))) ∈ col'.
Proof.
  intros H%mapM_Forall2 Hin. induction H as [|x y l k Hxy _ IH].
  - by apply elem_of_nil in Hin.
  - apply elem_of_cons in Hin as [<-|Hin]; [|right; by apply IH].
    injection Hxy as <-. left.
Qed.

(** X16: on an ordinal column without [has_null] and without a bin table,
    one NaN or infinite cell, or one string the parser rejects, makes
    [discretize] raise ValueError. *)
Theorem ordinal_invalid_cell (parse_numeric : string -> option num)
    (schema : gmap string desc) (bins_range : dict bin_range)
    (bins : dict (list num)) (c : string) (d : desc) (m : Z) (col : Series) :
  schema !! c = Some d ->
  desc_values d = None ->
  desc_min d = Some m ->
  desc_has_null d = None ->
  create_bins bins_range = Ok bins ->
  dict_get c bins = None ->
  (exists v, Num v ∈ col /\ is_finite v = false)
  \/ (exists s, Str s ∈ col /\ parse_numeric s = None) ->
  discretize parse_numeric [(c, col)] schema bins_range = Raise ValueError.
Proof.
  intros Hs Hv Hm Hh Hb Hc Hbad.
  cut (discretize_column parse_numeric schema bins c col = Raise ValueError).
  { intros Hcol. unfold discretize. rewrite Hb. cbn [mbind result_bind].
    by rewrite for_columns_single, Hcol. }
  unfold discretize_column. rewrite Hc, Hs, Hv, Hm, Hh. cbn [mbind result_bind].
  assert (Hto : forall y e,
            match y with
            | Num _ => Ok y
            | Str s => match parse_numeric s with
                       | Some n => Ok (Num n)
                       | None => Raise ValueError
                       end
            end = Raise e -> e = ValueError).
  { intros [v|s] e; [done|]. by destruct (parse_numeric s); intros [=]. }
  destruct (pd_to_numeric parse_numeric col) as [col2|e] eqn:H2;
    cbn [mbind result_bind].
  - destruct Hbad as [(v & Hin & Hfin)|(s & Hin & Hp)].
    + destruct (series_sub col2 m) as [col3|e] eqn:H3; cbn [mbind result_bind].
      * pose proof (series_sub_elem _ _ _ _ H3
                      (pd_to_numeric_elem _ _ _ _ H2 Hin)) as Hin3.
        unfold astype_int.
        apply (mapM_Raise_only _ ValueError col3
                 (Num (num_add v (Fin (- m))))); [|exact Hin3|].
        -- intros [[]|] e; by intros [=].
        -- destruct v; try done; by eexists.
      * apply mapM_Forall2 in H2. exfalso.
        assert (Hnum : Forall (fun y => exists w, y = Num w) col2).
        { apply Forall2_exists_r in H2. eapply Forall_impl; [exact H2|].
          intros y (x & _ & Hx). destruct x as [w|s]; [injection Hx as <-; by eexists|].
          destruct (parse_numeric s); [injection Hx as <-; by eexists|done]. }
        assert (exists k, series_sub col2 m = Ok k) as [k Hk]; [|congruence].
        apply mapM_total. eapply Forall_impl; [exact Hnum|].
        intros y [w ->]. by eexists.
    + exfalso. unfold pd_to_numeric in H2.
      pose proof (mapM_Raise_only _ ValueError col (Str s) Hto Hin) as Hr.
      rewrite Hr in H2; [done|]. rewrite Hp. by eexists.
  - f_equal. unfold pd_to_numeric in H2.
    apply mapM_Raise_inv in H2 as (x & _ & Hx). by apply (Hto x).
Qed.

Lemma ordinal_invalid_cell_witness :
  discretize parse_decimal [("AGE", [Num (Fin 42); Num NaN])]
    {["AGE" := {| desc_values := None; desc_min := Some 5;
                  desc_has_null := None; desc_null_value := None |}]} []
  = Raise ValueError.
Proof.
  apply (ordinal_invalid_cell parse_decimal _ [] [] "AGE"
           {| desc_values := None; desc_min := Some 5;
              desc_has_null := None; desc_null_value := None |} 5
           [Num (Fin 42); Num NaN]).
  - vm_compute. reflexivity.
  - reflexivity.
  - reflexivity.
  - reflexivity.
  - reflexivity.
  - reflexivity.
  - left. exists NaN. split; [by_compute|reflexivity].
Defined.

(** X17: a descriptor that declares [has_null] is read for [null_value]
    before any cell is looked at.  On a binned column, [null_value] and
    [min] must both be there; on an ordinal column, [null_value]:
    otherwise [discretize] raises KeyError, on an empty column too. *)
Theorem has_null_missing_key (parse_numeric : string -> option num)
    (schema : gmap string desc) (bins_range : dict bin_range)
    (bins : dict (list num)) (c : string) (d : desc) (has_null : bool)
    (col : Series) :
  schema !! c = Some d ->
  desc_has_null d = Some has_null ->
  create_bins bins_range = Ok bins ->
  (is_Some (dict_get c bins)
   /\ (desc_null_value d = None \/ desc_min d = None))
  \/ (dict_get c bins = None /\ desc_values d = None
      /\ is_Some (desc_min d) /\ desc_null_value d = None) ->
  discretize parse_numeric [(c, col)] schema bins_range = Raise KeyError.
Proof.
  intros Hs Hh Hb Hcase.
  cut (discretize_column parse_numeric schema bins c col = Raise KeyError).
  { intros Hcol. unfold discretize. rewrite Hb. cbn [mbind result_bind].
    by rewrite for_columns_single, Hcol. }
  unfold discretize_column. rewrite Hs, Hh.
  destruct Hcase as [[[b ->] Hk]|(-> & -> & [m ->] & ->)]; [|done].
  destruct (desc_null_value d), (desc_min d); cbn; try done;
    by destruct Hk.
Qed.

Lemma has_null_missing_key_witness :
  discretize parse_decimal [("fare", [])]
    {["fare" := {| desc_values := None; desc_min := None;
                   desc_has_null := Some true;
                   desc_null_value := Some (Str "N") |}]}
    [("fare", continuous_spec 0 25 10)]
  = Raise KeyError.
Proof.
  apply (has_null_missing_key parse_decimal _
           [("fare", continuous_spec 0 25 10)] [("fare", np_r_ [0; 10; 20])]
           "fare"
           {| desc_values := None; desc_min := None;
              desc_has_null := Some true;
              desc_null_value := Some (Str "N") |} true []).
  - vm_compute. reflexivity.
  - reflexivity.
  - vm_compute. reflexivity.
  - left. split; [by eexists|]. right. reflexivity.
Defined.

(** X18: a categorical column whose declared values repeat, or hold NaN,
    cannot be encoded: [discretize] raises ValueError whatever the column
    holds, an empty column included. *)
Theorem categorical_invalid_values (parse_numeric : string -> option num)
    (schema : gmap string desc) (bins_range : dict bin_range)
    (bins : dict (list num)) (c : string) (d : desc) (values : list cell)
    (col : Series) :
  schema !! c = Some d ->
  desc_values d = Some values ->
  create_bins bins_range = Ok bins ->
  dict_get c bins = None ->
  ~ NoDup values \/ Num NaN ∈ values ->
  discretize parse_numeric [(c, col)] schema bins_range = Raise ValueError.
Proof.
  intros Hs Hv Hb Hc Hbad.
  cut (discretize_column parse_numeric schema bins c col = Raise ValueError).
  { intros Hcol. unfold discretize. rewrite Hb. cbn [mbind result_bind].
    by rewrite for_columns_single, Hcol. }
  unfold discretize_column, astype_category_codes, CategoricalDtype.
  rewrite Hc, Hs, Hv. case_bool_decide; [done|].
  case_bool_decide; [|done]. by destruct Hbad.
Qed.

Lemma categorical_invalid_values_witness :
  discretize parse_decimal [("SEX", [])]
    {["SEX" := categorical [Num (Fin 1); Num (Fin 2); Num (Fin 1)]]} []
  = Raise ValueError.
Proof.
  apply (categorical_invalid_values parse_decimal _ [] [] "SEX"
           (categorical [Num (Fin 1); Num (Fin 2); Num (Fin 1)])
           [Num (Fin 1); Num (Fin 2); Num (Fin 1)] []).
  - vm_compute. reflexivity.
  - reflexivity.
  - reflexivity.
  - reflexivity.
  - left. by_compute.
Defined.

Lemma np_index_Raise (n : nat) (i : Z) (e : exn) :
  np_index n i = Raise e -> e = IndexError.
Proof. unfold np_index. case_bool_decide; congruence. Qed.

Lemma np_getitem_Raise {A} (arr : list A) (i : Z) (e : exn) :
  np_getitem arr i = Raise e -> e = IndexError.
Proof.
  unfold np_getitem. destruct (np_index (length arr) i) as [k|e'] eqn:Hk; cbn.
  - destruct (arr !! k); congruence.
  - intros [= <-]. by apply np_index_Raise in Hk.
Qed.

Lemma handle_inf_bin_Raise (b : list num) (e : exn) :
  handle_inf_bin b = Raise e -> e = IndexError.
Proof.
  unfold handle_inf_bin, np_setitem.
  destruct (np_getitem b (-2)) as [y|e'] eqn:Hy; cbn.
  - destruct (np_index (length b) (-1)) as [k|e''] eqn:Hk; cbn; [done|].
    intros [= <-]. by apply np_index_Raise in Hk.
  - intros [= <-]. by apply np_getitem_Raise in Hy.
Qed.

Lemma handle_inf_bin_short (b : list num) :
  (length b < 2)%nat -> handle_inf_bin b = Raise IndexError.
Proof.
  intros Hl. unfold handle_inf_bin, np_getitem, np_index.
  by rewrite bool_decide_false by lia.
Qed.

Lemma handle_inf_loop_short (items acc : dict (list num)) (k : string)
    (b : list num) :
  (k, b) ∈ items -> (length b < 2)%nat ->
  handle_inf_loop items acc = Raise IndexError.
Proof.
  intros Hin Hl. revert acc.
  induction items as [|[k' b'] items IH]; intros acc.
  - by apply elem_of_nil in Hin.
  - cbn. destruct (handle_inf_bin b') as [b''|e] eqn:Hb; cbn.
    + apply elem_of_cons in Hin as [[= <- <-]|Hin]; [|by apply IH].
      by rewrite handle_inf_bin_short in Hb.
    + by rewrite (handle_inf_bin_Raise _ _ Hb).
Qed.

(** X19: with [handle_inf], one bin table of fewer than two cut points
    makes [undo_discretize] raise IndexError before any column is decoded:
    on every table, the empty one included, whether or not the table has
    the column. *)
Theorem handle_inf_short_table (ds : DataFrame) (schema : gmap string desc)
    (bins : dict (list num)) (k : string) (b : list num) :
  (k, b) ∈ bins ->
  (length b < 2)%nat ->
  undo_discretize ds schema bins true = Raise IndexError.
Proof.
  intros Hin Hl. rewrite undo_discretize_unfold.
  by rewrite (handle_inf_loop_short bins [] k b Hin Hl).
Qed.

Lemma handle_inf_short_table_witness :
  undo_discretize [("AGE", [Num (Fin 3)])] ∅ [("fare", [PosInf])] true
  = Raise IndexError.
Proof.
  apply (handle_inf_short_table [("AGE", [Num (Fin 3)])] ∅
           [("fare", [PosInf])] "fare" [PosInf]).
  - by_compute.
  - vm_compute. lia.
Defined.

(** X20: decoding a categorical code [i] against [n] declared values: a
    code from [0] to [n - 1] yields the entry at [i] of the array of the
    values, a code from [-n] to [-1] the entry at [n + i], counted from
    the end, and every other code, like every cell that is not an integer,
    raises IndexError. *)
Theorem categorical_decode_index (schema : gmap string desc)
    (bins_range : dict bin_range) (bins : dict (list num)) (handle_inf : bool)
    (c : string) (d : desc) (values : list cell) :
  schema !! c = Some d ->
  desc_values d = Some values ->
  create_bins bins_range = Ok bins ->
  dict_get c bins = None ->
  let n := Z.of_nat (length values) in
  (forall i, 0 <= i < n ->
     exists x, np_array values !! Z.to_nat i = Some x /\
       undo_discretize [(c, [Num (Fin i)])] schema bins handle_inf
       = Ok [(c, [x])]) /\
  (forall i, - n <= i < 0 ->
     exists x, np_array values !! Z.to_nat (n + i) = Some x /\
       undo_discretize [(c, [Num (Fin i)])] schema bins handle_inf
       = Ok [(c, [x])]) /\
  (forall i, i < - n \/ n <= i ->
     undo_discretize [(c, [Num (Fin i)])] schema bins handle_inf
     = Raise IndexError) /\
  (forall x, (forall i, x <> Num (Fin i)) ->
     undo_discretize [(c, [x])] schema bins handle_inf = Raise IndexError).
Proof.
  intros Hs Hv Hb Hc n.
  pose proof (create_bins_ok _ _ Hb) as Hok.
  assert (Hcol : forall col r,
            np_take (np_array values) col = r ->
            undo_discretize [(c, col)] schema bins handle_inf
            = (col' ← r; mret [(c, col')])).
  { intros col r <-. apply undo_discretize_single; [done..|].
    intros bins' Hc'. unfold undo_discretize_column. by rewrite Hc', Hs, Hv. }
  assert (Hidx : forall i, - n <= i < n ->
            exists x, np_array values !! Z.to_nat (i `mod` n) = Some x /\
              undo_discretize [(c, [Num (Fin i)])] schema bins handle_inf
              = Ok [(c, [x])]).
  { intros i Hi.
    pose proof (Z.mod_pos_bound i n ltac:(lia)) as Hm.
    destruct (lookup_lt_is_Some_2 (np_array values) (Z.to_nat (i `mod` n)))
      as [x Hx]; [rewrite np_array_length; lia|].
    exists x. split; [done|]. rewrite (Hcol _ (Ok [x])); [done|].
    cbn. unfold np_getitem, np_index. rewrite np_array_length. fold n.
    rewrite bool_decide_true by done. cbn. by rewrite Hx. }
  split; [|split; [|split]].
  - intros i Hi. destruct (Hidx i ltac:(lia)) as (x & Hx & Hu).
    rewrite Z.mod_small in Hx by lia. by exists x.
  - intros i Hi. destruct (Hidx i ltac:(lia)) as (x & Hx & Hu).
    replace (i `mod` n) with (n + i) in Hx; [by exists x|].
    replace i with ((n + i) + (-1) * n) at 2 by lia.
    rewrite Z.mod_add by lia. by rewrite Z.mod_small by lia.
  - intros i Hi. rewrite (Hcol _ (Raise IndexError)); [done|].
    cbn. unfold np_getitem, np_index. rewrite np_array_length. fold n.
    by rewrite bool_decide_false by lia.
  - intros x Hx. rewrite (Hcol _ (Raise IndexError)); [done|].
    cbn. destruct x as [[]|]; try done. by destruct (Hx z).
Qed.

Lemma categorical_decode_index_witness :
  let n := Z.of_nat (length [Str "N"; Str "1"; Str "2"]) in
  (forall i, 0 <= i < n ->
     exists x, np_array [Str "N"; Str "1"; Str "2"] !! Z.to_nat i = Some x /\
       undo_discretize [("SEX", [Num (Fin i)])]
         {["SEX" := categorical [Str "N"; Str "1"; Str "2"]]} [] true
       = Ok [("SEX", [x])]) /\
  (forall i, - n <= i < 0 ->
     exists x, np_array [Str "N"; Str "1"; Str "2"] !! Z.to_nat (n + i) = Some x /\
       undo_discretize [("SEX", [Num (Fin i)])]
         {["SEX" := categorical [Str "N"; Str "1"; Str "2"]]} [] true
       = Ok [("SEX", [x])]) /\
  (forall i, i < - n \/ n <= i ->
     undo_discretize [("SEX", [Num (Fin i)])]
       {["SEX" := categorical [Str "N"; Str "1"; Str "2"]]} [] true
     = Raise IndexError) /\
  (forall x, (forall i, x <> Num (Fin i)) ->
     undo_discretize [("SEX", [x])]
       {["SEX" := categorical [Str "N"; Str "1"; Str "2"]]} [] true
     = Raise IndexError).
Proof.
  apply (categorical_decode_index
           {["SEX" := categorical [Str "N"; Str "1"; Str "2"]]} [] [] true
           "SEX" (categorical [Str "N"; Str "1"; Str "2"])
           [Str "N"; Str "1"; Str "2"]).
  - vm_compute. reflexivity.
  - reflexivity.
  - reflexivity.
  - reflexivity.
Defined.

(** ** [df_filter]: composition, order, exactness, failure *)

Lemma df_filter_loop_app (fs1 fs2 : list (string * list cell)) (data : DataFrame) :
  df_filter_loop (fs1 ++ fs2) data
  = (d ← df_filter_loop fs1 data; df_filter_loop fs2 d).
Proof.
  revert data. induction fs1 as [|[f S] fs1 IH]; intros data; [done|].
  cbn. destruct (dict_get f data); cbn; [apply IH|done].
Qed.

Lemma df_filter_loop_swap (c1 c2 : string * list cell)
    (fs : list (string * list cell)) (data : DataFrame) :
  df_filter_loop (c1 :: c2 :: fs) data = df_filter_loop (c2 :: c1 :: fs) data.
Proof.
  destruct c1 as [f1 S1], c2 as [f2 S2]. cbn [df_filter_loop].
  destruct (dict_get f1 data) as [col1|] eqn:H1,
           (dict_get f2 data) as [col2|] eqn:H2;
    cbn [getitem mbind result_bind];
    rewrite ?dict_get_df_mask, ?H1, ?H2;
    cbn [getitem mbind result_bind fmap option_fmap option_map];
    try done.
  by rewrite !isin_mask_select, !df_mask_twice, zip_with_andb_comm.
Qed.

(** X21: filtering by a list of constraints is filtering by its first part
    and then filtering the result by the rest. *)
Theorem df_filter_app (data : DataFrame) (fs1 fs2 : list (string * list cell)) :
  df_filter data (Some (fs1 ++ fs2))
  = (d ← df_filter data (Some fs1); df_filter d (Some fs2)).
Proof.
  rewrite df_filter_Some, df_filter_loop_app, (df_filter_Some data fs1).
  destruct (df_filter_loop fs1 data) as [d|]; [|done].
  cbn [mbind result_bind]. by rewrite df_filter_Some.
Qed.

(** X22: the result of [df_filter], a failure included, does not depend on
    the order of the constraints. *)
Theorem df_filter_permutation (data : DataFrame)
    (fs fs' : list (string * list cell)) :
  fs ≡ₚ fs' -> df_filter data (Some fs) = df_filter data (Some fs').
Proof.
  intros Hp. rewrite !df_filter_Some. revert data.
  induction Hp as [|c fs fs' _ IH|c1 c2 fs|fs1 fs2 fs3 _ IH1 _ IH2]; intros data.
  - done.
  - destruct c as [f S]. cbn. destruct (dict_get f data); cbn; [apply IH|done].
  - apply df_filter_loop_swap.
  - by rewrite IH1.
Qed.

Lemma df_filter_permutation_witness :
  df_filter [("SEX", [Num (Fin 1); Num (Fin 2)]); ("PUMA", [Str "a"; Str "b"])]
    (Some [("SEX", [Num (Fin 1)]); ("PUMA", [Str "a"]); ("SEX", [Num (Fin 2)])])
  = df_filter [("SEX", [Num (Fin 1); Num (Fin 2)]); ("PUMA", [Str "a"; Str "b"])]
      (Some [("SEX", [Num (Fin 2)]); ("SEX", [Num (Fin 1)]); ("PUMA", [Str "a"])]).
Proof.
  apply (df_filter_permutation
           [("SEX", [Num (Fin 1); Num (Fin 2)]); ("PUMA", [Str "a"; Str "b"])]).
  change [("SEX", [Num (Fin 2)]); ("SEX", [Num (Fin 1)]); ("PUMA", [Str "a"])]
    with ([("SEX", [Num (Fin 2)])]
          ++ [("SEX", [Num (Fin 1)]); ("PUMA", [Str "a"])]).
  change [("SEX", [Num (Fin 1)]); ("PUMA", [Str "a"]); ("SEX", [Num (Fin 2)])]
    with ([("SEX", [Num (Fin 1)]); ("PUMA", [Str "a"])]
          ++ [("SEX", [Num (Fin 2)])]).
  apply Permutation_app_comm.
Defined.

Lemma keys_df_mask (data : DataFrame) (mask : list bool) :
  keys (df_mask data mask) = keys data.
Proof.
  unfold keys, df_mask. rewrite <- list_fmap_compose.
  apply list_fmap_ext. by intros i [k col] _.
Qed.

(** X23: [df_filter] fails exactly when a constraint names a field that is
    not a column, and then with KeyError, wherever the constraint stands
    and whatever the other constraints select. *)
Theorem df_filter_KeyError (data : DataFrame) (fs : list (string * list cell)) :
  (Exists (fun c => c.1 ∉ keys data) fs
   <-> df_filter data (Some fs) = Raise KeyError) /\
  (forall e, df_filter data (Some fs) = Raise e -> e = KeyError).
Proof.
  rewrite df_filter_Some.
  assert (H : forall data,
            (Exists (fun c => c.1 ∉ keys data) fs
             -> df_filter_loop fs data = Raise KeyError)
            /\ (forall e, df_filter_loop fs data = Raise e ->
                  e = KeyError /\ Exists (fun c => c.1 ∉ keys data) fs)).
  { induction fs as [|[f S] fs IH]; intros d.
    - split; [by intros ?%Exists_nil|done].
    - cbn. destruct (dict_get f d) as [col|] eqn:Hg; cbn.
      + destruct (IH (df_mask d (isin col S))) as [IH1 IH2].
        rewrite keys_df_mask in IH1, IH2. split.
        * intros [Hf|Hex]%Exists_cons; [|by apply IH1].
          cbn in Hf. apply dict_get_None in Hf. congruence.
        * intros e He. destruct (IH2 e He) as [-> Hex].
          split; [done|by apply Exists_cons_tl].
      + split; [done|]. intros e [= <-]. split; [done|].
        apply Exists_cons_hd. cbn. by apply dict_get_None. }
  destruct (H data) as [H1 H2]. split; [split; [done|]|].
  - intros He. by apply (H2 KeyError).
  - intros e He. by apply (H2 e).
Qed.

Lemma zip_with_andb_assoc (a b c : list bool) :
  zip_with andb (zip_with andb a b) c = zip_with andb a (zip_with andb b c).
Proof.
  revert b c. induction a as [|x a IH]; intros [|y b] [|z c]; cbn; try done.
  by rewrite IH, andb_assoc.
Qed.

Lemma zip_with_andb_diag (a : list bool) : zip_with andb a a = a.
Proof. induction a as [|x a IH]; cbn; [done|]. by rewrite IH, andb_diag. Qed.

Lemma mask_select_all {A} (l : list A) (n : nat) :
  (length l <= n)%nat -> mask_select (replicate n true) l = l.
Proof.
  revert n. induction l as [|x l IH]; intros n Hn.
  - apply mask_select_nil_r.
  - destruct n as [|n]; cbn in Hn |- *; [lia|]. rewrite IH; [done|lia].
Qed.

Lemma df_mask_all (data : DataFrame) (n : nat) :
  df_rows n data -> df_mask data (replicate n true) = data.
Proof.
  unfold df_rows, df_mask. induction 1 as [|[k col] data Hc _ IH]; [done|].
  cbn in Hc |- *. rewrite IH, mask_select_all by lia. done.
Qed.

(** Filtering an already masked table is masking the table once. *)
Lemma df_filter_loop_mask (fs : list (string * list cell)) (data : DataFrame)
    (m : list bool) :
  df_filter_loop fs (df_mask data m)
  = (M ← filters_mask fs data m; Ok (df_mask data M)).
Proof.
  revert m. induction fs as [|[f S] fs IH]; intros m; [done|].
  cbn. rewrite dict_get_df_mask. destruct (dict_get f data) as [col|]; [|done].
  cbn. by rewrite isin_mask_select, df_mask_twice, IH.
Qed.

Lemma filters_mask_and (fs : list (string * list cell)) (data : DataFrame)
    (a b : list bool) :
  filters_mask fs data (zip_with andb a b)
  = (M ← filters_mask fs data b; Ok (zip_with andb a M)).
Proof.
  revert b. induction fs as [|[f S] fs IH]; intros b; [done|].
  cbn. destruct (dict_get f data) as [col|]; [|done].
  cbn. by rewrite zip_with_andb_assoc, IH.
Qed.

(** The final mask is below the mask of every constraint. *)
Lemma filters_mask_absorb (fs : list (string * list cell)) (data : DataFrame)
    (m M : list bool) (f : string) (S : list cell) :
  filters_mask fs data m = Ok M -> (f, S) ∈ fs ->
  exists col, dict_get f data = Some col /\ zip_with andb M (isin col S) = M.
Proof.
  revert m. induction fs as [|[f0 S0] fs IH]; intros m Hm Hin.
  - by apply elem_of_nil in Hin.
  - cbn in Hm. destruct (dict_get f0 data) as [col|] eqn:Hg; [|done].
    cbn in Hm. apply elem_of_cons in Hin as [[= -> ->]|Hin]; [|by eapply IH].
    exists col. split; [done|].
    rewrite zip_with_andb_comm, filters_mask_and in Hm.
    apply bind_Ok in Hm as (M' & _ & [= <-]).
    rewrite (zip_with_andb_comm _ (isin col S0)), <- zip_with_andb_assoc.
    by rewrite zip_with_andb_diag.
Qed.

Lemma filters_mask_fixed (fs : list (string * list cell)) (data : DataFrame)
    (M : list bool) :
  (forall f S, (f, S) ∈ fs ->
     exists col, dict_get f data = Some col /\ zip_with andb M (isin col S) = M) ->
  filters_mask fs data M = Ok M.
Proof.
  induction fs as [|[f S] fs IH]; intros H; [done|].
  destruct (H f S ltac:(left)) as (col & Hg & Hz).
  cbn. rewrite Hg. cbn. rewrite Hz. apply IH.
  intros f' S' Hin. apply H. by right.
Qed.

(** X24: filtering the result of [df_filter] again by the same constraints
    changes nothing. *)
Theorem df_filter_idempotent (data d : DataFrame)
    (fs : list (string * list cell)) :
  df_filter data (Some fs) = Ok d -> df_filter d (Some fs) = Ok d.
Proof.
  rewrite !df_filter_Some. destruct fs as [|[f S] fs]; [done|].
  cbn [df_filter_loop]. destruct (dict_get f data) as [col|] eqn:Hg; [|done].
  cbn [getitem mbind result_bind]. rewrite df_filter_loop_mask.
  intros (M & HM & [= <-])%bind_Ok.
  change (df_filter_loop ((f, S) :: fs) (df_mask data M) = Ok (df_mask data M)).
  rewrite df_filter_loop_mask.
  rewrite (filters_mask_fixed ((f, S) :: fs) data M); [done|].
  intros f' S' Hin.
  apply (filters_mask_absorb ((f, S) :: fs) data (replicate (length col) true) M);
    [|done].
  cbn. rewrite Hg. cbn.
  replace (zip_with andb (replicate (length col) true) (isin col S))
    with (isin col S); [done|].
  unfold isin. clear. induction col as [|x col IH]; cbn; [done|]. by rewrite <- IH.
Qed.

Lemma df_filter_idempotent_witness :
  df_filter [("SEX", [Num (Fin 1)]); ("PUMA", [Str "a"])]
    (Some [("SEX", [Num (Fin 1)]); ("PUMA", [Str "a"; Str "c"])])
  = Ok [("SEX", [Num (Fin 1)]); ("PUMA", [Str "a"])].
Proof.
  apply (df_filter_idempotent
           [("SEX", [Num (Fin 1); Num (Fin 2); Num (Fin 1)]);
            ("PUMA", [Str "a"; Str "a"; Str "b"])]).
  vm_compute. reflexivity.
Defined.

Lemma dict_get_rows (data : DataFrame) (n : nat) (f : string) (col : Series) :
  df_rows n data -> dict_get f data = Some col -> length col = n.
Proof.
  unfold df_rows. induction 1 as [|[k c] data Hc _ IH]; [done|]. cbn.
  case_decide; [by intros [= <-]|done].
Qed.

Lemma filters_mask_spec (fs : list (string * list cell)) (data : DataFrame)
    (n : nat) (m M : list bool) :
  df_rows n data -> length m = n ->
  filters_mask fs data m = Ok M ->
  length M = n /\
  forall i, M !! i = Some true <->
    m !! i = Some true /\
    forall f S, (f, S) ∈ fs ->
      exists col x, dict_get f data = Some col /\ col !! i = Some x /\ x ∈ S.
Proof.
  intros Hrows. revert m. induction fs as [|[f S] fs IH]; intros m Hlen; cbn.
  - intros [= <-]. split; [done|]. intros i. split; [|by intros [? _]].
    intros Hi. split; [done|]. by intros f S ?%elem_of_nil.
  - destruct (dict_get f data) as [col|] eqn:Hg; [|done]. cbn. intros HM.
    pose proof (dict_get_rows _ _ _ _ Hrows Hg) as Hcol.
    assert (length (zip_with andb m (isin col S)) = n) as Hz.
    { rewrite length_zip_with. unfold isin. rewrite length_fmap. lia. }
    destruct (IH _ Hz HM) as [HlM Hchar]. clear Hz.
    split; [done|]. intros i. rewrite Hchar, lookup_zip_with.
    unfold isin. rewrite list_lookup_fmap.
    split.
    + intros [Hz Hall].
      destruct (m !! i) as [b|] eqn:Hm; [|done].
      destruct (col !! i) as [x|] eqn:Hx; [|done]. cbn in Hz.
      injection Hz as Hz. apply andb_true_iff in Hz as [-> Hin].
      apply bool_decide_eq_true in Hin. split; [done|].
      intros f' S' [[= -> ->]|Hin']%elem_of_cons; [|by apply Hall].
      by exists col, x.
    + intros [Hm Hall]. split; [|intros f' S' Hin'; apply Hall; by right].
      destruct (Hall f S ltac:(left)) as (col' & x & Hg' & Hx & Hin).
      replace col' with col in * by congruence.
      rewrite Hm, Hx. cbn. by rewrite bool_decide_true.
Qed.

(** X25: on a rectangular table [df_filter] keeps exactly the rows that
    meet every constraint, in their order: its result is the table masked
    by a mask that is true at the rows whose value in each constrained
    column is in that constraint's list, and nowhere else. *)
Theorem df_filter_exact (data d : DataFrame) (n : nat)
    (fs : list (string * list cell)) :
  df_rows n data ->
  df_filter data (Some fs) = Ok d ->
  exists M : list bool,
    length M = n /\ d = df_mask data M /\
    forall i, (i < n)%nat ->
      M !! i = Some true <->
      forall f S, (f, S) ∈ fs ->
        exists col x, dict_get f data = Some col /\ col !! i = Some x /\ x ∈ S.
Proof.
  intros Hrows. rewrite df_filter_Some.
  rewrite <- (df_mask_all data n Hrows) at 1. rewrite df_filter_loop_mask.
  intros (M & HM & [= <-])%bind_Ok.
  destruct (filters_mask_spec fs data n _ M Hrows (length_replicate _ _) HM)
    as [Hlen Hchar].
  exists M. split; [done|]. split; [done|]. intros i Hi.
  rewrite Hchar. split; [by intros [_ ?]|]. intros H. split; [|done].
  by apply lookup_replicate_2.
Qed.

Lemma df_filter_exact_witness :
  exists M : list bool,
    length M = 3%nat /\
    [("SEX", [Num (Fin 1)]); ("PUMA", [Str "a"])]
    = df_mask [("SEX", [Num (Fin 1); Num (Fin 2); Num (Fin 1)]);
               ("PUMA", [Str "a"; Str "a"; Str "b"])] M /\
    forall i, (i < 3)%nat ->
      M !! i = Some true <->
      forall f S, (f, S) ∈ [("SEX", [Num (Fin 1)]); ("PUMA", [Str "a"; Str "c"])] ->
        exists col x,
          dict_get f [("SEX", [Num (Fin 1); Num (Fin 2); Num (Fin 1)]);
                      ("PUMA", [Str "a"; Str "a"; Str "b"])] = Some col
          /\ col !! i = Some x /\ x ∈ S.
Proof.
  apply (df_filter_exact
           [("SEX", [Num (Fin 1); Num (Fin 2); Num (Fin 1)]);
            ("PUMA", [Str "a"; Str "a"; Str "b"])]
           [("SEX", [Num (Fin 1)]); ("PUMA", [Str "a"])] 3
           [("SEX", [Num (Fin 1)]); ("PUMA", [Str "a"; Str "c"])]).
  - by_compute.
  - vm_compute. reflexivity.
Defined.

(** ** [to_num] *)

Lemma fmap_mask_select {A B} (g : A -> B) (m : list bool) (l : list A) :
  g <$> mask_select m l = mask_select m (g <$> l).
Proof.
  revert l. induction m as [|b m IH]; intros [|x l]; cbn; try done.
  destruct b; cbn; by rewrite IH.
Qed.

Lemma elem_of_mask_select {A} (m : list bool) (l : list A) (x : A) :
  x ∈ mask_select m l <-> exists i, m !! i = Some true /\ l !! i = Some x.
Proof.
  revert l. induction m as [|b m IH]; intros l.
  - cbn. split; [by intros ?%elem_of_nil|by intros (i & ? & _)].
  - destruct l as [|y l].
    + rewrite mask_select_nil_r. split; [by intros ?%elem_of_nil|by intros (i & _ & ?)].
    + cbn. destruct b.
      * rewrite elem_of_cons, IH. split.
        -- intros [->|(i & ? & ?)]; [by exists 0%nat|by exists (S i)].
        -- intros ([|i] & Hm & Hl); cbn in *; [left; congruence|right; by exists i].
      * rewrite IH. split.
        -- intros (i & ? & ?). by exists (S i).
        -- intros ([|i] & Hm & Hl); cbn in *; [done|by exists i].
Qed.

Lemma mask_select_length {A B} (m : list bool) (l : list A) (k : list B) :
  length l = length m -> length k = length m ->
  length (mask_select m l) = length (mask_select m k).
Proof.
  revert l k. induction m as [|b m IH]; intros [|x l] [|y k]; cbn; try done.
  intros [= Hl] [= Hk]. destruct b; cbn; by rewrite (IH l k).
Qed.

Lemma df_rows_df_mask (data : DataFrame) (n : nat) (m : list bool) :
  df_rows n data -> length m = n ->
  df_rows (length (mask_select m m)) (df_mask data m).
Proof.
  unfold df_rows, df_mask. intros H Hm. apply Forall_fmap.
  eapply Forall_impl; [exact H|]. intros [k col] Hc. cbn in *.
  apply mask_select_length; congruence.
Qed.

Lemma dict_get_elem_of {V} (d : dict V) (k : string) (v : V) :
  NoDup (keys d) -> (k, v) ∈ d -> dict_get k d = Some v.
Proof.
  unfold keys. induction d as [|[k' v'] d IH]; cbn; intros Hnd Hin.
  - by apply elem_of_nil in Hin.
  - apply NoDup_cons in Hnd as [Hk Hnd].
    apply elem_of_cons in Hin as [[= -> ->]|Hin]; [by rewrite decide_True|].
    case_decide as Heq; [|by apply IH]. subst k'. exfalso. apply Hk.
    apply (list_elem_of_fmap_2 fst _ (k, v)). done.
Qed.

Lemma elem_of_dict_get {V} (d : dict V) (k : string) (v : V) :
  dict_get k d = Some v -> (k, v) ∈ d.
Proof.
  induction d as [|[k' v'] d IH]; cbn; [done|].
  case_decide; [intros [= ->]; subst; left|intros ?; right; by apply IH].
Qed.

(** The first loop never fails on the table's own labels; it keeps, of the
    rows selected by [m], those where none of the listed columns holds
    ["N"]. *)
Lemma to_num_drop_spec (columns : list string) (data : DataFrame) (n : nat)
    (m : list bool) :
  df_rows n data -> length m = n ->
  (forall f, f ∈ columns -> f ∈ keys data) ->
  exists M,
    to_num_drop columns (df_mask data m) = Ok (df_mask data M)
    /\ length M = n
    /\ forall i, M !! i = Some true <->
         m !! i = Some true /\
         forall f col, f ∈ columns -> dict_get f data = Some col ->
                       col !! i <> Some (Str "N").
Proof.
  intros Hrows. revert m.
  induction columns as [|f columns IH]; intros m Hlen Hsub.
  - exists m. split; [done|]. split; [done|]. intros i.
    split; [|by intros [? _]]. intros Hi. split; [done|].
    by intros f col ?%elem_of_nil.
  - destruct (dict_get f data) as [col|] eqn:Hg.
    2: { apply dict_get_None in Hg. destruct Hg. apply Hsub. left. }
    pose proof (dict_get_rows _ _ _ _ Hrows Hg) as Hcol.
    destruct (IH (zip_with andb m (negb <$> isin col [Str "N"]))) as (M & HM & HlM & Hchar).
    { rewrite length_zip_with, length_fmap. unfold isin. rewrite length_fmap. lia. }
    { intros f' Hf'. apply Hsub. by right. }
    exists M. split; [|split; [done|]].
    + cbn. rewrite dict_get_df_mask, Hg. cbn.
      by rewrite isin_mask_select, fmap_mask_select, df_mask_twice.
    + intros i. rewrite Hchar, lookup_zip_with, list_lookup_fmap. unfold isin.
      rewrite list_lookup_fmap. split.
      * intros [Hz Hall].
        destruct (m !! i) as [b|] eqn:Hm; [|done].
        destruct (col !! i) as [x|] eqn:Hx; [|done]. cbn in Hz.
        injection Hz as Hz. apply andb_true_iff in Hz as [-> Hin].
        apply negb_true_iff, bool_decide_eq_false in Hin. split; [done|].
        intros f' col' [->|Hin']%elem_of_cons Hg'; [|by eapply Hall].
        replace col' with col by congruence. rewrite Hx. intros [= ->].
        apply Hin. left.
      * intros [Hm Hall]. split; [|intros f' col' Hin'; apply Hall; by right].
        rewrite Hm. cbn.
        destruct (col !! i) as [x|] eqn:Hx.
        2: { apply lookup_ge_None in Hx. apply lookup_lt_Some in Hm. lia. }
        cbn. f_equal. apply negb_true_iff, bool_decide_eq_false.
        intros ->%list_elem_of_singleton. by apply (Hall f col ltac:(left) Hg).
Qed.

(** The first loop on a whole table. *)
Lemma to_num_drop_table (data : DataFrame) (n : nat) :
  df_rows n data ->
  exists M,
    to_num_drop (keys data) data = Ok (df_mask data M)
    /\ length M = n
    /\ forall i, (i < n)%nat ->
         M !! i = Some true <->
         forall f col, dict_get f data = Some col -> col !! i <> Some (Str "N").
Proof.
  intros Hrows.
  destruct (to_num_drop_spec (keys data) data n (replicate n true) Hrows
              (length_replicate _ _) (fun f H => H)) as (M & HM & Hlen & Hchar).
  rewrite (df_mask_all data n Hrows) in HM.
  exists M. split; [done|]. split; [done|]. intros i Hi. rewrite Hchar. split.
  - intros [_ H] f col Hg. apply (H f col); [|done]. by eapply dict_get_Some_keys.
  - intros H. split; [by apply lookup_replicate_2|]. intros f col _. apply (H f col).
Qed.

Lemma to_num_unfold parse_numeric (data : DataFrame) (M : list bool) :
  NoDup (keys data) ->
  to_num_drop (keys data) data = Ok (df_mask data M) ->
  to_num parse_numeric data
  = map_columns (fun _ col => pd_to_numeric parse_numeric col) (df_mask data M).
Proof.
  intros Hnd HM. unfold to_num. rewrite HM. cbn [mbind result_bind].
  apply for_columns_keys. by rewrite keys_df_mask.
Qed.

Lemma pd_to_numeric_is_num parse_numeric (col col' : Series) :
  pd_to_numeric parse_numeric col = Ok col' -> Forall is_num col'.
Proof.
  intros H%mapM_Forall2. induction H as [|x y l k Hxy _ IH]; [constructor|].
  constructor; [|done]. destruct x as [v|s].
  - injection Hxy as <-. by exists v.
  - destruct (parse_numeric s) as [v|]; [|done]. injection Hxy as <-. by exists v.
Qed.

Lemma pd_to_numeric_nums parse_numeric (col : Series) :
  Forall is_num col -> pd_to_numeric parse_numeric col = Ok col.
Proof.
  intros H. unfold pd_to_numeric. rewrite <- (list_fmap_id col) at 2.
  apply mapM_all_Ok. eapply Forall_impl; [exact H|]. by intros x [v ->].
Qed.

Lemma pd_to_numeric_ValueError parse_numeric (col : Series) (e : exn) :
  pd_to_numeric parse_numeric col = Raise e -> e = ValueError.
Proof.
  intros (x & _ & Hx)%mapM_Raise_inv. destruct x as [v|s]; [done|].
  destruct (parse_numeric s); [done|]. by injection Hx.
Qed.

(** X26: on a rectangular table with distinct labels, [to_num] keeps exactly
    the rows in which no column holds the string ["N"], in their order, and
    each column of its result is [pd.to_numeric] of the kept rows of the
    column with the same label. *)
Theorem to_num_rows parse_numeric (data d : DataFrame) (n : nat) :
  NoDup (keys data) -> df_rows n data ->
  to_num parse_numeric data = Ok d ->
  exists M : list bool,
    length M = n
    /\ (forall i, (i < n)%nat ->
          M !! i = Some true <->
          forall f col, dict_get f data = Some col -> col !! i <> Some (Str "N"))
    /\ Forall2 (fun p p' => p'.1 = p.1 /\ pd_to_numeric parse_numeric p.2 = Ok p'.2)
         (df_mask data M) d.
Proof.
  intros Hnd Hrows H.
  destruct (to_num_drop_table data n Hrows) as (M & HM & Hlen & Hchar).
  rewrite (to_num_unfold parse_numeric data M Hnd HM) in H.
  exists M. split; [done|]. split; [done|].
  by apply map_columns_Forall2 in H.
Qed.

Lemma to_num_rows_witness :
  exists M : list bool,
    length M = 3%nat
    /\ (forall i, (i < 3)%nat ->
          M !! i = Some true <->
          forall f col,
            dict_get f [("AGE", [Str "17"; Str "N"; Num (Fin 40)]);
                        ("SEX", [Num (Fin 1); Num (Fin 2); Str "2"])] = Some col ->
            col !! i <> Some (Str "N"))
    /\ Forall2 (fun p p' => p'.1 = p.1 /\ pd_to_numeric parse_decimal p.2 = Ok p'.2)
         (df_mask [("AGE", [Str "17"; Str "N"; Num (Fin 40)]);
                   ("SEX", [Num (Fin 1); Num (Fin 2); Str "2"])] M)
         [("AGE", [Num (Fin 17); Num (Fin 40)]); ("SEX", [Num (Fin 1); Num (Fin 2)])].
Proof.
  apply (to_num_rows parse_decimal
           [("AGE", [Str "17"; Str "N"; Num (Fin 40)]);
            ("SEX", [Num (Fin 1); Num (Fin 2); Str "2"])]
           [("AGE", [Num (Fin 17); Num (Fin 40)]); ("SEX", [Num (Fin 1); Num (Fin 2)])]
           3).
  - by_compute.
  - by_compute.
  - vm_compute. reflexivity.
Defined.

Lemma Forall2_transfer {A B} (R : A -> B -> Prop) (P : A -> Prop) (Q : B -> Prop)
    (l : list A) (k : list B) :
  (forall x y, P x -> R x y -> Q y) ->
  Forall P l -> Forall2 R l k -> Forall Q k.
Proof.
  intros HPQ HP H. induction H as [|x y l k Hxy _ IH]; [constructor|].
  apply Forall_cons in HP as [Hx HP]. constructor; [by eapply HPQ|by apply IH].
Qed.

Lemma mask_select_length_le {A} (m : list bool) (l : list A) :
  (length (mask_select m l) <= length m)%nat.
Proof.
  revert l. induction m as [|b m IH]; intros [|x l]; cbn; try lia.
  specialize (IH l). destruct b; cbn; lia.
Qed.

Lemma to_num_result parse_numeric (data d : DataFrame) (n : nat) :
  NoDup (keys data) -> df_rows n data ->
  to_num parse_numeric data = Ok d ->
  keys d = keys data
  /\ Forall (fun p => Forall is_num p.2) d
  /\ exists n', (n' <= n)%nat /\ df_rows n' d.
Proof.
  intros Hnd Hrows H.
  destruct (to_num_drop_table data n Hrows) as (M & HM & Hlen & _).
  rewrite (to_num_unfold parse_numeric data M Hnd HM) in H.
  split; [|split].
  - rewrite (map_columns_keys _ _ _ H). apply keys_df_mask.
  - apply map_columns_Forall2 in H.
    eapply (Forall2_transfer _ (fun _ => True)); [|by apply Forall_true|exact H].
    intros p p' _ [_ Hp]. by eapply pd_to_numeric_is_num.
  - exists (length (mask_select M M)). split.
    + rewrite <- Hlen. apply mask_select_length_le.
    + pose proof (df_rows_df_mask data n M Hrows Hlen) as Hr.
      apply map_columns_Forall2 in H. unfold df_rows in *.
      eapply Forall2_transfer; [|exact Hr|exact H].
      intros p p' Hp0 [_ Hp]. cbn in *. apply mapM_length in Hp. congruence.
Qed.

(** X27: when [to_num] succeeds on a rectangular table with distinct
    labels, its result has the same column labels in the same order, every
    cell of it is a number, and it is rectangular with at most as many rows
    as the input. *)
Theorem to_num_numeric parse_numeric (data d : DataFrame) (n : nat) :
  NoDup (keys data) -> df_rows n data ->
  to_num parse_numeric data = Ok d ->
  keys d = keys data
  /\ Forall (fun p => Forall is_num p.2) d
  /\ exists n', (n' <= n)%nat /\ df_rows n' d.
Proof. apply to_num_result. Qed.

Lemma to_num_numeric_witness :
  keys [("AGE", [Num (Fin 17)]); ("SEX", [Num (Fin 1)])]
  = keys [("AGE", [Str "17"; Str "N"]); ("SEX", [Str "1"; Num (Fin 2)])]
  /\ Forall (fun p => Forall is_num p.2)
       [("AGE", [Num (Fin 17)]); ("SEX", [Num (Fin 1)])]
  /\ exists n', (n' <= 2)%nat
       /\ df_rows n' [("AGE", [Num (Fin 17)]); ("SEX", [Num (Fin 1)])].
Proof.
  apply (to_num_numeric parse_decimal
           [("AGE", [Str "17"; Str "N"]); ("SEX", [Str "1"; Num (Fin 2)])]).
  - by_compute.
  - by_compute.
  - vm_compute. reflexivity.
Defined.

(** X28: a string that [pd.to_numeric] cannot read, in a row that holds no
    ["N"], makes [to_num] fail: it raises an exception and returns no
    table. *)
Theorem to_num_unreadable_raises parse_numeric (data : DataFrame) (n i : nat)
    (f : string) (col : Series) (s : string) :
  NoDup (keys data) -> df_rows n data ->
  dict_get f data = Some col -> col !! i = Some (Str s) ->
  parse_numeric s = None ->
  (forall f' col', dict_get f' data = Some col' -> col' !! i <> Some (Str "N")) ->
  exists e, to_num parse_numeric data = Raise e.
Proof.
  intros Hnd Hrows Hg Hi Hs Hrow. exists ValueError.
  destruct (to_num_drop_table data n Hrows) as (M & HM & Hlen & Hchar).
  rewrite (to_num_unfold parse_numeric data M Hnd HM).
  assert (M !! i = Some true) as HMi.
  { apply Hchar; [|done]. apply lookup_lt_Some in Hi.
    by rewrite (dict_get_rows _ _ _ _ Hrows Hg) in Hi. }
  assert (pd_to_numeric parse_numeric (mask_select M col) = Raise ValueError) as Hcol.
  { apply (mapM_Raise_only _ ValueError _ (Str s)).
    - intros [v|s'] e; [done|]. destruct (parse_numeric s'); [done|]. by intros [= <-].
    - apply elem_of_mask_select. by exists i.
    - exists ValueError. by rewrite Hs. }
  unfold map_columns.
  apply (mapM_Raise_only _ ValueError _ (f, mask_select M col)).
  - intros [k c] e. cbn.
    destruct (pd_to_numeric parse_numeric c) as [c'|e'] eqn:Hc; cbn; [done|].
    intros [= <-]. by eapply pd_to_numeric_ValueError.
  - apply elem_of_dict_get. by rewrite dict_get_df_mask, Hg.
  - exists ValueError. by rewrite Hcol.
Qed.

Lemma to_num_unreadable_raises_witness :
  exists e,
    to_num parse_decimal
      [("AGE", [Num (Fin 17); Str "N"]); ("SEX", [Str "M"; Num (Fin 2)])]
    = Raise e.
Proof.
  apply (to_num_unreadable_raises parse_decimal
           [("AGE", [Num (Fin 17); Str "N"]); ("SEX", [Str "M"; Num (Fin 2)])]
           2 0 "SEX" [Str "M"; Num (Fin 2)] "M").
  - by_compute.
  - by_compute.
  - reflexivity.
  - reflexivity.
  - vm_compute. reflexivity.
  - intros f' col' Hg%elem_of_dict_get.
    apply elem_of_cons in Hg as [[= -> ->]|Hg]; [vm_compute; congruence|].
    apply elem_of_cons in Hg as [[= -> ->]|Hg]; [vm_compute; congruence|].
    by apply elem_of_nil in Hg.
Defined.

(** A rectangular table of numbers goes through [to_num] unchanged. *)
Lemma to_num_nums parse_numeric (d : DataFrame) (n : nat) :
  NoDup (keys d) -> df_rows n d ->
  Forall (fun p => Forall is_num p.2) d ->
  to_num parse_numeric d = Ok d.
Proof.
  intros Hnd Hrows Hnum.
  destruct (to_num_drop_table d n Hrows) as (M & HM & Hlen & Hchar).
  assert (M = replicate n true) as ->.
  { apply list_eq. intros i. destruct (decide (i < n)%nat) as [Hi|Hi].
    - rewrite (lookup_replicate_2 n true i Hi). apply Hchar; [done|].
      intros f col Hg Hx. apply elem_of_dict_get in Hg.
      rewrite Forall_forall in Hnum. specialize (Hnum _ Hg). cbn in Hnum.
      rewrite Forall_forall in Hnum.
      by destruct (Hnum _ (list_elem_of_lookup_2 _ _ _ Hx)).
    - rewrite !(proj2 (lookup_ge_None _ _)); [done| |]; 
        rewrite ?length_replicate; lia. }
  rewrite (to_num_unfold parse_numeric d _ Hnd HM), (df_mask_all d n Hrows).
  unfold map_columns. rewrite <- (list_fmap_id d) at 2. apply mapM_all_Ok.
  eapply Forall_impl; [exact Hnum|]. intros [k col] Hc. cbn in *.
  by rewrite pd_to_numeric_nums.
Qed.

(** X29: [to_num] returns unchanged a table with distinct labels and
    columns of equal length whose cells are all numbers: no row is dropped
    and no cell is converted. *)
Theorem to_num_numbers_unchanged parse_numeric (d : DataFrame) (n : nat) :
  NoDup (keys d) -> df_rows n d ->
  Forall (fun p => Forall is_num p.2) d ->
  to_num parse_numeric d = Ok d.
Proof. apply to_num_nums. Qed.

Lemma to_num_numbers_unchanged_witness :
  to_num parse_decimal
    [("AGE", [Num (Fin 17); Num (Fin 40)]); ("SEX", [Num (Fin 1); Num NaN])]
  = Ok [("AGE", [Num (Fin 17); Num (Fin 40)]); ("SEX", [Num (Fin 1); Num NaN])].
Proof.
  apply (to_num_numbers_unchanged parse_decimal
           [("AGE", [Num (Fin 17); Num (Fin 40)]); ("SEX", [Num (Fin 1); Num NaN])]
           2).
  - by_compute.
  - by_compute.
  - repeat (apply Forall_cons_2 || apply Forall_nil_2); by eexists.
Defined.

(** X30: [to_num] is idempotent: applied to its own result, on a
    rectangular table with distinct labels, it returns that result. *)
Theorem to_num_idempotent parse_numeric (data d : DataFrame) (n : nat) :
  NoDup (keys data) -> df_rows n data ->
  to_num parse_numeric data = Ok d ->
  to_num parse_numeric d = Ok d.
Proof.
  intros Hnd Hrows H.
  destruct (to_num_result parse_numeric data d n Hnd Hrows H)
    as (Hk & Hnum & n' & _ & Hr).
  apply (to_num_nums parse_numeric d n'); [by rewrite Hk|done|done].
Qed.

Lemma to_num_idempotent_witness :
  to_num parse_decimal [("AGE", [Num (Fin 17)]); ("SEX", [Num (Fin 1)])]
  = Ok [("AGE", [Num (Fin 17)]); ("SEX", [Num (Fin 1)])].
Proof.
  apply (to_num_idempotent parse_decimal
           [("AGE", [Str "17"; Str "N"]); ("SEX", [Str "1"; Num (Fin 2)])] _ 2).
  - by_compute.
  - by_compute.
  - vm_compute. reflexivity.
Defined.
